(** * libdragon command queue: a shallow embedding of [dl.c], [rdpq.h], [gl.c]

    The development follows the three C sources:
    - [src/dl/dl.c]      the double-buffered display-list transport,
    - [include/rdpq.h]   the RDP command ids and the autosync resource masks,
    - [src/GL/gl.c]      the matrix stacks and the capability flags.

    C statements that can stop the program ([assert], [assertf]) or whose
    behaviour the language leaves undefined (a store outside an array) are
    threaded through a small state-and-failure monad. *)

From Stdlib Require Import ZArith Lia Bool.
From stdpp Require Import base list strings.

Local Open Scope Z_scope.

(** ** Outcome of running a C function *)

Inductive result (S A : Type) : Type :=
| Ok (a : A) (s : S)               (* returned [a], leaving the globals as [s] *)
| AssertFail (msg : string) (s : S) (* an assertion aborted the program in [s] *)
| Undefined.                        (* a store or load outside its array *)

Arguments Ok {S A} a s.
Arguments AssertFail {S A} msg s.
Arguments Undefined {S A}.

Definition M (S A : Type) : Type := S -> result S A.

Definition ret {S A} (a : A) : M S A := fun s => Ok a s.

Definition bind {S A B} (c : M S A) (k : A -> M S B) : M S B :=
  fun s => match c s with
           | Ok a s' => k a s'
           | AssertFail msg s' => AssertFail msg s'
           | Undefined => Undefined
           end.

Definition get {S} : M S S := fun s => Ok s s.
Definition gets {S A} (f : S -> A) : M S A := fun s => Ok (f s) s.
Definition modify {S} (f : S -> S) : M S unit := fun s => Ok tt (f s).
Definition undefined {S A} : M S A := fun _ => Undefined.

(** [assertf(cond, msg)]: continue when [cond] holds, abort otherwise. *)
Definition assertf {S} (cond : bool) (msg : string) : M S unit :=
  fun s => if cond then Ok tt s else AssertFail msg s.

Declare Scope cmd_scope.
Delimit Scope cmd_scope with cmd.
Notation "'do' x <- c ; k" := (bind c (fun x => k))
  (at level 10, x name, c at level 100, k at level 200) : cmd_scope.
Notation "'do_' c ; k" := (bind c (fun _ => k))
  (at level 10, c at level 100, k at level 200) : cmd_scope.

(** ** Fixed-width integers *)

Definition uint8 (z : Z) : Z := z mod 2 ^ 8.
Definition uint16 (z : Z) : Z := z mod 2 ^ 16.
Definition uint32 (z : Z) : Z := z mod 2 ^ 32.
Definition int32 (z : Z) : Z := (z + 2 ^ 31) mod 2 ^ 32 - 2 ^ 31.

(** ** Arrays indexed by a C integer *)

Definition load {A} (l : list A) (i : Z) : option A :=
  if 0 <=? i then l !! Z.to_nat i else None.

Definition store {A} (l : list A) (i : Z) (v : A) : option (list A) :=
  if (0 <=? i) && (i <? Z.of_nat (length l))
  then Some (<[Z.to_nat i := v]> l) else None.

(** [memset(p, 0, n * sizeof(uint32_t))] on an array of words. *)
Definition memset_words (l : list Z) (p n : Z) : option (list Z) :=
  if (0 <=? p) && (0 <=? n) && (p + n <=? Z.of_nat (length l))
  then Some (list_inserts (Z.to_nat p) (replicate (Z.to_nat n) 0) l)
  else None.

Arguments load {A} l i : simpl never.
Arguments store {A} l i v : simpl never.
Arguments memset_words l p n : simpl never.

(** * The display-list transport ([src/dl/dl.c]) *)

Module Dl.

(** Constants, macros and link-time addresses that [dl.c] takes from headers
    and objects outside the three sources ([dl_internal.h], [rsp.h],
    [n64sys.h], the linked RSP ucode).  They are parameters of the model. *)
Class headers : Type := {
  DL_DRAM_BUFFER_SIZE : Z;       (* words per buffer *)
  DL_MAX_COMMAND_SIZE : Z;       (* words kept free after the sentinel *)
  DL_OVERLAY_TABLE_SIZE : Z;
  DL_MAX_OVERLAY_COUNT : Z;
  SP_WSTATUS_SET_HALT : Z;
  SP_WSTATUS_CLEAR_HALT : Z;
  SP_WSTATUS_CLEAR_BROKE : Z;
  SP_WSTATUS_SET_SIG7 : Z;
  SP_WSTATUS_CLEAR_SIG0 : Z;
  SP_WSTATUS_CLEAR_SIG1 : Z;
  SP_WSTATUS_CLEAR_SIG2 : Z;
  SP_WSTATUS_CLEAR_SIG3 : Z;
  SP_WSTATUS_CLEAR_SIG4 : Z;
  SP_WSTATUS_CLEAR_SIG5 : Z;
  SP_WSTATUS_CLEAR_SIG6 : Z;
  SP_WSTATUS_CLEAR_SIG7 : Z;
  PhysicalAddr : Z -> Z;         (* on byte addresses *)
  UncachedAddr : Z -> Z;         (* on byte addresses *)
  dl_buffers_addr : Z;           (* byte address of [dl_buffers] *)
  dummy_overlay_state_addr : Z;  (* byte address of [dummy_overlay_state] *)
  rsp_dl_text_start : Z;
  rsp_dl_text_end : Z;
  (* [dl_terminator(p)] overwrites part of the word at [p]: the new value of
     the word as a function of the old one, and the consumer's test for a
     terminator word. *)
  dl_terminator_word : Z -> Z;
  is_terminator : Z -> bool;
}.

Section WithHeaders.
Context `{H : headers}.

(** ** Data *)

Record dl_overlay_t : Type := {
  code : Z;
  data : Z;
  data_buf : Z;
  code_size : Z;
  data_size : Z;
}.

Record dl_overlay_header_t : Type := {
  state_start : Z;
  state_size : Z;
  command_base : Z;
}.

Record rsp_dl_t : Type := {
  overlay_table : list Z;
  overlay_descriptors : list dl_overlay_t;
  dl_dram_addr : Z;
  dl_dram_highpri_addr : Z;
  current_ovl : Z;
}.

(** The part of [rsp_ucode_t] that [dl_overlay_add] reads: four addresses and
    the overlay header stored at [data]. *)
Record rsp_ucode_t : Type := {
  ucode_code : Z;
  ucode_code_end : Z;
  ucode_data : Z;
  ucode_data_end : Z;
  ucode_header : dl_overlay_header_t;
}.

(** What the DMA of [rsp_load_data] copies into the consumer's memory. *)
Inductive dma_source : Type :=
| dma_dl_data (d : rsp_dl_t)
| dma_dummy_header (h : dl_overlay_header_t).

(** Actions visible outside the CPU, in program order. *)
Inductive hw_event : Type :=
| SP_STATUS_write (v : Z)
| rsp_wait
| rsp_load
| data_cache_hit_writeback (d : rsp_dl_t)
| rsp_load_data (src : dma_source) (dmem_offset : Z)
| rsp_run_async.

(** The file-scope variables of [dl.c].  A [uint32_t*] into [dl_buffers] is
    the index of the word it points to; [dl_buffers[2][N]] is one contiguous
    array of [2 * N] words, so [&dl_buffers[i][j]] is index [i * N + j]. *)
Record state : Type := {
  dl_data : rsp_dl_t;
  dl_overlay_count : Z;
  dl_buffers : list Z;
  dl_buf_idx : Z;
  dl_cur_pointer : Z;
  dl_sentinel : Z;
  dl_is_running : bool;
  hw : list hw_event;
}.

Definition set_dl_data (v : rsp_dl_t) (s : state) : state :=
  {| dl_data := v; dl_overlay_count := dl_overlay_count s;
     dl_buffers := dl_buffers s; dl_buf_idx := dl_buf_idx s;
     dl_cur_pointer := dl_cur_pointer s; dl_sentinel := dl_sentinel s;
     dl_is_running := dl_is_running s; hw := hw s |}.
Definition set_dl_overlay_count (v : Z) (s : state) : state :=
  {| dl_data := dl_data s; dl_overlay_count := v;
     dl_buffers := dl_buffers s; dl_buf_idx := dl_buf_idx s;
     dl_cur_pointer := dl_cur_pointer s; dl_sentinel := dl_sentinel s;
     dl_is_running := dl_is_running s; hw := hw s |}.
Definition set_dl_buffers (v : list Z) (s : state) : state :=
  {| dl_data := dl_data s; dl_overlay_count := dl_overlay_count s;
     dl_buffers := v; dl_buf_idx := dl_buf_idx s;
     dl_cur_pointer := dl_cur_pointer s; dl_sentinel := dl_sentinel s;
     dl_is_running := dl_is_running s; hw := hw s |}.
Definition set_dl_buf_idx (v : Z) (s : state) : state :=
  {| dl_data := dl_data s; dl_overlay_count := dl_overlay_count s;
     dl_buffers := dl_buffers s; dl_buf_idx := v;
     dl_cur_pointer := dl_cur_pointer s; dl_sentinel := dl_sentinel s;
     dl_is_running := dl_is_running s; hw := hw s |}.
Definition set_dl_cur_pointer (v : Z) (s : state) : state :=
  {| dl_data := dl_data s; dl_overlay_count := dl_overlay_count s;
     dl_buffers := dl_buffers s; dl_buf_idx := dl_buf_idx s;
     dl_cur_pointer := v; dl_sentinel := dl_sentinel s;
     dl_is_running := dl_is_running s; hw := hw s |}.
Definition set_dl_sentinel (v : Z) (s : state) : state :=
  {| dl_data := dl_data s; dl_overlay_count := dl_overlay_count s;
     dl_buffers := dl_buffers s; dl_buf_idx := dl_buf_idx s;
     dl_cur_pointer := dl_cur_pointer s; dl_sentinel := v;
     dl_is_running := dl_is_running s; hw := hw s |}.
Definition set_dl_is_running (v : bool) (s : state) : state :=
  {| dl_data := dl_data s; dl_overlay_count := dl_overlay_count s;
     dl_buffers := dl_buffers s; dl_buf_idx := dl_buf_idx s;
     dl_cur_pointer := dl_cur_pointer s; dl_sentinel := dl_sentinel s;
     dl_is_running := v; hw := hw s |}.
Definition emit (e : hw_event) (s : state) : state :=
  {| dl_data := dl_data s; dl_overlay_count := dl_overlay_count s;
     dl_buffers := dl_buffers s; dl_buf_idx := dl_buf_idx s;
     dl_cur_pointer := dl_cur_pointer s; dl_sentinel := dl_sentinel s;
     dl_is_running := dl_is_running s; hw := hw s ++ [e] |}.

(** ** Memory accesses through a [uint32_t*] *)

Local Open Scope cmd_scope.

(** [*p] *)
Definition read_word (p : Z) : M state Z :=
  fun s => match load (dl_buffers s) p with
           | Some w => Ok w s
           | None => Undefined
           end.

(** [*p = v] *)
Definition write_word (p v : Z) : M state unit :=
  fun s => match store (dl_buffers s) p v with
           | Some l => Ok tt (set_dl_buffers l s)
           | None => Undefined
           end.

(** [memset(p, 0, DL_DRAM_BUFFER_SIZE*sizeof(uint32_t))] *)
Definition memset_buffer (p : Z) : M state unit :=
  fun s => match memset_words (dl_buffers s) p DL_DRAM_BUFFER_SIZE with
           | Some l => Ok tt (set_dl_buffers l s)
           | None => Undefined
           end.

(** [*SP_STATUS = v] *)
Definition write_SP_STATUS (v : Z) : M state unit :=
  modify (emit (SP_STATUS_write v)).

(** The macro [dl_terminator(p)] of the missing [dl_internal.h]: it rewrites
    the word at [p]; what it makes of the word is [dl_terminator_word]. *)
Definition dl_terminator (p : Z) : M state unit :=
  do w <- read_word p;
  write_word p (dl_terminator_word w).

(** Byte address of the word a [uint32_t*] into [dl_buffers] points to. *)
Definition address_of (p : Z) : Z := dl_buffers_addr + 4 * p.

(** [&dl_buffers[i]], as a word pointer. *)
Definition buffer_start (i : Z) : Z := i * DL_DRAM_BUFFER_SIZE.

(** ** Functions of [dl.c] *)

Definition get_ovl_data_offset : Z := 0x200.

Definition zero_overlay : dl_overlay_t :=
  {| code := 0; data := 0; data_buf := 0; code_size := 0; data_size := 0 |}.

(** [memset(&dl_data, 0, sizeof(dl_data))] *)
Definition zero_dl_data : rsp_dl_t :=
  {| overlay_table := replicate (Z.to_nat DL_OVERLAY_TABLE_SIZE) 0;
     overlay_descriptors := replicate (Z.to_nat DL_MAX_OVERLAY_COUNT) zero_overlay;
     dl_dram_addr := 0; dl_dram_highpri_addr := 0; current_ovl := 0 |}.

Definition set_overlay_descriptor (i : Z) (o : dl_overlay_t) : M state unit :=
  fun s => match store (overlay_descriptors (dl_data s)) i o with
           | Some l =>
               Ok tt (set_dl_data
                        {| overlay_table := overlay_table (dl_data s);
                           overlay_descriptors := l;
                           dl_dram_addr := dl_dram_addr (dl_data s);
                           dl_dram_highpri_addr := dl_dram_highpri_addr (dl_data s);
                           current_ovl := current_ovl (dl_data s) |} s)
           | None => Undefined
           end.

Definition get_overlay_descriptor (i : Z) : M state dl_overlay_t :=
  fun s => match load (overlay_descriptors (dl_data s)) i with
           | Some o => Ok o s
           | None => Undefined
           end.

Definition set_dl_dram_addr (a : Z) : M state unit :=
  modify (fun s => set_dl_data
                     {| overlay_table := overlay_table (dl_data s);
                        overlay_descriptors := overlay_descriptors (dl_data s);
                        dl_dram_addr := a;
                        dl_dram_highpri_addr := dl_dram_highpri_addr (dl_data s);
                        current_ovl := current_ovl (dl_data s) |} s).

Definition dl_init : M state unit :=
  do_ modify (set_dl_data zero_dl_data);
  do_ modify (set_dl_cur_pointer (buffer_start 0));
  do p <- gets dl_cur_pointer;
  do_ memset_buffer p;
  do_ dl_terminator p;
  do_ modify (set_dl_sentinel (p + DL_DRAM_BUFFER_SIZE - DL_MAX_COMMAND_SIZE));
  do_ set_dl_dram_addr (PhysicalAddr (address_of (buffer_start 0)));
  do o <- get_overlay_descriptor 0;
  do_ set_overlay_descriptor 0
        {| code := code o; data := data o;
           data_buf := PhysicalAddr dummy_overlay_state_addr;
           code_size := code_size o; data_size := data_size o |};
  do o <- get_overlay_descriptor 0;
  do_ set_overlay_descriptor 0
        {| code := code o; data := data o; data_buf := data_buf o;
           code_size := code_size o; data_size := 8 |};
  modify (set_dl_overlay_count 1).

Definition dl_close : M state unit :=
  do_ write_SP_STATUS SP_WSTATUS_SET_HALT;
  modify (set_dl_is_running false).

Definition dl_overlay_get_state (overlay_ucode : rsp_ucode_t) : Z :=
  ucode_data overlay_ucode
  + Z.land (state_start (ucode_header overlay_ucode)) 0xFFF
  - get_ovl_data_offset.

(** A null [overlay_ucode] is [None]. *)
Definition dl_overlay_add (overlay_ucode : option rsp_ucode_t) : M state Z :=
  do n <- gets dl_overlay_count;
  do_ assertf (0 <? n) "dl_overlay_add must be called after dl_init!";
  do_ assertf (n <? DL_MAX_OVERLAY_COUNT) "Only up to %d overlays are supported!";
  match overlay_ucode with
  | None => fun s => AssertFail "overlay_ucode" s
  | Some u =>
      let dl_ucode_size := uint32 (rsp_dl_text_end - rsp_dl_text_start) in
      do_ set_overlay_descriptor n
            {| code := PhysicalAddr (ucode_code u + dl_ucode_size);
               data := PhysicalAddr (ucode_data u);
               data_buf := PhysicalAddr (dl_overlay_get_state u);
               code_size := uint16 ((ucode_code_end u - ucode_code u) - dl_ucode_size - 1);
               data_size := uint16 ((ucode_data_end u - ucode_data u) - 1) |};
      do_ modify (set_dl_overlay_count (uint8 (n + 1)));
      ret n
  end.

Definition dummy_header : dl_overlay_header_t :=
  {| state_start := 0; state_size := 7; command_base := 0 |}.

Definition clear_all_signals : Z :=
  Z.lor (Z.lor (Z.lor (Z.lor (Z.lor (Z.lor (Z.lor
    SP_WSTATUS_CLEAR_SIG0 SP_WSTATUS_CLEAR_SIG1) SP_WSTATUS_CLEAR_SIG2)
    SP_WSTATUS_CLEAR_SIG3) SP_WSTATUS_CLEAR_SIG4) SP_WSTATUS_CLEAR_SIG5)
    SP_WSTATUS_CLEAR_SIG6) SP_WSTATUS_CLEAR_SIG7.

Definition dl_start : M state unit :=
  do running <- gets dl_is_running;
  if running then ret tt
  else
    do_ modify (emit rsp_wait);
    do_ modify (emit rsp_load);
    do d <- gets dl_data;
    do_ modify (emit (data_cache_hit_writeback d));
    do_ modify (emit (rsp_load_data (dma_dl_data d) 0));
    do_ modify (emit (rsp_load_data (dma_dummy_header dummy_header) get_ovl_data_offset));
    do_ write_SP_STATUS clear_all_signals;
    do_ modify (emit rsp_run_async);
    modify (set_dl_is_running true).

(** The doorbell value written by [dl_write_end] and [dl_next_buffer]. *)
Definition doorbell : Z :=
  Z.lor (Z.lor SP_WSTATUS_SET_SIG7 SP_WSTATUS_CLEAR_HALT) SP_WSTATUS_CLEAR_BROKE.

(** [0x04000000 | (uint32_t)PhysicalAddr(dl2)], with
    [dl2 = UncachedAddr(&dl_buffers[dl_buf_idx])]. *)
Definition jump_word (dl2 : Z) : Z :=
  Z.lor 0x04000000 (uint32 (PhysicalAddr (UncachedAddr (address_of dl2)))).

Definition dl_next_buffer : M state unit :=
  do idx <- gets dl_buf_idx;
  do_ modify (set_dl_buf_idx (uint8 (1 - idx)));
  do idx <- gets dl_buf_idx;
  let dl2 := buffer_start idx in
  do_ memset_buffer dl2;
  do_ dl_terminator dl2;
  do cur <- gets dl_cur_pointer;
  do_ write_word cur (jump_word dl2);
  do_ modify (set_dl_cur_pointer (cur + 1));
  do cur <- gets dl_cur_pointer;
  do_ dl_terminator cur;
  do_ write_SP_STATUS doorbell;
  do_ modify (set_dl_cur_pointer dl2);
  do cur <- gets dl_cur_pointer;
  modify (set_dl_sentinel (cur + DL_DRAM_BUFFER_SIZE - DL_MAX_COMMAND_SIZE)).

Definition dl_write_end (dl : Z) : M state unit :=
  do_ dl_terminator dl;
  do_ write_SP_STATUS doorbell;
  do_ modify (set_dl_cur_pointer dl);
  do cur <- gets dl_cur_pointer;
  do sentinel <- gets dl_sentinel;
  if sentinel <? cur then dl_next_buffer else ret tt.

(** Modelled from the spec: the macro [dl_write_begin()] of the missing
    [dl_internal.h]; begin returns a writable region inside the active buffer
    and advances no cursor, so it yields the current write cursor. *)
Definition dl_write_begin : M state Z := gets dl_cur_pointer.

Definition dl_queue_u8 (cmd : Z) : M state unit :=
  do dl <- dl_write_begin;
  do_ write_word dl (uint32 (Z.shiftl (uint8 cmd) 24));
  dl_write_end (dl + 1).

Definition dl_queue_u16 (cmd : Z) : M state unit :=
  do dl <- dl_write_begin;
  do_ write_word dl (uint32 (Z.shiftl (uint16 cmd) 16));
  dl_write_end (dl + 1).

Definition dl_queue_u32 (cmd : Z) : M state unit :=
  do dl <- dl_write_begin;
  do_ write_word dl (uint32 cmd);
  dl_write_end (dl + 1).

Definition dl_queue_u64 (cmd : Z) : M state unit :=
  do dl <- dl_write_begin;
  do_ write_word dl (uint32 (Z.shiftr cmd 32));
  do_ write_word (dl + 1) (Z.land cmd 0xFFFFFFFF);
  dl_write_end (dl + 2).

(** ** Reading a state *)

(** Start of the active buffer, as a word pointer. *)
Definition active_start (s : state) : Z := buffer_start (dl_buf_idx s).

(** Start of the buffer that is not active. *)
Definition other_start (s : state) : Z := buffer_start (1 - dl_buf_idx s).

(** The word at [p] is a terminator. *)
Definition terminated_at (s : state) (p : Z) : Prop :=
  exists w, load (dl_buffers s) p = Some w /\ is_terminator w = true.

(** The state the transport keeps between two calls: the write cursor lies
    in the active buffer, at or before the sentinel; the sentinel lies
    [DL_MAX_COMMAND_SIZE] words before the end of the active buffer; the word
    at the cursor is a terminator. *)
Record wf (s : state) : Prop := {
  wf_length : Z.of_nat (length (dl_buffers s)) = 2 * DL_DRAM_BUFFER_SIZE;
  wf_idx : dl_buf_idx s = 0 \/ dl_buf_idx s = 1;
  wf_cursor_lo : active_start s <= dl_cur_pointer s;
  wf_cursor_hi : dl_cur_pointer s <= dl_sentinel s;
  wf_sentinel :
    dl_sentinel s = active_start s + DL_DRAM_BUFFER_SIZE - DL_MAX_COMMAND_SIZE;
  wf_terminated : terminated_at s (dl_cur_pointer s);
}.

(** [s'] is [s] after a commit at [dl] that switched buffers: the jump word
    sits at [dl], right after the committed words, which are untouched; the
    other buffer is zero behind a terminator and has become the active one;
    the sentinel is [DL_MAX_COMMAND_SIZE] words before its end. *)
Record switched (s : state) (dl : Z) (s' : state) : Prop := {
  sw_jump : load (dl_buffers s') dl = Some (jump_word (other_start s));
  sw_jump_fields :
    0 <= PhysicalAddr (UncachedAddr (address_of (other_start s))) < 2 ^ 24 ->
    Z.shiftr (jump_word (other_start s)) 24 = 4
    /\ Z.land (jump_word (other_start s)) 0xFFFFFF
       = PhysicalAddr (UncachedAddr (address_of (other_start s)));
  sw_committed :
    forall i, active_start s <= i < dl ->
              load (dl_buffers s') i = load (dl_buffers s) i;
  sw_terminated : terminated_at s' (other_start s);
  sw_zero :
    forall i, other_start s < i < other_start s + DL_DRAM_BUFFER_SIZE ->
              load (dl_buffers s') i = Some 0;
  sw_length : length (dl_buffers s') = length (dl_buffers s);
  sw_idx : dl_buf_idx s' = 1 - dl_buf_idx s;
  sw_active : active_start s' = other_start s;
  sw_cursor : dl_cur_pointer s' = other_start s;
  sw_sentinel :
    dl_sentinel s' = other_start s + DL_DRAM_BUFFER_SIZE - DL_MAX_COMMAND_SIZE;
}.

(** [s'] is [s] after a commit at [dl] that did not switch: only the word at
    [dl] changed, into a terminator; the cursor is [dl]. *)
Record stayed (s : state) (dl : Z) (s' : state) : Prop := {
  st_terminated : terminated_at s' dl;
  st_unchanged :
    forall i, i <> dl -> load (dl_buffers s') i = load (dl_buffers s) i;
  st_length : length (dl_buffers s') = length (dl_buffers s);
  st_idx : dl_buf_idx s' = dl_buf_idx s;
  st_cursor : dl_cur_pointer s' = dl;
  st_sentinel : dl_sentinel s' = dl_sentinel s;
}.

(** What the model needs of the header parameters. *)
Definition sizes_ok : Prop :=
  0 < DL_MAX_COMMAND_SIZE <= DL_DRAM_BUFFER_SIZE.

Definition terminator_ok : Prop :=
  forall w, is_terminator (dl_terminator_word w) = true.

Definition is_doorbell (e : hw_event) : bool :=
  match e with
  | SP_STATUS_write v => v =? doorbell
  | _ => false
  end.

(** Number of doorbell writes in a trace. *)
Definition doorbells (t : list hw_event) : nat := length (filter is_doorbell t).

(** Doorbell writes made by one call of [dl_write_end]. *)
Definition doorbells_of_commit (dl : Z) (s : state) : option nat :=
  match dl_write_end dl s with
  | Ok _ s' => Some (doorbells (hw s') - doorbells (hw s))%nat
  | _ => None
  end.

(** What a first [dl_start] shows the hardware, in order. *)
Definition start_events (s : state) : list hw_event :=
  [ rsp_wait; rsp_load; data_cache_hit_writeback (dl_data s);
    rsp_load_data (dma_dl_data (dl_data s)) 0;
    rsp_load_data (dma_dummy_header dummy_header) get_ovl_data_offset;
    SP_STATUS_write clear_all_signals; rsp_run_async ].

End WithHeaders.
End Dl.

(** The run was stopped by an assertion. *)
Definition aborted {S A} (r : result S A) : bool :=
  match r with
  | AssertFail _ _ => true
  | _ => false
  end.

(** The value a run returned. *)
Definition returned {S A} (r : result S A) : option A :=
  match r with
  | Ok a _ => Some a
  | _ => None
  end.

(** * The RDP command queue interface ([include/rdpq.h]) *)

Module Rdpq.

(** ** Command ids: the anonymous [enum] of [rdpq.h] *)

Inductive rdpq_cmd : Type :=
| RDPQ_CMD_NOOP
| RDPQ_CMD_SET_LOOKUP_ADDRESS
| RDPQ_CMD_PUSH_RENDER_MODE
| RDPQ_CMD_POP_RENDER_MODE
| RDPQ_CMD_POP_RENDER_MODE_FIX
| RDPQ_CMD_SET_COMBINE_MODE_2PASS
| RDPQ_CMD_SET_COMBINE_MODE_2PASS_FIX
| RDPQ_CMD_TRI
| RDPQ_CMD_TRI_ZBUF
| RDPQ_CMD_TRI_TEX
| RDPQ_CMD_TRI_TEX_ZBUF
| RDPQ_CMD_TRI_SHADE
| RDPQ_CMD_TRI_SHADE_ZBUF
| RDPQ_CMD_TRI_SHADE_TEX
| RDPQ_CMD_TRI_SHADE_TEX_ZBUF
| RDPQ_CMD_TEXTURE_RECTANGLE_EX
| RDPQ_CMD_TEXTURE_RECTANGLE_EX_FIX
| RDPQ_CMD_SET_SCISSOR_EX
| RDPQ_CMD_SET_SCISSOR_EX_FIX
| RDPQ_CMD_MODIFY_OTHER_MODES
| RDPQ_CMD_MODIFY_OTHER_MODES_FIX
| RDPQ_CMD_SET_FILL_COLOR_32
| RDPQ_CMD_SET_FILL_COLOR_32_FIX
| RDPQ_CMD_SET_BLENDING_MODE
| RDPQ_CMD_SET_BLENDING_MODE_FIX
| RDPQ_CMD_SET_COMBINE_MODE_1PASS
| RDPQ_CMD_SET_COMBINE_MODE_1PASS_FIX
| RDPQ_CMD_SET_TEXTURE_IMAGE_FIX
| RDPQ_CMD_SET_Z_IMAGE_FIX
| RDPQ_CMD_SET_COLOR_IMAGE_FIX
| RDPQ_CMD_SET_OTHER_MODES_FIX
| RDPQ_CMD_SYNC_FULL_FIX
| RDPQ_CMD_TEXTURE_RECTANGLE
| RDPQ_CMD_TEXTURE_RECTANGLE_FLIP
| RDPQ_CMD_SYNC_LOAD
| RDPQ_CMD_SYNC_PIPE
| RDPQ_CMD_SYNC_TILE
| RDPQ_CMD_SYNC_FULL
| RDPQ_CMD_SET_KEY_GB
| RDPQ_CMD_SET_KEY_R
| RDPQ_CMD_SET_CONVERT
| RDPQ_CMD_SET_SCISSOR
| RDPQ_CMD_SET_PRIM_DEPTH
| RDPQ_CMD_SET_OTHER_MODES
| RDPQ_CMD_LOAD_TLUT
| RDPQ_CMD_SET_TILE_SIZE
| RDPQ_CMD_LOAD_BLOCK
| RDPQ_CMD_LOAD_TILE
| RDPQ_CMD_SET_TILE
| RDPQ_CMD_FILL_RECTANGLE
| RDPQ_CMD_SET_FILL_COLOR
| RDPQ_CMD_SET_FOG_COLOR
| RDPQ_CMD_SET_BLEND_COLOR
| RDPQ_CMD_SET_PRIM_COLOR
| RDPQ_CMD_SET_ENV_COLOR
| RDPQ_CMD_SET_COMBINE_MODE_RAW
| RDPQ_CMD_SET_TEXTURE_IMAGE
| RDPQ_CMD_SET_Z_IMAGE
| RDPQ_CMD_SET_COLOR_IMAGE.

(** The enumerator values. *)
Definition cmd_id (c : rdpq_cmd) : Z :=
  match c with
  | RDPQ_CMD_NOOP                       => 0x00
  | RDPQ_CMD_SET_LOOKUP_ADDRESS         => 0x01
  | RDPQ_CMD_PUSH_RENDER_MODE           => 0x02
  | RDPQ_CMD_POP_RENDER_MODE            => 0x03
  | RDPQ_CMD_POP_RENDER_MODE_FIX        => 0x04
  | RDPQ_CMD_SET_COMBINE_MODE_2PASS     => 0x05
  | RDPQ_CMD_SET_COMBINE_MODE_2PASS_FIX => 0x06
  | RDPQ_CMD_TRI                        => 0x08
  | RDPQ_CMD_TRI_ZBUF                   => 0x09
  | RDPQ_CMD_TRI_TEX                    => 0x0A
  | RDPQ_CMD_TRI_TEX_ZBUF               => 0x0B
  | RDPQ_CMD_TRI_SHADE                  => 0x0C
  | RDPQ_CMD_TRI_SHADE_ZBUF             => 0x0D
  | RDPQ_CMD_TRI_SHADE_TEX              => 0x0E
  | RDPQ_CMD_TRI_SHADE_TEX_ZBUF         => 0x0F
  | RDPQ_CMD_TEXTURE_RECTANGLE_EX       => 0x10
  | RDPQ_CMD_TEXTURE_RECTANGLE_EX_FIX   => 0x11
  | RDPQ_CMD_SET_SCISSOR_EX             => 0x12
  | RDPQ_CMD_SET_SCISSOR_EX_FIX         => 0x13
  | RDPQ_CMD_MODIFY_OTHER_MODES         => 0x14
  | RDPQ_CMD_MODIFY_OTHER_MODES_FIX     => 0x15
  | RDPQ_CMD_SET_FILL_COLOR_32          => 0x16
  | RDPQ_CMD_SET_FILL_COLOR_32_FIX      => 0x17
  | RDPQ_CMD_SET_BLENDING_MODE          => 0x18
  | RDPQ_CMD_SET_BLENDING_MODE_FIX      => 0x19
  | RDPQ_CMD_SET_COMBINE_MODE_1PASS     => 0x1B
  | RDPQ_CMD_SET_COMBINE_MODE_1PASS_FIX => 0x1C
  | RDPQ_CMD_SET_TEXTURE_IMAGE_FIX      => 0x1D
  | RDPQ_CMD_SET_Z_IMAGE_FIX            => 0x1E
  | RDPQ_CMD_SET_COLOR_IMAGE_FIX        => 0x1F
  | RDPQ_CMD_SET_OTHER_MODES_FIX        => 0x20
  | RDPQ_CMD_SYNC_FULL_FIX              => 0x21
  | RDPQ_CMD_TEXTURE_RECTANGLE          => 0x24
  | RDPQ_CMD_TEXTURE_RECTANGLE_FLIP     => 0x25
  | RDPQ_CMD_SYNC_LOAD                  => 0x26
  | RDPQ_CMD_SYNC_PIPE                  => 0x27
  | RDPQ_CMD_SYNC_TILE                  => 0x28
  | RDPQ_CMD_SYNC_FULL                  => 0x29
  | RDPQ_CMD_SET_KEY_GB                 => 0x2A
  | RDPQ_CMD_SET_KEY_R                  => 0x2B
  | RDPQ_CMD_SET_CONVERT                => 0x2C
  | RDPQ_CMD_SET_SCISSOR                => 0x2D
  | RDPQ_CMD_SET_PRIM_DEPTH             => 0x2E
  | RDPQ_CMD_SET_OTHER_MODES            => 0x2F
  | RDPQ_CMD_LOAD_TLUT                  => 0x30
  | RDPQ_CMD_SET_TILE_SIZE              => 0x32
  | RDPQ_CMD_LOAD_BLOCK                 => 0x33
  | RDPQ_CMD_LOAD_TILE                  => 0x34
  | RDPQ_CMD_SET_TILE                   => 0x35
  | RDPQ_CMD_FILL_RECTANGLE             => 0x36
  | RDPQ_CMD_SET_FILL_COLOR             => 0x37
  | RDPQ_CMD_SET_FOG_COLOR              => 0x38
  | RDPQ_CMD_SET_BLEND_COLOR            => 0x39
  | RDPQ_CMD_SET_PRIM_COLOR             => 0x3A
  | RDPQ_CMD_SET_ENV_COLOR              => 0x3B
  | RDPQ_CMD_SET_COMBINE_MODE_RAW       => 0x3C
  | RDPQ_CMD_SET_TEXTURE_IMAGE          => 0x3D
  | RDPQ_CMD_SET_Z_IMAGE                => 0x3E
  | RDPQ_CMD_SET_COLOR_IMAGE            => 0x3F
  end.

(** The fixup partner of a command: the enumerator [X_FIX] declared for the
    enumerator [X]. *)
Definition fixup_of (c : rdpq_cmd) : option rdpq_cmd :=
  match c with
  | RDPQ_CMD_POP_RENDER_MODE        => Some RDPQ_CMD_POP_RENDER_MODE_FIX
  | RDPQ_CMD_SET_COMBINE_MODE_2PASS => Some RDPQ_CMD_SET_COMBINE_MODE_2PASS_FIX
  | RDPQ_CMD_TEXTURE_RECTANGLE_EX   => Some RDPQ_CMD_TEXTURE_RECTANGLE_EX_FIX
  | RDPQ_CMD_SET_SCISSOR_EX         => Some RDPQ_CMD_SET_SCISSOR_EX_FIX
  | RDPQ_CMD_MODIFY_OTHER_MODES     => Some RDPQ_CMD_MODIFY_OTHER_MODES_FIX
  | RDPQ_CMD_SET_FILL_COLOR_32      => Some RDPQ_CMD_SET_FILL_COLOR_32_FIX
  | RDPQ_CMD_SET_BLENDING_MODE      => Some RDPQ_CMD_SET_BLENDING_MODE_FIX
  | RDPQ_CMD_SET_COMBINE_MODE_1PASS => Some RDPQ_CMD_SET_COMBINE_MODE_1PASS_FIX
  | RDPQ_CMD_SET_TEXTURE_IMAGE      => Some RDPQ_CMD_SET_TEXTURE_IMAGE_FIX
  | RDPQ_CMD_SET_Z_IMAGE            => Some RDPQ_CMD_SET_Z_IMAGE_FIX
  | RDPQ_CMD_SET_COLOR_IMAGE        => Some RDPQ_CMD_SET_COLOR_IMAGE_FIX
  | RDPQ_CMD_SET_OTHER_MODES        => Some RDPQ_CMD_SET_OTHER_MODES_FIX
  | RDPQ_CMD_SYNC_FULL              => Some RDPQ_CMD_SYNC_FULL_FIX
  | _ => None
  end.

(** ** Configuration flags and autosync resource masks *)

Definition RDPQ_CFG_AUTOSYNCPIPE : Z := Z.shiftl 1 0.
Definition RDPQ_CFG_AUTOSYNCLOAD : Z := Z.shiftl 1 1.
Definition RDPQ_CFG_AUTOSYNCTILE : Z := Z.shiftl 1 2.

(* [AUTOSYNC_TILE(n)] and [AUTOSYNC_TMEM(n)] shift a 32-bit [int]: the value
   below is that of the C expression while the shift count stays below 32,
   that is for 0 <= n <= 31 in [AUTOSYNC_TILE] and 0 <= n <= 23 in
   [AUTOSYNC_TMEM]. *)
Definition AUTOSYNC_TILE (n : Z) : Z := Z.shiftl 1 (0 + n).
Definition AUTOSYNC_TILES : Z := Z.shiftl 0xFF 0.
Definition AUTOSYNC_TMEM (n : Z) : Z := Z.shiftl 1 (8 + n).
Definition AUTOSYNC_TMEMS : Z := Z.shiftl 0xFF 8.
Definition AUTOSYNC_PIPE : Z := Z.shiftl 1 16.

(** [_carg(value, mask, shift)] *)
Definition _carg (value mask shift : Z) : Z :=
  uint32 (Z.shiftl (uint32 (Z.land value mask)) shift).

(** ** The inline wrappers and the extern functions they call

    Each inline function of [rdpq.h] packs its arguments and calls one
    function of [rdpq.c]; the call it makes is its meaning here. *)

Inductive extern_call : Type :=
| __rdpq_set_fixup_image (cmd_id_dyn cmd_id_fix arg0 arg1 : Z)
| __rdpq_fixup_write8 (cmd_id_dyn cmd_id_fix skip_size arg0 arg1 : Z)
| __rdpq_write8 (cmd arg0 arg1 : Z)
| __rdpq_write8_syncchange (cmd arg0 arg1 autosync : Z)
| __rdpq_write8_syncuse (cmd arg0 arg1 autosync : Z)
| __rdpq_write8_syncchangeuse (cmd arg0 arg1 autosync_c autosync_u : Z).

Definition rdpq_set_texture_image_lookup (index offset format width : Z)
  : result unit extern_call :=
  if index <=? 15 then
    Ok (__rdpq_set_fixup_image
          (cmd_id RDPQ_CMD_SET_TEXTURE_IMAGE) (cmd_id RDPQ_CMD_SET_TEXTURE_IMAGE_FIX)
          (Z.lor (_carg format 0x1F 19) (_carg (width - 1) 0x3FF 0))
          (Z.lor (_carg index 0xF 28) (Z.land offset 0xFFFFFF))) tt
  else AssertFail "Lookup address index out of range [0,15]: %d" tt.

Definition rdpq_set_z_image_lookup (index offset : Z) : result unit extern_call :=
  if index <=? 15 then
    Ok (__rdpq_set_fixup_image
          (cmd_id RDPQ_CMD_SET_Z_IMAGE) (cmd_id RDPQ_CMD_SET_Z_IMAGE_FIX)
          0
          (Z.lor (_carg index 0xF 28) (Z.land offset 0xFFFFFF))) tt
  else AssertFail "Lookup address index out of range [0,15]: %d" tt.

(** [RDPQ_COMBINER_2PASS] comes from [rdp_commands.h]; it is a parameter. *)
Definition rdpq_mode_combiner (RDPQ_COMBINER_2PASS comb : Z) : extern_call :=
  if negb (Z.land comb RDPQ_COMBINER_2PASS =? 0) then
    __rdpq_fixup_write8
      (cmd_id RDPQ_CMD_SET_COMBINE_MODE_2PASS) (cmd_id RDPQ_CMD_SET_COMBINE_MODE_2PASS_FIX) 4
      (Z.land (Z.shiftr comb 32) 0x00FFFFFF) (Z.land comb 0xFFFFFFFF)
  else
    __rdpq_fixup_write8
      (cmd_id RDPQ_CMD_SET_COMBINE_MODE_1PASS) (cmd_id RDPQ_CMD_SET_COMBINE_MODE_1PASS_FIX) 4
      (Z.land (Z.shiftr comb 32) 0x00FFFFFF) (Z.land comb 0xFFFFFFFF).

Definition rdpq_mode_blender_off : extern_call :=
  __rdpq_fixup_write8
    (cmd_id RDPQ_CMD_SET_BLENDING_MODE) (cmd_id RDPQ_CMD_SET_BLENDING_MODE_FIX) 4 0 0.

Definition rdpq_set_tile_size_fx (tile s0 t0 s1 t1 : Z) : extern_call :=
  __rdpq_write8_syncchange (cmd_id RDPQ_CMD_SET_TILE_SIZE)
    (Z.lor (_carg s0 0xFFF 12) (_carg t0 0xFFF 0))
    (Z.lor (Z.lor (_carg tile 0x7 24) (_carg (s1 - 4) 0xFFF 12)) (_carg (t1 - 4) 0xFFF 0))
    (AUTOSYNC_TILE tile).

Definition rdpq_load_tile_fx (tile s0 t0 s1 t1 : Z) : extern_call :=
  __rdpq_write8_syncchangeuse (cmd_id RDPQ_CMD_LOAD_TILE)
    (Z.lor (_carg s0 0xFFF 12) (_carg t0 0xFFF 0))
    (Z.lor (Z.lor (_carg tile 0x7 24) (_carg (s1 - 4) 0xFFF 12)) (_carg (t1 - 4) 0xFFF 0))
    (AUTOSYNC_TMEM 0)
    (AUTOSYNC_TILE tile).

Definition rdpq_load_tlut (tile lowidx highidx : Z) : extern_call :=
  __rdpq_write8_syncchangeuse (cmd_id RDPQ_CMD_LOAD_TLUT)
    (_carg lowidx 0xFF 14)
    (Z.lor (_carg tile 0x7 24) (_carg highidx 0xFF 14))
    (AUTOSYNC_TMEM 0)
    (AUTOSYNC_TILE tile).

Definition rdpq_fill_rectangle_fx (x0 y0 x1 y1 : Z) : extern_call :=
  __rdpq_write8_syncuse (cmd_id RDPQ_CMD_FILL_RECTANGLE)
    (Z.lor (_carg x1 0xFFF 12) (_carg y1 0xFFF 0))
    (Z.lor (_carg x0 0xFFF 12) (_carg y0 0xFFF 0))
    AUTOSYNC_PIPE.

Definition rdpq_set_combiner_raw (comb : Z) : extern_call :=
  __rdpq_write8_syncchange (cmd_id RDPQ_CMD_SET_COMBINE_MODE_RAW)
    (Z.land (Z.shiftr comb 32) 0x00FFFFFF)
    (Z.land comb 0xFFFFFFFF)
    AUTOSYNC_PIPE.

(** ** The hazard tracker

    The tracker lives in [rdpq.c], which is not among the sources; [rdpq.h]
    only declares its entry points and fixes the masks, the flags and the
    ids of the three barrier commands. *)

Inductive resource : Type := tile_descriptor | tmem_bank | pipeline.

Definition resource_mask (k : resource) : Z :=
  match k with
  | tile_descriptor => AUTOSYNC_TILES
  | tmem_bank => AUTOSYNC_TMEMS
  | pipeline => AUTOSYNC_PIPE
  end.

Definition resource_cfg (k : resource) : Z :=
  match k with
  | tile_descriptor => RDPQ_CFG_AUTOSYNCTILE
  | tmem_bank => RDPQ_CFG_AUTOSYNCLOAD
  | pipeline => RDPQ_CFG_AUTOSYNCPIPE
  end.

Definition resource_sync (k : resource) : rdpq_cmd :=
  match k with
  | tile_descriptor => RDPQ_CMD_SYNC_TILE
  | tmem_bank => RDPQ_CMD_SYNC_LOAD
  | pipeline => RDPQ_CMD_SYNC_PIPE
  end.

(** The class of a resource bit: bits 0-7 tile descriptors, bits 8-15 texture
    memory banks, bit 16 the pipeline. *)
Definition resource_of_bit (b : Z) : option resource :=
  if (0 <=? b) && (b <? 8) then Some tile_descriptor
  else if (8 <=? b) && (b <? 16) then Some tmem_bank
  else if b =? 16 then Some pipeline
  else None.

(** A command in the emitted stream, with the resource masks its caller
    declared: [changes] are the bits it needs a barrier on, [uses] the bits it
    marks.  Barrier commands declare neither. *)
Record command : Type := {
  cmd : Z;
  arg0 : Z;
  arg1 : Z;
  changes : Z;
  uses : Z;
}.

(** Modelled from the spec: the state of the missing [rdpq.c] that the
    tracker works on, namely the autosync configuration flags, the bitmask of
    in-flight resource usage, and the commands enqueued so far, oldest
    first. *)
Record state : Type := {
  rdpq_config : Z;
  rdpq_autosync_state : Z;
  stream : list command;
}.

(** Modelled from the spec: each of the three barrier kinds can be disabled
    globally; a kind is on when its [RDPQ_CFG_AUTOSYNC] flag is set. *)
Definition enabled (cfg : Z) (k : resource) : bool :=
  negb (Z.land cfg (resource_cfg k) =? 0).

(** Modelled from the spec: the barrier command of a class, the sync command
    whose id [rdpq.h] gives. *)
Definition sync_command (k : resource) : command :=
  {| cmd := cmd_id (resource_sync k); arg0 := 0; arg1 := 0; changes := 0; uses := 0 |}.

(** Modelled from the spec: enqueueing appends to the stream that the
    consumer reads in order. *)
Definition rdpq_write (c : command) (s : state) : state :=
  {| rdpq_config := rdpq_config s;
     rdpq_autosync_state := rdpq_autosync_state s;
     stream := stream s ++ [c] |}.

(** Modelled from the spec: the barrier step of the missing
    [__rdpq_autosync_change], for one resource class.  If a barrier-requiring
    use finds a relevant bit pending, the barrier command of that class is
    enqueued before the real command and the class is cleared (the mask is
    cleared once a barrier for that class has been enqueued); a class whose
    autosync flag is off skips the check. *)
Definition autosync_barrier (k : resource) (res : Z) (s : state) : state :=
  if enabled (rdpq_config s) k
     && negb (Z.land (Z.land res (rdpq_autosync_state s)) (resource_mask k) =? 0)
  then {| rdpq_config := rdpq_config s;
          rdpq_autosync_state :=
            Z.land (rdpq_autosync_state s) (Z.lnot (resource_mask k));
          stream := stream s ++ [sync_command k] |}
  else s.

(** Modelled from the spec: the missing [__rdpq_autosync_change], the check
    made for a barrier-requiring use, over the three classes. *)
Definition __rdpq_autosync_change (res : Z) (s : state) : state :=
  autosync_barrier pipeline res
    (autosync_barrier tmem_bank res
       (autosync_barrier tile_descriptor res s)).

(** Modelled from the spec: the marking step of the missing
    [__rdpq_autosync_use], for one resource class.  A marking use sets the
    relevant bits; a class whose autosync flag is off skips the bit update. *)
Definition autosync_mark (k : resource) (res : Z) (s : state) : state :=
  if enabled (rdpq_config s) k
  then {| rdpq_config := rdpq_config s;
          rdpq_autosync_state :=
            Z.lor (rdpq_autosync_state s) (Z.land res (resource_mask k));
          stream := stream s |}
  else s.

(** Modelled from the spec: the missing [__rdpq_autosync_use]. *)
Definition __rdpq_autosync_use (res : Z) (s : state) : state :=
  autosync_mark pipeline res
    (autosync_mark tmem_bank res
       (autosync_mark tile_descriptor res s)).

(** Modelled from the spec: how the missing [rdpq.c] runs a call made by an
    inline wrapper.  The hazard check comes before the real command, the
    marking with it; calls that carry no resource mask only enqueue. *)
Definition run_call (c : extern_call) (s : state) : state :=
  match c with
  | __rdpq_write8 id a0 a1 =>
      rdpq_write {| cmd := id; arg0 := a0; arg1 := a1; changes := 0; uses := 0 |} s
  | __rdpq_write8_syncchange id a0 a1 autosync =>
      rdpq_write {| cmd := id; arg0 := a0; arg1 := a1; changes := autosync; uses := 0 |}
        (__rdpq_autosync_change autosync s)
  | __rdpq_write8_syncuse id a0 a1 autosync =>
      rdpq_write {| cmd := id; arg0 := a0; arg1 := a1; changes := 0; uses := autosync |}
        (__rdpq_autosync_use autosync s)
  | __rdpq_write8_syncchangeuse id a0 a1 autosync_c autosync_u =>
      rdpq_write {| cmd := id; arg0 := a0; arg1 := a1;
                    changes := autosync_c; uses := autosync_u |}
        (__rdpq_autosync_use autosync_u (__rdpq_autosync_change autosync_c s))
  | __rdpq_set_fixup_image id _ a0 a1 =>
      rdpq_write {| cmd := id; arg0 := a0; arg1 := a1; changes := 0; uses := 0 |} s
  | __rdpq_fixup_write8 id _ _ a0 a1 =>
      rdpq_write {| cmd := id; arg0 := a0; arg1 := a1; changes := 0; uses := 0 |} s
  end.

Definition run (calls : list extern_call) (s : state) : state :=
  fold_left (fun st c => run_call c st) calls s.

(** Modelled from the spec: the tracker after initialisation, no resource
    pending and nothing emitted, under the autosync configuration [cfg]. *)
Definition init (cfg : Z) : state :=
  {| rdpq_config := cfg; rdpq_autosync_state := 0; stream := [] |}.

(** Reading the stream. *)
Definition marks (b : Z) (c : command) : bool := Z.testbit (uses c) b.
Definition requires (b : Z) (c : command) : bool := Z.testbit (changes c) b.
Definition is_sync (k : resource) (c : command) : bool :=
  cmd c =? cmd_id (resource_sync k).

Definition same_resource (k k' : resource) : bool :=
  match k, k' with
  | tile_descriptor, tile_descriptor => true
  | tmem_bank, tmem_bank => true
  | pipeline, pipeline => true
  | _, _ => false
  end.

(** Whether bit [b] is marked and not yet followed by a barrier of its
    class [k], after the commands of a stream in order. *)
Definition pending_step (k : resource) (b : Z) (p : bool) (c : command) : bool :=
  if marks b c then true else if is_sync k c then false else p.

Definition pending (k : resource) (b : Z) (l : list command) : bool :=
  fold_left (pending_step k b) l false.

(** Between a command that marks bit [b] and any later command that needs a
    barrier on [b], the stream holds a barrier of the class [k] of [b]. *)
Definition barrier_between (k : resource) (b : Z) (l : list command) : Prop :=
  forall pre x mid y post,
    l = pre ++ x :: mid ++ y :: post ->
    marks b x = true -> requires b y = true ->
    Exists (fun c => is_sync k c = true) mid.

(** Every barrier of class [k] in the stream comes after a command that
    marks a bit of class [k], with no barrier of class [k] in between. *)
Definition barrier_justified (k : resource) (l : list command) : Prop :=
  forall pre y post,
    l = pre ++ y :: post ->
    is_sync k y = true ->
    exists b pre1 x mid,
      resource_of_bit b = Some k
      /\ pre = pre1 ++ x :: mid
      /\ marks b x = true
      /\ Forall (fun c => is_sync k c = false) mid.

(** One of the three barrier commands. *)
Definition is_barrier (c : command) : bool :=
  is_sync tile_descriptor c || is_sync tmem_bank c || is_sync pipeline c.

(** Every barrier of class [k] in the stream stands there for a bit: the
    first command behind it that is no barrier needs a barrier on some bit
    [b] of class [k], and [b] was marked by an earlier command with no
    barrier of class [k] since. *)
Definition barrier_has_cause (k : resource) (l : list command) : Prop :=
  forall pre y post,
    l = pre ++ y :: post ->
    is_sync k y = true ->
    exists b pre1 x mid syncs z post',
      resource_of_bit b = Some k
      /\ pre = pre1 ++ x :: mid
      /\ marks b x = true
      /\ Forall (fun c => is_sync k c = false) mid
      /\ post = syncs ++ z :: post'
      /\ Forall (fun c => is_barrier c = true) syncs
      /\ is_barrier z = false
      /\ requires b z = true.

(** The same for one bit [b] of class [k]: a barrier of class [k] stands in
    front of a command that needs a barrier on no bit of class [k] but [b]
    only when [b] was marked by an earlier command with no barrier of class
    [k] since. *)
Definition barrier_only_after_mark (k : resource) (b : Z) (l : list command) : Prop :=
  forall pre y syncs z post,
    l = pre ++ y :: syncs ++ z :: post ->
    is_sync k y = true ->
    Forall (fun c => is_barrier c = true) syncs ->
    is_barrier z = false ->
    (forall b', resource_of_bit b' = Some k -> requires b' z = true -> b' = b) ->
    exists pre1 x mid,
      pre = pre1 ++ x :: mid
      /\ marks b x = true
      /\ Forall (fun c => is_sync k c = false) mid.

(** The command a call enqueues, with the masks the call declares. *)
Definition command_of (c : extern_call) : command :=
  match c with
  | __rdpq_write8 id a0 a1 =>
      {| cmd := id; arg0 := a0; arg1 := a1; changes := 0; uses := 0 |}
  | __rdpq_write8_syncchange id a0 a1 autosync =>
      {| cmd := id; arg0 := a0; arg1 := a1; changes := autosync; uses := 0 |}
  | __rdpq_write8_syncuse id a0 a1 autosync =>
      {| cmd := id; arg0 := a0; arg1 := a1; changes := 0; uses := autosync |}
  | __rdpq_write8_syncchangeuse id a0 a1 autosync_c autosync_u =>
      {| cmd := id; arg0 := a0; arg1 := a1;
         changes := autosync_c; uses := autosync_u |}
  | __rdpq_set_fixup_image id _ a0 a1 =>
      {| cmd := id; arg0 := a0; arg1 := a1; changes := 0; uses := 0 |}
  | __rdpq_fixup_write8 id _ _ a0 a1 =>
      {| cmd := id; arg0 := a0; arg1 := a1; changes := 0; uses := 0 |}
  end.

(** The tracker agrees with the stream on bit [b] of class [k], one way:
    what is pending in the stream is set in the mask, and the stream so far
    has its barriers. *)
Definition sound_pending (cfg : Z) (k : resource) (b : Z) (s : state) : Prop :=
  rdpq_config s = cfg
  /\ (pending k b (stream s) = true -> Z.testbit (rdpq_autosync_state s) b = true)
  /\ barrier_between k b (stream s).

(** The other way: every bit of class [k] set in the mask is pending in the
    stream, and every barrier of class [k] so far is justified. *)
Definition complete_pending (k : resource) (s : state) : Prop :=
  (forall b, resource_of_bit b = Some k ->
             Z.testbit (rdpq_autosync_state s) b = true ->
             pending k b (stream s) = true)
  /\ barrier_justified k (stream s).

(** The command id an inline wrapper hands to [rdpq.c]. *)
Definition call_cmd (c : extern_call) : Z :=
  match c with
  | __rdpq_set_fixup_image id _ _ _ => id
  | __rdpq_fixup_write8 id _ _ _ _ => id
  | __rdpq_write8 id _ _ => id
  | __rdpq_write8_syncchange id _ _ _ => id
  | __rdpq_write8_syncuse id _ _ _ => id
  | __rdpq_write8_syncchangeuse id _ _ _ _ => id
  end.

(** A call that is not itself one of the three barrier commands. *)
Definition not_a_barrier (c : extern_call) : bool :=
  negb (call_cmd c =? cmd_id RDPQ_CMD_SYNC_TILE)
  && negb (call_cmd c =? cmd_id RDPQ_CMD_SYNC_LOAD)
  && negb (call_cmd c =? cmd_id RDPQ_CMD_SYNC_PIPE).

(** The test of [autosync_barrier]: whether the barrier step of class [k]
    enqueues its barrier. *)
Definition fired (k : resource) (res : Z) (s : state) : bool :=
  enabled (rdpq_config s) k
  && negb (Z.land (Z.land res (rdpq_autosync_state s)) (resource_mask k) =? 0).

(** What one barrier step adds to the stream. *)
Definition inserted (k : resource) (f : bool) : list command :=
  if f then [sync_command k] else [].

End Rdpq.

(** * The GL front end ([src/GL/gl.c]): matrix stacks and capability flags *)

Module Gl.

(** The enumerants of [GL/gl.h] that the modelled functions name, and the
    scalar type of a matrix entry.  The header is not among the sources, so
    they are parameters. *)
Class headers : Type := {
  GLfloat : Type;
  GL_SCISSOR_TEST : Z;
  GL_CULL_FACE : Z;
  GL_DEPTH_TEST : Z;
  GL_TEXTURE_2D : Z;
  GL_BLEND : Z;
  GL_COLOR_LOGIC_OP : Z;
  GL_INDEX_LOGIC_OP : Z;
  GL_LINE_STIPPLE : Z;
  GL_POLYGON_STIPPLE : Z;
  GL_INVALID_ENUM : Z;
  GL_STACK_OVERFLOW : Z;
  GL_STACK_UNDERFLOW : Z;
  GL_MODELVIEW : Z;
  GL_PROJECTION : Z;
}.

Definition MODELVIEW_STACK_SIZE : Z := 32.
Definition PROJECTION_STACK_SIZE : Z := 2.

Section WithHeaders.
Context `{H : headers}.

Record gl_matrix_t : Type := { m : list (list GLfloat) }.

(** [storage] points to the array that backs the stack; the array is kept
    with the stack it belongs to. *)
Record gl_matrix_stack_t : Type := {
  storage : list gl_matrix_t;
  size : Z;
  cur_depth : Z;
}.

(** The two values [current_matrix_stack] takes once [glMatrixMode] has run:
    [&state.modelview_stack] and [&state.projection_stack]. *)
Inductive stack_ptr : Type := modelview_stack_ptr | projection_stack_ptr.

(** The fields of the file-scope [state] that the modelled functions touch.
    [current_matrix] points into a stack's storage: the stack and the index. *)
Record state : Type := {
  current_error : Z;
  scissor_test : bool;
  cull_face : bool;
  depth_test : bool;
  texture_2d : bool;
  blend : bool;
  is_scissor_dirty : bool;
  matrix_mode : Z;
  current_matrix : stack_ptr * Z;
  modelview_stack : gl_matrix_stack_t;
  projection_stack : gl_matrix_stack_t;
  current_matrix_stack : stack_ptr;
}.

Definition set_current_error (v : Z) (s : state) : state :=
  {| current_error := v; scissor_test := scissor_test s; cull_face := cull_face s;
     depth_test := depth_test s; texture_2d := texture_2d s; blend := blend s;
     is_scissor_dirty := is_scissor_dirty s; matrix_mode := matrix_mode s;
     current_matrix := current_matrix s; modelview_stack := modelview_stack s;
     projection_stack := projection_stack s;
     current_matrix_stack := current_matrix_stack s |}.
Definition set_scissor_test (v : bool) (s : state) : state :=
  {| current_error := current_error s; scissor_test := v; cull_face := cull_face s;
     depth_test := depth_test s; texture_2d := texture_2d s; blend := blend s;
     is_scissor_dirty := is_scissor_dirty s; matrix_mode := matrix_mode s;
     current_matrix := current_matrix s; modelview_stack := modelview_stack s;
     projection_stack := projection_stack s;
     current_matrix_stack := current_matrix_stack s |}.
Definition set_cull_face (v : bool) (s : state) : state :=
  {| current_error := current_error s; scissor_test := scissor_test s; cull_face := v;
     depth_test := depth_test s; texture_2d := texture_2d s; blend := blend s;
     is_scissor_dirty := is_scissor_dirty s; matrix_mode := matrix_mode s;
     current_matrix := current_matrix s; modelview_stack := modelview_stack s;
     projection_stack := projection_stack s;
     current_matrix_stack := current_matrix_stack s |}.
Definition set_depth_test (v : bool) (s : state) : state :=
  {| current_error := current_error s; scissor_test := scissor_test s;
     cull_face := cull_face s; depth_test := v; texture_2d := texture_2d s;
     blend := blend s; is_scissor_dirty := is_scissor_dirty s;
     matrix_mode := matrix_mode s; current_matrix := current_matrix s;
     modelview_stack := modelview_stack s; projection_stack := projection_stack s;
     current_matrix_stack := current_matrix_stack s |}.
Definition set_texture_2d (v : bool) (s : state) : state :=
  {| current_error := current_error s; scissor_test := scissor_test s;
     cull_face := cull_face s; depth_test := depth_test s; texture_2d := v;
     blend := blend s; is_scissor_dirty := is_scissor_dirty s;
     matrix_mode := matrix_mode s; current_matrix := current_matrix s;
     modelview_stack := modelview_stack s; projection_stack := projection_stack s;
     current_matrix_stack := current_matrix_stack s |}.
Definition set_blend (v : bool) (s : state) : state :=
  {| current_error := current_error s; scissor_test := scissor_test s;
     cull_face := cull_face s; depth_test := depth_test s;
     texture_2d := texture_2d s; blend := v;
     is_scissor_dirty := is_scissor_dirty s; matrix_mode := matrix_mode s;
     current_matrix := current_matrix s; modelview_stack := modelview_stack s;
     projection_stack := projection_stack s;
     current_matrix_stack := current_matrix_stack s |}.
Definition set_is_scissor_dirty (v : bool) (s : state) : state :=
  {| current_error := current_error s; scissor_test := scissor_test s;
     cull_face := cull_face s; depth_test := depth_test s;
     texture_2d := texture_2d s; blend := blend s; is_scissor_dirty := v;
     matrix_mode := matrix_mode s; current_matrix := current_matrix s;
     modelview_stack := modelview_stack s; projection_stack := projection_stack s;
     current_matrix_stack := current_matrix_stack s |}.
Definition set_matrix_mode (v : Z) (s : state) : state :=
  {| current_error := current_error s; scissor_test := scissor_test s;
     cull_face := cull_face s; depth_test := depth_test s;
     texture_2d := texture_2d s; blend := blend s;
     is_scissor_dirty := is_scissor_dirty s; matrix_mode := v;
     current_matrix := current_matrix s; modelview_stack := modelview_stack s;
     projection_stack := projection_stack s;
     current_matrix_stack := current_matrix_stack s |}.
Definition set_current_matrix (v : stack_ptr * Z) (s : state) : state :=
  {| current_error := current_error s; scissor_test := scissor_test s;
     cull_face := cull_face s; depth_test := depth_test s;
     texture_2d := texture_2d s; blend := blend s;
     is_scissor_dirty := is_scissor_dirty s; matrix_mode := matrix_mode s;
     current_matrix := v; modelview_stack := modelview_stack s;
     projection_stack := projection_stack s;
     current_matrix_stack := current_matrix_stack s |}.
Definition set_current_matrix_stack (v : stack_ptr) (s : state) : state :=
  {| current_error := current_error s; scissor_test := scissor_test s;
     cull_face := cull_face s; depth_test := depth_test s;
     texture_2d := texture_2d s; blend := blend s;
     is_scissor_dirty := is_scissor_dirty s; matrix_mode := matrix_mode s;
     current_matrix := current_matrix s; modelview_stack := modelview_stack s;
     projection_stack := projection_stack s; current_matrix_stack := v |}.

(** [*stack], for a [gl_matrix_stack_t *stack]. *)
Definition deref (p : stack_ptr) (s : state) : gl_matrix_stack_t :=
  match p with
  | modelview_stack_ptr => modelview_stack s
  | projection_stack_ptr => projection_stack s
  end.

(** [*stack = v] *)
Definition assign (p : stack_ptr) (v : gl_matrix_stack_t) (s : state) : state :=
  match p with
  | modelview_stack_ptr =>
      {| current_error := current_error s; scissor_test := scissor_test s;
         cull_face := cull_face s; depth_test := depth_test s;
         texture_2d := texture_2d s; blend := blend s;
         is_scissor_dirty := is_scissor_dirty s; matrix_mode := matrix_mode s;
         current_matrix := current_matrix s; modelview_stack := v;
         projection_stack := projection_stack s;
         current_matrix_stack := current_matrix_stack s |}
  | projection_stack_ptr =>
      {| current_error := current_error s; scissor_test := scissor_test s;
         cull_face := cull_face s; depth_test := depth_test s;
         texture_2d := texture_2d s; blend := blend s;
         is_scissor_dirty := is_scissor_dirty s; matrix_mode := matrix_mode s;
         current_matrix := current_matrix s; modelview_stack := modelview_stack s;
         projection_stack := v;
         current_matrix_stack := current_matrix_stack s |}
  end.

Local Open Scope cmd_scope.

Definition gl_matrix_stack_get_matrix (stack : stack_ptr) : M state (stack_ptr * Z) :=
  do st <- gets (deref stack);
  ret (stack, cur_depth st).

Definition gl_update_current_matrix : M state unit :=
  do stack <- gets current_matrix_stack;
  do p <- gl_matrix_stack_get_matrix stack;
  modify (set_current_matrix p).

(** [assert(error)] fails when [error] is zero. *)
Definition gl_set_error (error : Z) : M state unit :=
  do_ modify (set_current_error error);
  assertf (negb (error =? 0)) "error".

(** The [switch] of [gl_set_flag]: the case labels are compared in turn, a
    case without [break] runs on into the next one. *)
Definition gl_set_flag (target : Z) (value : bool) : M state unit :=
  if target =? GL_SCISSOR_TEST then
    do old <- gets scissor_test;
    do_ modify (set_is_scissor_dirty (negb (eqb value old)));
    modify (set_scissor_test value)
  else if target =? GL_CULL_FACE then
    modify (set_cull_face value)
  else if target =? GL_DEPTH_TEST then
    modify (set_depth_test value)
  else if target =? GL_TEXTURE_2D then
    modify (set_texture_2d value)
  else if target =? GL_BLEND then
    do_ modify (set_blend value);
    assertf (negb value) "Logical pixel operation is not supported!"
  else if (target =? GL_COLOR_LOGIC_OP) || (target =? GL_INDEX_LOGIC_OP) then
    assertf (negb value) "Logical pixel operation is not supported!"
  else if (target =? GL_LINE_STIPPLE) || (target =? GL_POLYGON_STIPPLE) then
    do_ assertf (negb value) "Stipple is not supported!";
    gl_set_error GL_INVALID_ENUM
  else
    gl_set_error GL_INVALID_ENUM.

Definition glEnable (target : Z) : M state unit := gl_set_flag target true.
Definition glDisable (target : Z) : M state unit := gl_set_flag target false.

Definition glMatrixMode (mode : Z) : M state unit :=
  if mode =? GL_MODELVIEW then
    do_ modify (set_current_matrix_stack modelview_stack_ptr);
    do_ modify (set_matrix_mode mode);
    gl_update_current_matrix
  else if mode =? GL_PROJECTION then
    do_ modify (set_current_matrix_stack projection_stack_ptr);
    do_ modify (set_matrix_mode mode);
    gl_update_current_matrix
  else
    gl_set_error GL_INVALID_ENUM.

(** [memcpy(&stack->storage[dst], &stack->storage[src], sizeof(gl_matrix_t))] *)
Definition copy_matrix (stack : stack_ptr) (dst src : Z) : M state unit :=
  fun s =>
    let st := deref stack s in
    match load (storage st) src with
    | Some mat =>
        match store (storage st) dst mat with
        | Some l =>
            Ok tt (assign stack {| storage := l; size := size st;
                                   cur_depth := cur_depth st |} s)
        | None => Undefined
        end
    | None => Undefined
    end.

Definition set_cur_depth (stack : stack_ptr) (d : Z) : M state unit :=
  modify (fun s =>
            let st := deref stack s in
            assign stack {| storage := storage st; size := size st;
                            cur_depth := d |} s).

Definition glPushMatrix : M state unit :=
  do stack <- gets current_matrix_stack;
  do st <- gets (deref stack);
  let new_depth := int32 (cur_depth st + 1) in
  if size st <=? new_depth then
    gl_set_error GL_STACK_OVERFLOW
  else
    do_ set_cur_depth stack new_depth;
    do_ copy_matrix stack new_depth (new_depth - 1);
    gl_update_current_matrix.

Definition glPopMatrix : M state unit :=
  do stack <- gets current_matrix_stack;
  do st <- gets (deref stack);
  let new_depth := int32 (cur_depth st - 1) in
  if new_depth <? 0 then
    gl_set_error GL_STACK_UNDERFLOW
  else
    do_ set_cur_depth stack new_depth;
    gl_update_current_matrix.

(** The case labels of the [switch] in [gl_set_flag], in source order.  C
    rejects a [switch] with two equal labels. *)
Definition gl_set_flag_labels : list Z :=
  [ GL_SCISSOR_TEST; GL_CULL_FACE; GL_DEPTH_TEST; GL_TEXTURE_2D; GL_BLEND;
    GL_COLOR_LOGIC_OP; GL_INDEX_LOGIC_OP; GL_LINE_STIPPLE; GL_POLYGON_STIPPLE ].

(** The matrix the GL calls operate on: the entry of the current stack at
    its current depth. *)
Definition current_configuration (s : state) : option gl_matrix_t :=
  let st := deref (current_matrix_stack s) s in
  load (storage st) (cur_depth st).

End WithHeaders.
End Gl.

(** * More of [src/dl/dl.c]: the overlay table and the queueing functions *)

Module DlMore.
Import Dl.

Section WithHeaders.
Context `{H : headers}.

Local Open Scope cmd_scope.

Definition DL_OVERLAY_DEFAULT : Z := 0x0.
Definition DL_CMD_WSTATUS : Z := 0x2.

(** [dl_data.overlay_table[i] = v] *)
Definition set_overlay_table (i v : Z) : M state unit :=
  fun s => match store (overlay_table (dl_data s)) i v with
           | Some l =>
               Ok tt (set_dl_data
                        {| overlay_table := l;
                           overlay_descriptors := overlay_descriptors (dl_data s);
                           dl_dram_addr := dl_dram_addr (dl_data s);
                           dl_dram_highpri_addr := dl_dram_highpri_addr (dl_data s);
                           current_ovl := current_ovl (dl_data s) |} s)
           | None => Undefined
           end.

(** [sizeof(dl_overlay_t)] depends on the width of a pointer on the target;
    it is a parameter. *)
Definition dl_overlay_register_id (sizeof_dl_overlay_t : Z) (overlay_index id : Z)
  : M state unit :=
  do n <- gets dl_overlay_count;
  do_ assertf (0 <? n) "dl_overlay_register must be called after dl_init!";
  do_ assertf (overlay_index <? DL_MAX_OVERLAY_COUNT)
        "Tried to register invalid overlay index: %d";
  do_ assertf (id <? DL_OVERLAY_TABLE_SIZE) "Tried to register id: %d";
  set_overlay_table id (uint8 (overlay_index * sizeof_dl_overlay_t)).

(** [DL_MAKE_COMMAND] comes from the missing [dl_internal.h] and
    [SP_WSTATUS_SET_INTR] from the missing [rsp.h]; they are parameters. *)
Definition dl_interrupt (DL_MAKE_COMMAND : Z -> Z -> Z) (SP_WSTATUS_SET_INTR : Z)
  : M state unit :=
  dl_queue_u32
    (Z.lor (Z.shiftl (DL_MAKE_COMMAND DL_OVERLAY_DEFAULT DL_CMD_WSTATUS) 24)
           SP_WSTATUS_SET_INTR).

Definition dl_signal (DL_MAKE_COMMAND : Z -> Z -> Z) (signal : Z) : M state unit :=
  dl_queue_u32
    (Z.lor (Z.shiftl (DL_MAKE_COMMAND DL_OVERLAY_DEFAULT DL_CMD_WSTATUS) 24) signal).

(** ** Sequences of calls *)

(** [*p++ = w] for each word of [ws] in turn. *)
Fixpoint write_words (p : Z) (ws : list Z) : M state unit :=
  match ws with
  | [] => ret tt
  | w :: ws' => do_ write_word p w; write_words (p + 1) ws'
  end.

(** A call of one of the four queueing functions. *)
Inductive queue_call : Type :=
| call_u8 (cmd : Z)
| call_u16 (cmd : Z)
| call_u32 (cmd : Z)
| call_u64 (cmd : Z).

Definition run_queue_call (c : queue_call) : M state unit :=
  match c with
  | call_u8 cmd => dl_queue_u8 cmd
  | call_u16 cmd => dl_queue_u16 cmd
  | call_u32 cmd => dl_queue_u32 cmd
  | call_u64 cmd => dl_queue_u64 cmd
  end.

Fixpoint run_queue_calls (cs : list queue_call) : M state unit :=
  match cs with
  | [] => ret tt
  | c :: cs' => do_ run_queue_call c; run_queue_calls cs'
  end.

(** The words a call stores, in the order of their addresses. *)
Definition words_of (c : queue_call) : list Z :=
  match c with
  | call_u8 cmd => [uint32 (Z.shiftl (uint8 cmd) 24)]
  | call_u16 cmd => [uint32 (Z.shiftl (uint16 cmd) 16)]
  | call_u32 cmd => [uint32 cmd]
  | call_u64 cmd => [uint32 (Z.shiftr cmd 32); Z.land cmd 0xFFFFFFFF]
  end.

Definition stream_of (cs : list queue_call) : list Z := concat (map words_of cs).

(** [dl_overlay_add] on each overlay of a list; the indices returned. *)
Fixpoint dl_overlay_add_all (us : list rsp_ucode_t) : M state (list Z) :=
  match us with
  | [] => ret []
  | u :: us' =>
      do i <- dl_overlay_add (Some u);
      do rest <- dl_overlay_add_all us';
      ret (i :: rest)
  end.

(** The hardware trace consists of [n] doorbell writes. *)
Definition rings (n : nat) : list hw_event := replicate n (SP_STATUS_write doorbell).

End WithHeaders.
End DlMore.

(** * More of [include/rdpq.h]: the packing wrappers *)

Module RdpqMore.
Import Rdpq.

(** Bits [lo .. lo + width - 1] of a command word. *)
Definition bits (w lo width : Z) : Z := Z.land (Z.shiftr w lo) (Z.ones width).

(** Two's complement reading of a [width]-bit field. *)
Definition sign_extend (width v : Z) : Z :=
  if v <? 2 ^ (width - 1) then v else v - 2 ^ width.

(** The functions of [rdpq.c] that the wrappers below call, beside those of
    [extern_call]. *)
Inductive extern_call_more : Type :=
| __rdpq_texture_rectangle (w0 w1 w2 w3 : Z)
| __rdpq_write16_syncuse (cmd arg0 arg1 arg2 arg3 autosync : Z)
| __rdpq_set_scissor (arg0 arg1 : Z)
| __rdpq_set_fill_color (color : Z)
| __rdpq_set_other_modes (arg0 arg1 : Z)
| __rdpq_modify_other_modes (offset inverse_mask value : Z)
| __rdpq_dynamic_write8 (cmd arg0 arg1 : Z).

(** [color_t] of the missing [graphics.h]: four 8-bit channels. *)
Record color_t : Type := { r : Z; g : Z; b : Z; a : Z }.

Definition rdpq_texture_rectangle_fx (tile x0 y0 x1 y1 s t dsdx dtdy : Z)
  : extern_call_more :=
  __rdpq_texture_rectangle
    (Z.lor (_carg x1 0xFFF 12) (_carg y1 0xFFF 0))
    (Z.lor (Z.lor (_carg tile 0x7 24) (_carg x0 0xFFF 12)) (_carg y0 0xFFF 0))
    (Z.lor (_carg s 0xFFFF 16) (_carg t 0xFFFF 0))
    (Z.lor (_carg dsdx 0xFFFF 16) (_carg dtdy 0xFFFF 0)).

Definition rdpq_texture_rectangle_flip_fx (tile x0 y0 x1 y1 s t dsdx dtdy : Z)
  : extern_call_more :=
  __rdpq_write16_syncuse (cmd_id RDPQ_CMD_TEXTURE_RECTANGLE_FLIP)
    (Z.lor (_carg x1 0xFFF 12) (_carg y1 0xFFF 0))
    (Z.lor (Z.lor (_carg tile 0x7 24) (_carg x0 0xFFF 12)) (_carg y0 0xFFF 0))
    (Z.lor (_carg s 0xFFFF 16) (_carg t 0xFFFF 0))
    (Z.lor (_carg dsdx 0xFFFF 16) (_carg dtdy 0xFFFF 0))
    (Z.lor (Z.lor AUTOSYNC_PIPE (AUTOSYNC_TILE tile)) (AUTOSYNC_TMEM 0)).

Definition rdpq_set_yuv_parms (k0 k1 k2 k3 k4 k5 : Z) : extern_call :=
  __rdpq_write8_syncchange (cmd_id RDPQ_CMD_SET_CONVERT)
    (Z.lor (Z.lor (_carg k0 0x1FF 13) (_carg k1 0x1FF 4))
           (Z.shiftr (uint32 (Z.land k2 0x1FF)) 5))
    (Z.lor (Z.lor (Z.lor (_carg k2 0x1F 27) (_carg k3 0x1FF 18)) (_carg k4 0x1FF 9))
           (_carg k5 0x1FF 0))
    AUTOSYNC_PIPE.

(** The macro [rdpq_set_scissor], on integer coordinates. *)
Definition rdpq_set_scissor (x0 y0 x1 y1 : Z) : result unit extern_call_more :=
  let x0fx := uint32 (x0 * 4) in
  let y0fx := uint32 (y0 * 4) in
  let x1fx := uint32 (x1 * 4) in
  let y1fx := uint32 (y1 * 4) in
  if negb (x0fx <=? x1fx) then AssertFail "x0 must not be greater than x1!" tt
  else if negb (y0fx <=? y1fx) then AssertFail "y0 must not be greater than y1!" tt
  else if negb (0 <? x1fx) then AssertFail "x1 must not be zero!" tt
  else if negb (0 <? y1fx) then AssertFail "y1 must not be zero!" tt
  else
    Ok (__rdpq_set_scissor
          (Z.lor (_carg x0fx 0xFFF 12) (_carg y0fx 0xFFF 0))
          (Z.lor (_carg x1fx 0xFFF 12) (_carg y1fx 0xFFF 0))) tt.

Definition rdpq_set_tile_full
  (tile format tmem_addr tmem_pitch palette ct mt mask_t shift_t cs ms mask_s shift_s : Z)
  : result unit extern_call :=
  if negb (tmem_addr mod 8 =? 0)
  then AssertFail "invalid tmem_addr %d: must be multiple of 8" tt
  else if negb (tmem_pitch mod 8 =? 0)
  then AssertFail "invalid tmem_pitch %d: must be multiple of 8" tt
  else
    Ok (__rdpq_write8_syncchange (cmd_id RDPQ_CMD_SET_TILE)
          (Z.lor (Z.lor (_carg format 0x1F 19) (_carg (tmem_pitch / 8) 0x1FF 9))
                 (_carg (tmem_addr / 8) 0x1FF 0))
          (Z.lor (Z.lor (Z.lor (Z.lor (Z.lor (Z.lor (Z.lor (Z.lor (Z.lor
             (_carg tile 0x7 24) (_carg palette 0xF 20))
             (_carg ct 0x1 19)) (_carg mt 0x1 18)) (_carg mask_t 0xF 14))
             (_carg shift_t 0xF 10))
             (_carg cs 0x1 9)) (_carg ms 0x1 8)) (_carg mask_s 0xF 4))
             (_carg shift_s 0xF 0))
          (AUTOSYNC_TILE tile)) tt.

Definition rdpq_set_tile (tile format tmem_addr tmem_pitch palette : Z)
  : result unit extern_call :=
  if negb (tmem_addr mod 8 =? 0)
  then AssertFail "invalid tmem_addr %d: must be multiple of 8" tt
  else if negb (tmem_pitch mod 8 =? 0)
  then AssertFail "invalid tmem_pitch %d: must be multiple of 8" tt
  else
    Ok (__rdpq_write8_syncchange (cmd_id RDPQ_CMD_SET_TILE)
          (Z.lor (Z.lor (_carg format 0x1F 19) (_carg (tmem_pitch / 8) 0x1FF 9))
                 (_carg (tmem_addr / 8) 0x1FF 0))
          (Z.lor (_carg tile 0x7 24) (_carg palette 0xF 20))
          (AUTOSYNC_TILE tile)) tt.

Definition rdpq_load_block_fx (tile s0 t0 s1 dxt : Z) : extern_call :=
  __rdpq_write8_syncchangeuse (cmd_id RDPQ_CMD_LOAD_BLOCK)
    (Z.lor (_carg s0 0xFFC 12) (_carg t0 0xFFC 0))
    (Z.lor (Z.lor (_carg tile 0x7 24) (_carg (s1 - 4) 0xFFC 12)) (_carg dxt 0xFFF 0))
    (AUTOSYNC_TMEM 0)
    (AUTOSYNC_TILE tile).

Definition rdpq_set_fill_color (color : color_t) : extern_call_more :=
  __rdpq_set_fill_color
    (uint32 (Z.lor (Z.lor (Z.lor (Z.shiftl (r color) 24) (Z.shiftl (g color) 16))
                          (Z.shiftl (b color) 8))
                   (Z.shiftl (a color) 0))).

Definition rdpq_set_fill_color_stripes (color1 color2 : color_t) : extern_call :=
  let c1 := uint32 (Z.lor (Z.lor (Z.lor (Z.shiftl (Z.shiftr (r color1) 3) 11)
                                        (Z.shiftl (Z.shiftr (g color1) 3) 6))
                                 (Z.shiftl (Z.shiftr (b color1) 3) 1))
                          (Z.shiftr (a color1) 7)) in
  let c2 := uint32 (Z.lor (Z.lor (Z.lor (Z.shiftl (Z.shiftr (r color2) 3) 11)
                                        (Z.shiftl (Z.shiftr (g color2) 3) 6))
                                 (Z.shiftl (Z.shiftr (b color2) 3) 1))
                          (Z.shiftr (a color2) 7)) in
  __rdpq_write8_syncchange (cmd_id RDPQ_CMD_SET_FILL_COLOR) 0
    (Z.lor (uint32 (Z.shiftl c1 16)) c2)
    AUTOSYNC_PIPE.

(** [PhysicalAddr] comes from the missing [n64sys.h]; it is a parameter. *)
Definition rdpq_set_lookup_address (PhysicalAddr : Z -> Z) (index rdram_addr : Z)
  : result unit extern_call_more :=
  if negb ((0 <? index) && (index <=? 15))
  then AssertFail "Lookup address index out of range [1,15]: %d" tt
  else
    Ok (__rdpq_dynamic_write8 (cmd_id RDPQ_CMD_SET_LOOKUP_ADDRESS)
          (uint32 (Z.shiftl index 2)) (PhysicalAddr rdram_addr)) tt.

Definition rdpq_set_other_modes_raw (mode : Z) : extern_call_more :=
  __rdpq_set_other_modes
    (Z.land (Z.shiftr mode 32) 0x00FFFFFF)
    (Z.land mode 0xFFFFFFFF).

(** The calls made, in order. *)
Definition rdpq_change_other_modes_raw (mask val : Z) : list extern_call_more :=
  (if negb (Z.shiftr mask 32 =? 0)
   then [__rdpq_modify_other_modes 0
           (uint32 (Z.lnot (Z.shiftr mask 32))) (uint32 (Z.shiftr val 32))]
   else [])
  ++
  (if negb (uint32 mask =? 0)
   then [__rdpq_modify_other_modes 4 (uint32 (Z.lnot (uint32 mask))) (uint32 val)]
   else []).

(** The bits of the 64-bit mode word that a call lets the RSP overwrite: the
    complement of its inverse mask, at the byte offset of its half. *)
Definition modified_bits (c : extern_call_more) : Z :=
  match c with
  | __rdpq_modify_other_modes offset inverse_mask _ =>
      (2 ^ 32 - 1 - inverse_mask) * 2 ^ (32 - 8 * offset)
  | _ => 0
  end.

End RdpqMore.

(** * More of [src/GL/gl.c]: the error flag and [gl_log2] *)

Module GlMore.
Import Gl.

(** The loop [while (s >>= 1) ++log;] of [gl_log2], on 32-bit unsigned
    values.  [fuel] bounds the number of iterations; [None] means that the
    bound was reached. *)
Fixpoint gl_log2_loop (fuel : nat) (s log : Z) : option Z :=
  match fuel with
  | O => None
  | S fuel' =>
      let s' := Z.shiftr s 1 in
      if s' =? 0 then Some log else gl_log2_loop fuel' s' (uint32 (log + 1))
  end.

Definition gl_log2 (s : Z) : option Z := gl_log2_loop 32 (uint32 s) 0.

Section WithHeaders.
Context `{H : headers}.

Local Open Scope cmd_scope.

(** The matrix stack that [p] does not point to. *)
Definition other_stack (p : stack_ptr) : stack_ptr :=
  match p with
  | modelview_stack_ptr => projection_stack_ptr
  | projection_stack_ptr => modelview_stack_ptr
  end.

(** [GL_NO_ERROR] comes from the missing [GL/gl.h]; it is a parameter. *)
Definition glGetError (GL_NO_ERROR : Z) : M state Z :=
  do error <- gets current_error;
  do_ modify (set_current_error GL_NO_ERROR);
  ret error.

End WithHeaders.
End GlMore.

(** * Concrete settings used to run the model *)

(** A small configuration of the transport: two buffers of 64 words, 16
    words of headroom, the N64 segment arithmetic for addresses, the status
    register bits of the RSP, and a terminator that sets the top byte of a
    word to 0x01. *)
Definition small_headers : Dl.headers :=
  {| Dl.DL_DRAM_BUFFER_SIZE := 64;
     Dl.DL_MAX_COMMAND_SIZE := 16;
     Dl.DL_OVERLAY_TABLE_SIZE := 16;
     Dl.DL_MAX_OVERLAY_COUNT := 8;
     Dl.SP_WSTATUS_SET_HALT := 0x2;
     Dl.SP_WSTATUS_CLEAR_HALT := 0x1;
     Dl.SP_WSTATUS_CLEAR_BROKE := 0x4;
     Dl.SP_WSTATUS_SET_SIG7 := 0x1000000;
     Dl.SP_WSTATUS_CLEAR_SIG0 := 0x200;
     Dl.SP_WSTATUS_CLEAR_SIG1 := 0x800;
     Dl.SP_WSTATUS_CLEAR_SIG2 := 0x2000;
     Dl.SP_WSTATUS_CLEAR_SIG3 := 0x8000;
     Dl.SP_WSTATUS_CLEAR_SIG4 := 0x20000;
     Dl.SP_WSTATUS_CLEAR_SIG5 := 0x80000;
     Dl.SP_WSTATUS_CLEAR_SIG6 := 0x200000;
     Dl.SP_WSTATUS_CLEAR_SIG7 := 0x800000;
     Dl.PhysicalAddr := fun a => Z.land a 0x1FFFFFFF;
     Dl.UncachedAddr := fun a => Z.lor a 0x20000000;
     Dl.dl_buffers_addr := 0x80100000;
     Dl.dummy_overlay_state_addr := 0x80102100;
     Dl.rsp_dl_text_start := 0x1000;
     Dl.rsp_dl_text_end := 0x1400;
     Dl.dl_terminator_word := fun w => Z.lor (Z.land w 0x00FFFFFF) 0x01000000;
     Dl.is_terminator := fun w => Z.shiftr w 24 =? 1 |}.

(** A null pointer as a word pointer: it points to no word of [dl_buffers],
    so a load or a store through it is undefined. *)
Definition null : Z := -1.

(** The file-scope variables of [dl.c] when the program starts: objects with
    static storage are zero, the two pointers null. *)
Definition boot `{H : Dl.headers} : Dl.state :=
  {| Dl.dl_data :=
       {| Dl.overlay_table := replicate (Z.to_nat Dl.DL_OVERLAY_TABLE_SIZE) 0;
          Dl.overlay_descriptors :=
            replicate (Z.to_nat Dl.DL_MAX_OVERLAY_COUNT) Dl.zero_overlay;
          Dl.dl_dram_addr := 0; Dl.dl_dram_highpri_addr := 0;
          Dl.current_ovl := 0 |};
     Dl.dl_overlay_count := 0;
     Dl.dl_buffers := replicate (Z.to_nat (2 * Dl.DL_DRAM_BUFFER_SIZE)) 0;
     Dl.dl_buf_idx := 0;
     Dl.dl_cur_pointer := null;
     Dl.dl_sentinel := null;
     Dl.dl_is_running := false;
     Dl.hw := [] |}.

(** Run a command and keep the final state, if it returned. *)
Definition final {S A} (r : result S A) : option S :=
  match r with
  | Ok _ s => Some s
  | _ => None
  end.

(** The state after [dl_init()] from program start. *)
Definition after_init `{H : Dl.headers} : option Dl.state :=
  final (Dl.dl_init boot).

(** An overlay as the linker would lay it out. *)
Definition sample_ucode `{H : Dl.headers} : Dl.rsp_ucode_t :=
  {| Dl.ucode_code := 0x80200000; Dl.ucode_code_end := 0x80201000;
     Dl.ucode_data := 0x80202000; Dl.ucode_data_end := 0x80202400;
     Dl.ucode_header :=
       {| Dl.state_start := 0x280; Dl.state_size := 15; Dl.command_base := 0 |} |}.

(** Run a command [n] times. *)
Fixpoint repeat_command {S} (n : nat) (c : M S unit) : M S unit :=
  match n with
  | O => ret tt
  | S n' => bind c (fun _ => repeat_command n' c)
  end.

(** [dl_init()] followed by 48 one-word commands: the cursor has reached the
    sentinel of the first buffer. *)
Definition fill_to_sentinel `{H : Dl.headers} : M Dl.state unit :=
  bind Dl.dl_init (fun _ => repeat_command 48 (Dl.dl_queue_u32 0x07000000)).

Definition near_sentinel : Dl.state :=
  Eval vm_compute in
    match final (fill_to_sentinel (H := small_headers) (boot (H := small_headers))) with
    | Some s => s
    | None => boot (H := small_headers)
    end.

(** [dl_init()] then [dl_start()] from program start: the consumer runs. *)
Definition started : Dl.state :=
  Eval vm_compute in
    match final (bind (Dl.dl_init (H := small_headers))
                      (fun _ => Dl.dl_start (H := small_headers))
                      (boot (H := small_headers))) with
    | Some s => s
    | None => boot (H := small_headers)
    end.

(** The enumerants of OpenGL 1.1, with integers standing for [GLfloat]. *)
Definition gl11_headers : Gl.headers :=
  {| Gl.GLfloat := Z;
     Gl.GL_SCISSOR_TEST := 0x0C11;
     Gl.GL_CULL_FACE := 0x0B44;
     Gl.GL_DEPTH_TEST := 0x0B71;
     Gl.GL_TEXTURE_2D := 0x0DE1;
     Gl.GL_BLEND := 0x0BE2;
     Gl.GL_COLOR_LOGIC_OP := 0x0BF2;
     Gl.GL_INDEX_LOGIC_OP := 0x0BF1;
     Gl.GL_LINE_STIPPLE := 0x0B24;
     Gl.GL_POLYGON_STIPPLE := 0x0B42;
     Gl.GL_INVALID_ENUM := 0x0500;
     Gl.GL_STACK_OVERFLOW := 0x0503;
     Gl.GL_STACK_UNDERFLOW := 0x0504;
     Gl.GL_MODELVIEW := 0x1700;
     Gl.GL_PROJECTION := 0x1701 |}.

(** A fill rectangle, which uses the pipeline, then a change of the colour
    combiner, which needs the pipeline idle. *)
Definition draw_then_reconfigure : list Rdpq.extern_call :=
  [ Rdpq.rdpq_fill_rectangle_fx 0 0 (320 * 4) (240 * 4);
    Rdpq.rdpq_set_combiner_raw 0 ].

(** Autosync on for tiles and texture memory, off for the pipeline. *)
Definition cfg_no_autosync_pipe : Z :=
  Z.lor Rdpq.RDPQ_CFG_AUTOSYNCTILE Rdpq.RDPQ_CFG_AUTOSYNCLOAD.

(** Autosync on for the three classes. *)
Definition cfg_autosync_all : Z :=
  Z.lor (Z.lor Rdpq.RDPQ_CFG_AUTOSYNCPIPE Rdpq.RDPQ_CFG_AUTOSYNCLOAD)
        Rdpq.RDPQ_CFG_AUTOSYNCTILE.

(** A GL state as [gl_init] leaves the stacks: both at depth 0, model-view
    current; the matrices are 4x4 tables of zeros but for a tag in the first
    entry. *)
Definition tagged_matrix (tag : Z) : Gl.gl_matrix_t (H := gl11_headers) :=
  @Gl.Build_gl_matrix_t gl11_headers
    [[tag; 0; 0; 0]; [0; 0; 0; 0]; [0; 0; 0; 0]; [0; 0; 0; 0]].

Definition gl_fresh : Gl.state (H := gl11_headers) :=
  {| Gl.current_error := 0;
     Gl.scissor_test := false; Gl.cull_face := false; Gl.depth_test := false;
     Gl.texture_2d := false; Gl.blend := false; Gl.is_scissor_dirty := false;
     Gl.matrix_mode := 0x1700;
     Gl.current_matrix := (Gl.modelview_stack_ptr, 0);
     Gl.modelview_stack :=
       {| Gl.storage := replicate (Z.to_nat Gl.MODELVIEW_STACK_SIZE) (tagged_matrix 1);
          Gl.size := Gl.MODELVIEW_STACK_SIZE; Gl.cur_depth := 0 |};
     Gl.projection_stack :=
       {| Gl.storage := replicate (Z.to_nat Gl.PROJECTION_STACK_SIZE) (tagged_matrix 2);
          Gl.size := Gl.PROJECTION_STACK_SIZE; Gl.cur_depth := 0 |};
     Gl.current_matrix_stack := Gl.modelview_stack_ptr |}.

(** The projection stack (two entries) made current and filled by one push. *)
Definition gl_projection_full : Gl.state (H := gl11_headers) :=
  Eval vm_compute in
    match final (bind (Gl.glMatrixMode (H := gl11_headers) 0x1701)
                      (fun _ => Gl.glPushMatrix) gl_fresh) with
    | Some s => s
    | None => gl_fresh
    end.

(** The transport right after [dl_init()] from program start. *)
Definition initialised : Dl.state :=
  Eval vm_compute in
    match final (Dl.dl_init (H := small_headers) (boot (H := small_headers))) with
    | Some s => s
    | None => boot (H := small_headers)
    end.

(** [near_sentinel] after a two-word commit, which switches to the second
    buffer. *)
Definition switched_once : Dl.state :=
  Eval vm_compute in
    match final (Dl.dl_write_end (H := small_headers) 50 near_sentinel) with
    | Some s => s
    | None => near_sentinel
    end.

(** [dl_init()] called again after that switch. *)
Definition reinitialised : Dl.state :=
  Eval vm_compute in
    match final (Dl.dl_init (H := small_headers) switched_once) with
    | Some s => s
    | None => switched_once
    end.

(** [switched_once] followed by 48 one-word commands: the cursor has
    reached the sentinel of the second buffer. *)
Definition second_sentinel : Dl.state :=
  Eval vm_compute in
    match final (repeat_command 48 (Dl.dl_queue_u32 (H := small_headers) 0x07000000)
                   switched_once) with
    | Some s => s
    | None => switched_once
    end.

(** [DL_MAKE_COMMAND] as upstream libdragon defines it: the overlay id in
    the high nibble of the command byte. *)
Definition make_command (ovl cmd : Z) : Z := Z.lor (Z.shiftl ovl 4) cmd.

(** * Properties *)

(** ** Arrays *)

Section Arrays.
Context {A : Type}.
Implicit Types (l : list A) (i j : Z) (v : A).

Lemma store_in_range l i v :
  0 <= i < Z.of_nat (length l) ->
  store l i v = Some (<[Z.to_nat i := v]> l).
Proof.
  intros [Hlo Hhi]. unfold store.
  destruct (Z.leb_spec 0 i); [|lia].
  destruct (Z.ltb_spec i (Z.of_nat (length l))); [reflexivity|lia].
Qed.

Lemma store_Some_inv l i v l' :
  store l i v = Some l' ->
  0 <= i < Z.of_nat (length l) /\ l' = <[Z.to_nat i := v]> l.
Proof.
  unfold store.
  destruct (Z.leb_spec 0 i); simpl; [|discriminate].
  destruct (Z.ltb_spec i (Z.of_nat (length l))); [|discriminate].
  intros [= <-]. split; [lia | reflexivity].
Qed.

Lemma store_length l i v l' : store l i v = Some l' -> length l' = length l.
Proof.
  intros Hs. apply store_Some_inv in Hs as [_ ->]. apply length_insert.
Qed.

Lemma load_in_range l i :
  0 <= i < Z.of_nat (length l) -> exists v, load l i = Some v.
Proof.
  intros [Hlo Hhi]. unfold load. destruct (Z.leb_spec 0 i); [|lia].
  destruct (lookup_lt_is_Some_2 l (Z.to_nat i)) as [v Hv]; [lia|].
  exists v. exact Hv.
Qed.

Lemma load_Some_range l i v : load l i = Some v -> 0 <= i < Z.of_nat (length l).
Proof.
  unfold load. destruct (Z.leb_spec 0 i); [|discriminate].
  intros Hl. apply lookup_lt_Some in Hl. lia.
Qed.

Lemma load_store_eq l i v l' : store l i v = Some l' -> load l' i = Some v.
Proof.
  intros Hs. apply store_Some_inv in Hs as [[Hlo Hhi] ->].
  unfold load. destruct (Z.leb_spec 0 i); [|lia].
  apply list_lookup_insert_eq. lia.
Qed.

Lemma load_store_ne l i j v l' :
  store l i v = Some l' -> i <> j -> load l' j = load l j.
Proof.
  intros Hs Hne. apply store_Some_inv in Hs as [[Hlo Hhi] ->].
  unfold load. destruct (Z.leb_spec 0 j); [|reflexivity].
  apply list_lookup_insert_ne. lia.
Qed.

End Arrays.

Lemma memset_in_range (l : list Z) p n :
  0 <= p -> 0 <= n -> p + n <= Z.of_nat (length l) ->
  memset_words l p n
  = Some (list_inserts (Z.to_nat p) (replicate (Z.to_nat n) 0) l).
Proof.
  intros Hp Hn Hle. unfold memset_words.
  destruct (Z.leb_spec 0 p); [|lia].
  destruct (Z.leb_spec 0 n); [|lia].
  destruct (Z.leb_spec (p + n) (Z.of_nat (length l))); [reflexivity|lia].
Qed.

Lemma memset_Some_inv (l : list Z) p n l' :
  memset_words l p n = Some l' ->
  (0 <= p /\ 0 <= n /\ p + n <= Z.of_nat (length l))
  /\ l' = list_inserts (Z.to_nat p) (replicate (Z.to_nat n) 0) l.
Proof.
  unfold memset_words.
  destruct (Z.leb_spec 0 p); simpl; [|discriminate].
  destruct (Z.leb_spec 0 n); simpl; [|discriminate].
  destruct (Z.leb_spec (p + n) (Z.of_nat (length l))); [|discriminate].
  intros [= <-]. split; [lia | reflexivity].
Qed.

Lemma memset_length (l : list Z) p n l' :
  memset_words l p n = Some l' -> length l' = length l.
Proof.
  intros Hm. apply memset_Some_inv in Hm as [_ ->]. apply length_inserts.
Qed.

Lemma load_memset_inside (l : list Z) p n l' j :
  memset_words l p n = Some l' -> p <= j < p + n -> load l' j = Some 0.
Proof.
  intros Hm Hj. apply memset_Some_inv in Hm as [(Hp & Hn & Hle) ->].
  unfold load. destruct (Z.leb_spec 0 j); [|lia].
  rewrite list_lookup_inserts.
  - apply lookup_replicate_2. lia.
  - rewrite length_replicate. lia.
  - lia.
Qed.

Lemma load_memset_outside (l : list Z) p n l' j :
  memset_words l p n = Some l' -> (j < p \/ p + n <= j) -> load l' j = load l j.
Proof.
  intros Hm Hj. apply memset_Some_inv in Hm as [(Hp & Hn & Hle) ->].
  unfold load. destruct (Z.leb_spec 0 j); [|reflexivity].
  destruct Hj as [Hj | Hj].
  - apply list_lookup_inserts_lt. lia.
  - apply list_lookup_inserts_ge. rewrite length_replicate. lia.
Qed.

(** ** The transport *)

Module DlFacts.
Import Dl.

Section WithHeaders.
Context `{H : headers}.

(** [dl_terminator] succeeds exactly on a word of the array. *)
Lemma dl_terminator_run p s :
  0 <= p < Z.of_nat (length (dl_buffers s)) ->
  exists w l,
    load (dl_buffers s) p = Some w
    /\ store (dl_buffers s) p (dl_terminator_word w) = Some l
    /\ dl_terminator p s = Ok tt (set_dl_buffers l s).
Proof.
  intros Hp. destruct (load_in_range (dl_buffers s) p Hp) as [w Hw].
  exists w, (<[Z.to_nat p := dl_terminator_word w]> (dl_buffers s)).
  split; [exact Hw|]. split; [apply store_in_range; exact Hp|].
  unfold dl_terminator, bind, read_word, write_word. rewrite Hw.
  rewrite store_in_range by exact Hp. reflexivity.
Qed.

(** A commit that does not cross the sentinel: one terminator, one doorbell. *)
Lemma dl_write_end_stay dl s :
  0 <= dl < Z.of_nat (length (dl_buffers s)) ->
  dl <= dl_sentinel s ->
  exists w l,
    load (dl_buffers s) dl = Some w
    /\ store (dl_buffers s) dl (dl_terminator_word w) = Some l
    /\ dl_write_end dl s
       = Ok tt {| dl_data := dl_data s; dl_overlay_count := dl_overlay_count s;
                  dl_buffers := l; dl_buf_idx := dl_buf_idx s;
                  dl_cur_pointer := dl; dl_sentinel := dl_sentinel s;
                  dl_is_running := dl_is_running s;
                  hw := hw s ++ [SP_STATUS_write doorbell] |}.
Proof.
  intros Hdl Hle.
  destruct (dl_terminator_run dl s Hdl) as (w & l & Hw & Hl & Ht).
  exists w, l. split; [exact Hw|]. split; [exact Hl|].
  unfold dl_write_end, bind. rewrite Ht. cbn.
  destruct (Z.ltb_spec (dl_sentinel s) dl); [lia|]. reflexivity.
Qed.

Lemma uint8_flip idx : idx = 0 \/ idx = 1 -> uint8 (1 - idx) = 1 - idx.
Proof. intros [-> | ->]; reflexivity. Qed.

(** A commit that crosses the sentinel, step by step: [l1] after the
    terminator of the commit, [l2] after the [memset] of the other buffer,
    [l3] after its terminator, [l4] after the jump word, [l5] after the
    terminator that follows the jump. *)
Lemma dl_write_end_switch dl s :
  Z.of_nat (length (dl_buffers s)) = 2 * DL_DRAM_BUFFER_SIZE ->
  dl_buf_idx s = 0 \/ dl_buf_idx s = 1 ->
  0 <= dl -> dl + 1 < 2 * DL_DRAM_BUFFER_SIZE ->
  dl_sentinel s < dl ->
  exists w l1 l2 w2 l3 l4 w5 l5,
    load (dl_buffers s) dl = Some w
    /\ store (dl_buffers s) dl (dl_terminator_word w) = Some l1
    /\ memset_words l1 (other_start s) DL_DRAM_BUFFER_SIZE = Some l2
    /\ load l2 (other_start s) = Some w2
    /\ store l2 (other_start s) (dl_terminator_word w2) = Some l3
    /\ store l3 dl (jump_word (other_start s)) = Some l4
    /\ load l4 (dl + 1) = Some w5
    /\ store l4 (dl + 1) (dl_terminator_word w5) = Some l5
    /\ dl_write_end dl s
       = Ok tt {| dl_data := dl_data s; dl_overlay_count := dl_overlay_count s;
                  dl_buffers := l5; dl_buf_idx := 1 - dl_buf_idx s;
                  dl_cur_pointer := other_start s;
                  dl_sentinel :=
                    other_start s + DL_DRAM_BUFFER_SIZE - DL_MAX_COMMAND_SIZE;
                  dl_is_running := dl_is_running s;
                  hw := (hw s ++ [SP_STATUS_write doorbell])
                          ++ [SP_STATUS_write doorbell] |}.
Proof.
  intros Hlen Hidx Hlo Hhi Hcross.
  assert (Hother : 0 <= other_start s
                   /\ other_start s + DL_DRAM_BUFFER_SIZE <= 2 * DL_DRAM_BUFFER_SIZE
                   /\ 0 <= DL_DRAM_BUFFER_SIZE).
  { unfold other_start, buffer_start. destruct Hidx as [-> | ->]; lia. }
  destruct Hother as (Ho1 & Ho2 & HN).
  destruct (dl_terminator_run dl s) as (w & l1 & Hw & Hl1 & Ht1); [lia|].
  pose proof (store_length _ _ _ _ Hl1) as Len1.
  assert (Hl2 : exists l2, memset_words l1 (other_start s) DL_DRAM_BUFFER_SIZE = Some l2).
  { eexists. apply memset_in_range; lia. }
  destruct Hl2 as [l2 Hl2].
  pose proof (memset_length _ _ _ _ Hl2) as Len2.
  destruct (load_in_range l2 (other_start s)) as [w2 Hw2]; [lia|].
  assert (Hl3 : store l2 (other_start s) (dl_terminator_word w2)
                = Some (<[Z.to_nat (other_start s) := dl_terminator_word w2]> l2)).
  { apply store_in_range. lia. }
  pose proof (store_length _ _ _ _ Hl3) as Len3.
  assert (Hl4 : store (<[Z.to_nat (other_start s) := dl_terminator_word w2]> l2) dl
                  (jump_word (other_start s))
                = Some (<[Z.to_nat dl := jump_word (other_start s)]>
                          (<[Z.to_nat (other_start s) := dl_terminator_word w2]> l2))).
  { apply store_in_range. lia. }
  pose proof (store_length _ _ _ _ Hl4) as Len4.
  destruct (load_in_range
              (<[Z.to_nat dl := jump_word (other_start s)]>
                 (<[Z.to_nat (other_start s) := dl_terminator_word w2]> l2))
              (dl + 1)) as [w5 Hw5]; [lia|].
  eexists w, l1, l2, w2, _, _, w5, _.
  split; [exact Hw|]. split; [exact Hl1|]. split; [exact Hl2|].
  split; [exact Hw2|]. split; [exact Hl3|]. split; [exact Hl4|].
  split; [exact Hw5|]. split; [apply store_in_range; lia|].
  unfold dl_write_end, bind. rewrite Ht1. cbn.
  destruct (Z.ltb_spec (dl_sentinel s) dl); [|lia].
  unfold dl_next_buffer, bind, memset_buffer, dl_terminator, read_word,
    write_word, bind. cbn.
  rewrite (uint8_flip _ Hidx).
  change (buffer_start (1 - dl_buf_idx s)) with (other_start s).
  rewrite Hl2. cbn. rewrite Hw2. cbn. rewrite Hl3. cbn. rewrite Hl4. cbn.
  rewrite Hw5. cbn. rewrite store_in_range by lia. reflexivity.
Qed.

Ltac buffer_arith Hidx :=
  unfold active_start, other_start, buffer_start in *;
  destruct Hidx as [Hidx | Hidx]; rewrite Hidx in *; lia.

Lemma jump_word_fields a :
  0 <= a < 2 ^ 24 ->
  Z.shiftr (Z.lor 0x04000000 a) 24 = 4 /\ Z.land (Z.lor 0x04000000 a) 0xFFFFFF = a.
Proof.
  intros Ha. split.
  - rewrite Z.shiftr_lor. rewrite (Z.shiftr_div_pow2 a) by lia.
    rewrite (Z.div_small a) by lia. reflexivity.
  - rewrite Z.land_lor_distr_l. change 0xFFFFFF with (Z.ones 24).
    rewrite (Z.land_ones a) by lia. rewrite (Z.mod_small a) by lia.
    reflexivity.
Qed.

(** The two outcomes of a commit whose pointer lies in the active buffer and
    whose next word lies in [dl_buffers]. *)
Lemma dl_write_end_spec s dl :
  terminator_ok ->
  Z.of_nat (length (dl_buffers s)) = 2 * DL_DRAM_BUFFER_SIZE ->
  dl_buf_idx s = 0 \/ dl_buf_idx s = 1 ->
  active_start s <= dl < active_start s + DL_DRAM_BUFFER_SIZE ->
  dl + 1 < 2 * DL_DRAM_BUFFER_SIZE ->
  (dl_sentinel s < dl ->
   exists s', dl_write_end dl s = Ok tt s' /\ switched s dl s')
  /\ (dl <= dl_sentinel s ->
      exists s', dl_write_end dl s = Ok tt s' /\ stayed s dl s').
Proof.
  intros Hterm Hlen Hidx Hdl Hnext. split.
  - intros Hcross.
    destruct (dl_write_end_switch dl s Hlen Hidx)
      as (w & l1 & l2 & w2 & l3 & l4 & w5 & l5
          & Hw & Hl1 & Hl2 & Hw2 & Hl3 & Hl4 & Hw5 & Hl5 & Hrun);
      [buffer_arith Hidx | exact Hnext | exact Hcross |].
    eexists. split; [exact Hrun|].
    assert (Hne : dl <> other_start s) by buffer_arith Hidx.
    constructor; cbn [dl_buffers dl_buf_idx dl_cur_pointer dl_sentinel].
    + rewrite (load_store_ne _ _ dl _ _ Hl5) by lia.
      apply (load_store_eq _ _ _ _ Hl4).
    + intros Ha. unfold jump_word, uint32.
      rewrite Z.mod_small by lia. apply jump_word_fields. exact Ha.
    + intros i Hi.
      rewrite (load_store_ne _ _ i _ _ Hl5) by lia.
      rewrite (load_store_ne _ _ i _ _ Hl4) by lia.
      rewrite (load_store_ne _ _ i _ _ Hl3) by buffer_arith Hidx.
      rewrite (load_memset_outside _ _ _ _ i Hl2) by buffer_arith Hidx.
      apply (load_store_ne _ _ i _ _ Hl1). lia.
    + unfold terminated_at. cbn [dl_buffers].
      destruct (Z.eq_dec (dl + 1) (other_start s)) as [E | E].
      * exists (dl_terminator_word w5). split; [|apply Hterm].
        rewrite <- E. apply (load_store_eq _ _ _ _ Hl5).
      * exists (dl_terminator_word w2). split; [|apply Hterm].
        rewrite (load_store_ne _ _ (other_start s) _ _ Hl5) by exact E.
        rewrite (load_store_ne _ _ (other_start s) _ _ Hl4) by exact Hne.
        apply (load_store_eq _ _ _ _ Hl3).
    + intros i Hi.
      rewrite (load_store_ne _ _ i _ _ Hl5) by buffer_arith Hidx.
      rewrite (load_store_ne _ _ i _ _ Hl4) by buffer_arith Hidx.
      rewrite (load_store_ne _ _ i _ _ Hl3) by lia.
      apply (load_memset_inside _ _ _ _ i Hl2). lia.
    + rewrite (store_length _ _ _ _ Hl5), (store_length _ _ _ _ Hl4),
        (store_length _ _ _ _ Hl3), (memset_length _ _ _ _ Hl2).
      apply (store_length _ _ _ _ Hl1).
    + reflexivity.
    + reflexivity.
    + reflexivity.
    + reflexivity.
  - intros Hle.
    destruct (dl_write_end_stay dl s) as (w & l & Hw & Hl & Hrun);
      [buffer_arith Hidx | exact Hle |].
    eexists. split; [exact Hrun|].
    constructor; cbn [dl_buffers dl_buf_idx dl_cur_pointer dl_sentinel].
    + exists (dl_terminator_word w). split; [|apply Hterm].
      apply (load_store_eq _ _ _ _ Hl).
    + intros i Hi. apply (load_store_ne _ _ i _ _ Hl). lia.
    + apply (store_length _ _ _ _ Hl).
    + reflexivity.
    + reflexivity.
    + reflexivity.
Qed.

(** Commits keep the transport well formed. *)
Lemma dl_write_end_wf s dl :
  terminator_ok -> sizes_ok -> wf s ->
  active_start s <= dl < active_start s + DL_DRAM_BUFFER_SIZE ->
  dl + 1 < 2 * DL_DRAM_BUFFER_SIZE ->
  exists s',
    dl_write_end dl s = Ok tt s' /\ wf s'
    /\ (dl_sentinel s < dl -> switched s dl s')
    /\ (dl <= dl_sentinel s -> stayed s dl s').
Proof.
  intros Hterm Hsz [Hlen Hidx Hlo Hhi Hsen Ht] Hdl Hnext. unfold sizes_ok in Hsz.
  destruct (dl_write_end_spec s dl Hterm Hlen Hidx Hdl Hnext) as [Hswitch Hstay].
  destruct (Z.lt_ge_cases (dl_sentinel s) dl) as [Hcross | Hle].
  - destruct (Hswitch Hcross) as (s' & Hrun & Hsw).
    exists s'. split; [exact Hrun|]. split; [|split; [intros _; exact Hsw | lia]].
    destruct Hsw as [_ _ _ Hterm' _ Hlen' Hi Ha Hc Hs].
    constructor.
    + rewrite Hlen'. exact Hlen.
    + rewrite Hi. destruct Hidx as [-> | ->]; [right | left]; reflexivity.
    + rewrite Ha, Hc. lia.
    + rewrite Hc, Hs. lia.
    + rewrite Hs, Ha. reflexivity.
    + rewrite Hc. exact Hterm'.
  - destruct (Hstay Hle) as (s' & Hrun & Hst).
    exists s'. split; [exact Hrun|]. split; [|split; [lia | intros _; exact Hst]].
    destruct Hst as [Hterm' _ Hlen' Hi Hc Hs].
    constructor.
    + rewrite Hlen'. exact Hlen.
    + rewrite Hi. exact Hidx.
    + unfold active_start in *. rewrite Hi, Hc. lia.
    + rewrite Hc, Hs. exact Hle.
    + unfold active_start in *. rewrite Hs, Hi. exact Hsen.
    + rewrite Hc. exact Hterm'.
Qed.

(** [dl_init] returns when the buffers have their declared size and there
    is room for the default overlay; it leaves the cursor at the start of
    the first buffer, on a terminator. *)
Lemma dl_init_run s :
  0 < DL_DRAM_BUFFER_SIZE ->
  0 < DL_MAX_OVERLAY_COUNT ->
  Z.of_nat (length (dl_buffers s)) = 2 * DL_DRAM_BUFFER_SIZE ->
  exists s',
    dl_init s = Ok tt s'
    /\ Z.of_nat (length (dl_buffers s')) = 2 * DL_DRAM_BUFFER_SIZE
    /\ load (dl_buffers s') 0 = Some (dl_terminator_word 0)
    /\ dl_buf_idx s' = dl_buf_idx s
    /\ dl_cur_pointer s' = 0
    /\ dl_sentinel s' = 0 + DL_DRAM_BUFFER_SIZE - DL_MAX_COMMAND_SIZE
    /\ dl_overlay_count s' = 1
    /\ dl_is_running s' = dl_is_running s
    /\ hw s' = hw s.
Proof.
  intros HN HK Hlen.
  assert (Hm : exists l1, memset_words (dl_buffers s) 0 DL_DRAM_BUFFER_SIZE = Some l1).
  { eexists. apply memset_in_range; lia. }
  destruct Hm as [l1 Hl1].
  pose proof (memset_length _ _ _ _ Hl1) as Len1.
  assert (Hw : load l1 0 = Some 0).
  { apply (load_memset_inside _ _ _ _ 0 Hl1). lia. }
  assert (Hl2 : store l1 0 (dl_terminator_word 0)
                = Some (<[Z.to_nat 0 := dl_terminator_word 0]> l1)).
  { apply store_in_range. lia. }
  destruct (Z.to_nat DL_MAX_OVERLAY_COUNT) as [|k] eqn:EK; [lia|].
  eexists. split.
  - unfold dl_init, bind, modify, gets, memset_buffer, dl_terminator, read_word,
      write_word, set_dl_dram_addr, get_overlay_descriptor,
      set_overlay_descriptor, bind, modify.
    cbn. unfold buffer_start. change (0 * DL_DRAM_BUFFER_SIZE) with 0.
    rewrite Hl1. cbn. rewrite Hw. cbn.
    rewrite Hl2. cbn. rewrite EK. cbn. reflexivity.
  - cbn. repeat split; try reflexivity.
    + rewrite length_insert. lia.
    + apply (load_store_eq _ _ _ _ Hl2).
Qed.

(** Commits inside the active buffer.  When the commit pointer lies in the
    active buffer and the word after it in [dl_buffers], a commit that
    crosses the sentinel appends the jump word (0x04 in the top byte, the
    physical address of the other buffer below it) right after the committed
    words, leaves the other buffer zero-filled behind a fresh terminator,
    makes it the active buffer and puts the sentinel [DL_MAX_COMMAND_SIZE]
    words before its end; a commit that does not cross the sentinel changes
    no word but the terminator at the new cursor and does not switch. *)
Theorem dl_write_end_commit s dl :
  terminator_ok ->
  wf s ->
  active_start s <= dl < active_start s + DL_DRAM_BUFFER_SIZE ->
  dl + 1 < 2 * DL_DRAM_BUFFER_SIZE ->
  (dl_sentinel s < dl ->
   exists s', dl_write_end dl s = Ok tt s' /\ switched s dl s')
  /\ (dl <= dl_sentinel s ->
      exists s', dl_write_end dl s = Ok tt s' /\ stayed s dl s').
Proof.
  intros Hterm Hwf Hdl Hnext.
  apply dl_write_end_spec;
    [exact Hterm | apply Hwf | apply Hwf | exact Hdl | exact Hnext].
Qed.

(** The invariant, where it holds.  After [dl_init] run with [dl_buf_idx]
    at 0, and after a commit whose pointer lies in the active buffer with the
    word after it in [dl_buffers], switch or not, the word at the write
    cursor is a terminator, the cursor is at or before the sentinel, and the
    sentinel lies [DL_MAX_COMMAND_SIZE] words before the end of the active
    buffer. *)
Theorem transport_invariant :
  sizes_ok -> terminator_ok -> 0 < DL_MAX_OVERLAY_COUNT ->
  (forall s,
      dl_buf_idx s = 0 ->
      Z.of_nat (length (dl_buffers s)) = 2 * DL_DRAM_BUFFER_SIZE ->
      exists s', dl_init s = Ok tt s' /\ wf s')
  /\ (forall s dl,
         wf s ->
         active_start s <= dl < active_start s + DL_DRAM_BUFFER_SIZE ->
         dl + 1 < 2 * DL_DRAM_BUFFER_SIZE ->
         exists s',
           dl_write_end dl s = Ok tt s' /\ wf s'
           /\ (dl_cur_pointer s' = dl \/ dl_cur_pointer s' = active_start s'))
  /\ (forall s,
         wf s ->
         exists p, dl_write_begin s = Ok p s /\ active_start s <= p <= dl_sentinel s).
Proof.
  intros Hsz Hterm HK. split; [|split].
  - intros s Hidx Hlen. unfold sizes_ok in Hsz.
    destruct (dl_init_run s) as (s' & Hrun & Hlen' & Hw & Hi & Hc & Hs & _);
      [lia | exact HK | exact Hlen |].
    exists s'. split; [exact Hrun|].
    constructor.
    + exact Hlen'.
    + left. congruence.
    + unfold active_start, buffer_start. rewrite Hi, Hidx, Hc. lia.
    + rewrite Hc, Hs. lia.
    + unfold active_start, buffer_start. rewrite Hs, Hi, Hidx. lia.
    + rewrite Hc. exists (dl_terminator_word 0). split; [exact Hw | apply Hterm].
  - intros s dl Hwf Hdl Hnext.
    destruct (dl_write_end_wf s dl Hterm Hsz Hwf Hdl Hnext)
      as (s' & Hrun & Hwf' & Hsw & Hst).
    exists s'. split; [exact Hrun|]. split; [exact Hwf'|].
    destruct (Z.lt_ge_cases (dl_sentinel s) dl) as [Hcross | Hle].
    + right. destruct (Hsw Hcross). congruence.
    + left. destruct (Hst Hle). assumption.
  - intros s [_ _ Hlo Hhi _ _]. exists (dl_cur_pointer s).
    split; [reflexivity | lia].
Qed.

(** A commit pointer past [dl_buffers]: the first store of [dl_write_end] is
    already outside the array. *)
Lemma dl_write_end_outside dl s :
  Z.of_nat (length (dl_buffers s)) <= dl -> dl_write_end dl s = Undefined.
Proof.
  intros Hdl. unfold dl_write_end, bind, dl_terminator, read_word, bind.
  destruct (load (dl_buffers s) dl) as [w|] eqn:E; [|reflexivity].
  apply load_Some_range in E. lia.
Qed.

(** A commit at the first word of the second buffer, made while the first
    buffer is active: the jump word is stored over the fresh terminator of
    the second buffer, where the new cursor stands. *)
Lemma dl_write_end_at_buffer_end s :
  Z.of_nat (length (dl_buffers s)) = 2 * DL_DRAM_BUFFER_SIZE ->
  1 < DL_DRAM_BUFFER_SIZE ->
  dl_buf_idx s = 0 ->
  dl_sentinel s < DL_DRAM_BUFFER_SIZE ->
  exists s',
    dl_write_end DL_DRAM_BUFFER_SIZE s = Ok tt s'
    /\ dl_buf_idx s' = 1
    /\ dl_cur_pointer s' = DL_DRAM_BUFFER_SIZE
    /\ dl_sentinel s' = 2 * DL_DRAM_BUFFER_SIZE - DL_MAX_COMMAND_SIZE
    /\ Z.of_nat (length (dl_buffers s')) = 2 * DL_DRAM_BUFFER_SIZE
    /\ load (dl_buffers s') DL_DRAM_BUFFER_SIZE = Some (jump_word DL_DRAM_BUFFER_SIZE).
Proof.
  intros Hlen HN Hidx Hcross.
  destruct (dl_write_end_switch DL_DRAM_BUFFER_SIZE s Hlen (or_introl Hidx))
    as (w & l1 & l2 & w2 & l3 & l4 & w5 & l5
        & Hw & Hl1 & Hl2 & Hw2 & Hl3 & Hl4 & Hw5 & Hl5 & Hrun);
    [lia | lia | exact Hcross |].
  assert (Ho : other_start s = DL_DRAM_BUFFER_SIZE).
  { unfold other_start, buffer_start. rewrite Hidx. lia. }
  rewrite Ho in *.
  eexists. split; [exact Hrun|].
  cbn [dl_buf_idx dl_cur_pointer dl_sentinel dl_buffers].
  split; [rewrite Hidx; reflexivity|]. split; [reflexivity|].
  split; [lia|]. split.
  - rewrite (store_length _ _ _ _ Hl5), (store_length _ _ _ _ Hl4),
      (store_length _ _ _ _ Hl3), (memset_length _ _ _ _ Hl2),
      (store_length _ _ _ _ Hl1). exact Hlen.
  - rewrite (load_store_ne _ _ DL_DRAM_BUFFER_SIZE _ _ Hl5) by lia.
    apply (load_store_eq _ _ _ _ Hl4).
Qed.

(** C1, where the code departs from it.  The sentinel leaves
    [DL_MAX_COMMAND_SIZE] words, and a command of that size begun at the
    sentinel fills them to the last word of the active buffer: its commit
    pointer is one past the buffer, with no room left for the jump word and
    its terminator.  From the first buffer that pointer is the first word of
    the second buffer: the commit returns, and this word, where the new
    cursor stands, holds the jump word, a jump to its own address, in place
    of a fresh terminator.  From the second buffer the pointer is past
    [dl_buffers], and the first store of [dl_write_end] is outside the
    array. *)
Theorem full_command_at_sentinel s :
  sizes_ok -> 1 < DL_DRAM_BUFFER_SIZE ->
  wf s -> dl_cur_pointer s = dl_sentinel s ->
  (dl_buf_idx s = 0 ->
   exists s',
     dl_write_end (dl_cur_pointer s + DL_MAX_COMMAND_SIZE) s = Ok tt s'
     /\ dl_cur_pointer s + DL_MAX_COMMAND_SIZE = other_start s
     /\ dl_buf_idx s' = 1
     /\ dl_cur_pointer s' = other_start s
     /\ load (dl_buffers s') (other_start s) = Some (jump_word (other_start s))
     /\ (is_terminator (jump_word (other_start s)) = false ->
         ~ terminated_at s' (other_start s)))
  /\ (dl_buf_idx s = 1 ->
      dl_write_end (dl_cur_pointer s + DL_MAX_COMMAND_SIZE) s = Undefined).
Proof.
  intros Hsz HN [Hlen _ _ _ Hsen _] Hcur. unfold sizes_ok in Hsz.
  unfold active_start, buffer_start in Hsen. split; intros Hidx.
  - rewrite Hidx in Hsen.
    assert (Ho : other_start s = DL_DRAM_BUFFER_SIZE).
    { unfold other_start, buffer_start. rewrite Hidx. lia. }
    assert (Hdl : dl_cur_pointer s + DL_MAX_COMMAND_SIZE = DL_DRAM_BUFFER_SIZE) by lia.
    rewrite Ho, Hdl.
    destruct (dl_write_end_at_buffer_end s Hlen HN Hidx)
      as (s' & Hrun & Hi & Hc & _ & _ & Hjump); [lia|].
    exists s'. split; [exact Hrun|]. split; [reflexivity|].
    split; [exact Hi|]. split; [exact Hc|]. split; [exact Hjump|].
    intros Hnt (w & Hw & Ht). congruence.
  - rewrite Hidx in Hsen. apply dl_write_end_outside. lia.
Qed.

(** C2, where the code departs from it.  The invariant does not survive the
    commit of a command of [DL_MAX_COMMAND_SIZE] words begun at the sentinel
    of the first buffer: the commit returns with the jump word, not a
    terminator, at the new cursor.  Nor does [dl_init] establish it when
    [dl_buf_idx] is 1, as it is after one switch: [dl_init] does not assign
    [dl_buf_idx], so it puts cursor and sentinel in the first buffer while
    the index names the second. *)
Theorem transport_invariant_broken :
  sizes_ok -> 1 < DL_DRAM_BUFFER_SIZE -> 0 < DL_MAX_OVERLAY_COUNT ->
  (forall s,
      wf s -> dl_buf_idx s = 0 -> dl_cur_pointer s = dl_sentinel s ->
      is_terminator (jump_word (other_start s)) = false ->
      exists s',
        dl_write_end (dl_cur_pointer s + DL_MAX_COMMAND_SIZE) s = Ok tt s'
        /\ ~ terminated_at s' (dl_cur_pointer s')
        /\ ~ wf s')
  /\ (forall s,
         Z.of_nat (length (dl_buffers s)) = 2 * DL_DRAM_BUFFER_SIZE ->
         dl_buf_idx s = 1 ->
         exists s0,
           dl_init s = Ok tt s0
           /\ dl_buf_idx s0 = 1
           /\ dl_cur_pointer s0 = buffer_start 0
           /\ dl_cur_pointer s0 < active_start s0
           /\ dl_sentinel s0 < active_start s0
           /\ ~ wf s0).
Proof.
  intros Hsz HN HK. unfold sizes_ok in Hsz. split.
  - intros s [Hlen _ _ _ Hsen _] Hidx Hcur Hnt.
    unfold active_start, buffer_start in Hsen. rewrite Hidx in Hsen.
    assert (Ho : other_start s = DL_DRAM_BUFFER_SIZE).
    { unfold other_start, buffer_start. rewrite Hidx. lia. }
    assert (Hdl : dl_cur_pointer s + DL_MAX_COMMAND_SIZE = DL_DRAM_BUFFER_SIZE) by lia.
    rewrite Ho in Hnt. rewrite Hdl.
    destruct (dl_write_end_at_buffer_end s Hlen HN Hidx)
      as (s' & Hrun & _ & Hc & _ & _ & Hjump); [lia|].
    assert (Hbad : ~ terminated_at s' (dl_cur_pointer s')).
    { rewrite Hc. intros (w & Hw & Ht). congruence. }
    exists s'. split; [exact Hrun|]. split; [exact Hbad|].
    intros Hwf. apply Hbad. apply Hwf.
  - intros s Hlen Hidx.
    destruct (dl_init_run s) as (s0 & Hrun & _ & _ & Hi & Hc & Hs & _);
      [lia | exact HK | exact Hlen |].
    assert (Ha : active_start s0 = DL_DRAM_BUFFER_SIZE).
    { unfold active_start, buffer_start. rewrite Hi, Hidx. lia. }
    exists s0. split; [exact Hrun|]. split; [congruence|].
    split; [rewrite Hc; unfold buffer_start; lia|].
    split; [lia|]. split; [lia|].
    intros [_ _ Hlo _ _ _]. lia.
Qed.

(** C4, as the code has it.  Whenever its stores stay inside [dl_buffers], a
    commit rings the doorbell once when it does not cross the sentinel and
    twice when it does. *)
Theorem doorbells_per_commit s dl :
  Z.of_nat (length (dl_buffers s)) = 2 * DL_DRAM_BUFFER_SIZE ->
  dl_buf_idx s = 0 \/ dl_buf_idx s = 1 ->
  0 <= dl < 2 * DL_DRAM_BUFFER_SIZE ->
  (dl_sentinel s < dl -> dl + 1 < 2 * DL_DRAM_BUFFER_SIZE) ->
  doorbells_of_commit dl s
  = Some (if dl_sentinel s <? dl then 2%nat else 1%nat).
Proof.
  intros Hlen Hidx Hdl Hnext. unfold doorbells_of_commit.
  assert (Hdb : is_doorbell (SP_STATUS_write doorbell) = true).
  { cbn. apply Z.eqb_refl. }
  destruct (Z.ltb_spec (dl_sentinel s) dl) as [Hcross | Hle].
  - destruct (dl_write_end_switch dl s Hlen Hidx)
      as (w & l1 & l2 & w2 & l3 & l4 & w5 & l5 & _ & _ & _ & _ & _ & _ & _ & _ & Hrun);
      [lia | exact (Hnext Hcross) | exact Hcross |].
    rewrite Hrun. cbn [hw]. unfold doorbells.
    rewrite !filter_app, !length_app. cbn [filter list_filter].
    rewrite !decide_True by (rewrite Hdb; exact I). cbn. f_equal. lia.
  - destruct (dl_write_end_stay dl s) as (w & l & _ & _ & Hrun);
      [lia | exact Hle |].
    rewrite Hrun. cbn [hw]. unfold doorbells.
    rewrite !filter_app, !length_app. cbn [filter list_filter].
    rewrite !decide_True by (rewrite Hdb; exact I). cbn. f_equal. lia.
Qed.

Lemma write_word_run p v s :
  0 <= p < Z.of_nat (length (dl_buffers s)) ->
  exists l,
    store (dl_buffers s) p v = Some l
    /\ write_word p v s = Ok tt (set_dl_buffers l s).
Proof.
  intros Hp. eexists. split; [apply store_in_range; exact Hp|].
  unfold write_word. rewrite store_in_range by exact Hp. reflexivity.
Qed.

(** A word written at the cursor survives the commit that follows it. *)
Lemma committed_word_kept s dl i s' :
  active_start s <= i < dl ->
  (dl_sentinel s < dl -> switched s dl s') ->
  (dl <= dl_sentinel s -> stayed s dl s') ->
  load (dl_buffers s') i = load (dl_buffers s) i.
Proof.
  intros Hi Hsw Hst.
  destruct (Z.lt_ge_cases (dl_sentinel s) dl) as [Hcross | Hle].
  - apply (sw_committed _ _ _ (Hsw Hcross)). exact Hi.
  - apply (st_unchanged _ _ _ (Hst Hle)). lia.
Qed.

Lemma u8_command_word cmd :
  0 <= cmd < 2 ^ 8 ->
  uint32 (Z.shiftl (uint8 cmd) 24) = Z.shiftl cmd 24
  /\ Z.shiftr (Z.shiftl cmd 24) 24 = cmd
  /\ Z.land (Z.shiftl cmd 24) 0xFFFFFF = 0.
Proof.
  intros Hc. unfold uint32, uint8.
  rewrite (Z.mod_small cmd) by lia.
  rewrite Z.shiftl_mul_pow2 by lia.
  split; [apply Z.mod_small; lia|]. split.
  - rewrite Z.shiftr_div_pow2 by lia. apply Z.div_mul. lia.
  - change 0xFFFFFF with (Z.ones 24). rewrite Z.land_ones by lia.
    apply Z.mod_mul. lia.
Qed.

Lemma u64_command_words cmd :
  0 <= cmd < 2 ^ 64 ->
  uint32 (Z.shiftr cmd 32) = Z.shiftr cmd 32
  /\ cmd = Z.shiftr cmd 32 * 2 ^ 32 + Z.land cmd 0xFFFFFFFF.
Proof.
  intros Hc. unfold uint32. rewrite Z.shiftr_div_pow2 by lia.
  change 0xFFFFFFFF with (Z.ones 32). rewrite Z.land_ones by lia.
  split.
  - apply Z.mod_small. split; [apply Z.div_pos; lia|].
    apply Z.div_lt_upper_bound; lia.
  - pose proof (Z.div_mod cmd (2 ^ 32)). lia.
Qed.

(** C9. [dl_queue_u8] leaves at the old cursor a word whose top byte is the
    command id and whose other bits are zero; [dl_queue_u64] leaves the high
    32 bits of the command at the old cursor and the low 32 bits in the next
    word.  The active buffer has room for the command, a jump word and a
    terminator. *)
Theorem queue_word_order s :
  terminator_ok -> wf s ->
  dl_cur_pointer s + 3 < active_start s + DL_DRAM_BUFFER_SIZE ->
  (forall cmd,
      0 <= cmd < 2 ^ 8 ->
      exists s' w,
        dl_queue_u8 cmd s = Ok tt s'
        /\ load (dl_buffers s') (dl_cur_pointer s) = Some w
        /\ w = Z.shiftl cmd 24
        /\ Z.shiftr w 24 = cmd
        /\ Z.land w 0xFFFFFF = 0)
  /\ (forall cmd,
         0 <= cmd < 2 ^ 64 ->
         exists s' hi lo,
           dl_queue_u64 cmd s = Ok tt s'
           /\ load (dl_buffers s') (dl_cur_pointer s) = Some hi
           /\ load (dl_buffers s') (dl_cur_pointer s + 1) = Some lo
           /\ hi = Z.shiftr cmd 32
           /\ lo = Z.land cmd 0xFFFFFFFF
           /\ cmd = hi * 2 ^ 32 + lo).
Proof.
  intros Hterm Hwf Hroom.
  pose proof Hwf as [Hlen Hidx Hlo Hhi Hsen Ht].
  assert (Hact : 0 <= active_start s
                 /\ active_start s + DL_DRAM_BUFFER_SIZE <= 2 * DL_DRAM_BUFFER_SIZE).
  { buffer_arith Hidx. }
  set (cur := dl_cur_pointer s) in *.
  split.
  - intros cmd Hc.
    destruct (u8_command_word cmd Hc) as (Hv & Htop & Hlow).
    destruct (write_word_run cur (uint32 (Z.shiftl (uint8 cmd) 24)) s)
      as (l & Hl & Hrun1); [lia|].
    destruct (dl_write_end_spec (set_dl_buffers l s) (cur + 1)) as [Hsw Hst];
      [ exact Hterm
      | cbn [dl_buffers set_dl_buffers]; rewrite (store_length _ _ _ _ Hl); exact Hlen
      | exact Hidx
      | change (active_start (set_dl_buffers l s)) with (active_start s); lia
      | lia |].
    assert (Hkeep : forall s',
               (dl_sentinel s < cur + 1 -> switched (set_dl_buffers l s) (cur + 1) s') ->
               (cur + 1 <= dl_sentinel s -> stayed (set_dl_buffers l s) (cur + 1) s') ->
               load (dl_buffers s') cur = Some (Z.shiftl cmd 24)).
    { intros s' H1 H2.
      rewrite (committed_word_kept (set_dl_buffers l s) (cur + 1) cur s').
      - cbn [dl_buffers set_dl_buffers]. rewrite <- Hv.
        apply (load_store_eq _ _ _ _ Hl).
      - change (active_start (set_dl_buffers l s)) with (active_start s). lia.
      - exact H1.
      - exact H2. }
    assert (Hrun : forall s', dl_write_end (cur + 1) (set_dl_buffers l s) = Ok tt s' ->
                              dl_queue_u8 cmd s = Ok tt s').
    { intros s' Hr. unfold dl_queue_u8, bind, dl_write_begin, gets.
      fold cur. rewrite Hrun1. exact Hr. }
    destruct (Z.lt_ge_cases (dl_sentinel s) (cur + 1)) as [Hcross | Hle].
    + destruct (Hsw Hcross) as (s' & Hr & Hs').
      exists s', (Z.shiftl cmd 24).
      split; [apply Hrun; exact Hr|].
      split; [apply Hkeep; [intros _; exact Hs' | cbn [dl_sentinel set_dl_buffers]; lia]|].
      split; [reflexivity|]. split; assumption.
    + destruct (Hst Hle) as (s' & Hr & Hs').
      exists s', (Z.shiftl cmd 24).
      split; [apply Hrun; exact Hr|].
      split; [apply Hkeep; [cbn [dl_sentinel set_dl_buffers]; lia | intros _; exact Hs']|].
      split; [reflexivity|]. split; assumption.
  - intros cmd Hc.
    destruct (u64_command_words cmd Hc) as (Hv & Hsum).
    destruct (write_word_run cur (uint32 (Z.shiftr cmd 32)) s)
      as (l & Hl & Hrun1); [lia|].
    pose proof (store_length _ _ _ _ Hl) as Len1.
    destruct (write_word_run (cur + 1) (Z.land cmd 0xFFFFFFFF) (set_dl_buffers l s))
      as (l' & Hl' & Hrun2); [cbn [dl_buffers set_dl_buffers]; lia|].
    cbn [dl_buffers set_dl_buffers] in Hl'.
    pose proof (store_length _ _ _ _ Hl') as Len2.
    change (set_dl_buffers l' (set_dl_buffers l s)) with (set_dl_buffers l' s) in Hrun2.
    destruct (dl_write_end_spec (set_dl_buffers l' s) (cur + 2)) as [Hsw Hst];
      [ exact Hterm
      | cbn [dl_buffers set_dl_buffers]; lia
      | exact Hidx
      | change (active_start (set_dl_buffers l' s)) with (active_start s); lia
      | lia |].
    assert (Hkeep : forall s',
               (dl_sentinel s < cur + 2 -> switched (set_dl_buffers l' s) (cur + 2) s') ->
               (cur + 2 <= dl_sentinel s -> stayed (set_dl_buffers l' s) (cur + 2) s') ->
               load (dl_buffers s') cur = Some (Z.shiftr cmd 32)
               /\ load (dl_buffers s') (cur + 1) = Some (Z.land cmd 0xFFFFFFFF)).
    { intros s' H1 H2. split.
      - rewrite (committed_word_kept (set_dl_buffers l' s) (cur + 2) cur s').
        + cbn [dl_buffers set_dl_buffers].
          rewrite (load_store_ne _ _ cur _ _ Hl') by lia. rewrite <- Hv.
          apply (load_store_eq _ _ _ _ Hl).
        + change (active_start (set_dl_buffers l' s)) with (active_start s). lia.
        + exact H1.
        + exact H2.
      - rewrite (committed_word_kept (set_dl_buffers l' s) (cur + 2) (cur + 1) s').
        + cbn [dl_buffers set_dl_buffers]. apply (load_store_eq _ _ _ _ Hl').
        + change (active_start (set_dl_buffers l' s)) with (active_start s). lia.
        + exact H1.
        + exact H2. }
    assert (Hrun : forall s', dl_write_end (cur + 2) (set_dl_buffers l' s) = Ok tt s' ->
                              dl_queue_u64 cmd s = Ok tt s').
    { intros s' Hr. unfold dl_queue_u64, bind, dl_write_begin, gets.
      fold cur. rewrite Hrun1, Hrun2. exact Hr. }
    destruct (Z.lt_ge_cases (dl_sentinel s) (cur + 2)) as [Hcross | Hle].
    + destruct (Hsw Hcross) as (s' & Hr & Hs').
      destruct (Hkeep s') as [K1 K2];
        [intros _; exact Hs' | cbn [dl_sentinel set_dl_buffers]; lia|].
      exists s', (Z.shiftr cmd 32), (Z.land cmd 0xFFFFFFFF).
      split; [apply Hrun; exact Hr|]. repeat split; assumption.
    + destruct (Hst Hle) as (s' & Hr & Hs').
      destruct (Hkeep s') as [K1 K2];
        [cbn [dl_sentinel set_dl_buffers]; lia | intros _; exact Hs'|].
      exists s', (Z.shiftr cmd 32), (Z.land cmd 0xFFFFFFFF).
      split; [apply Hrun; exact Hr|]. repeat split; assumption.
Qed.

(** [dl_start] on a stopped consumer: the table push, the signal clear and
    the run trigger, once each. *)
Lemma dl_start_first s :
  dl_is_running s = false ->
  dl_start s
  = Ok tt {| dl_data := dl_data s; dl_overlay_count := dl_overlay_count s;
             dl_buffers := dl_buffers s; dl_buf_idx := dl_buf_idx s;
             dl_cur_pointer := dl_cur_pointer s; dl_sentinel := dl_sentinel s;
             dl_is_running := true; hw := hw s ++ start_events s |}.
Proof.
  intros Hr. unfold dl_start, bind, gets, write_SP_STATUS, modify. rewrite Hr.
  cbn. unfold start_events, set_dl_is_running, emit. cbn.
  rewrite <- !app_assoc. reflexivity.
Qed.

Lemma dl_start_running s : dl_is_running s = true -> dl_start s = Ok tt s.
Proof.
  intros Hr. unfold dl_start, bind, gets. rewrite Hr. reflexivity.
Qed.

(** C6. [dl_start] on a running consumer returns at once and changes
    nothing, whatever the rest of the state; so a second [dl_start] adds no
    table push, no signal clear and no run trigger to what the first did. *)
Theorem dl_start_idempotent s :
  dl_start (set_dl_is_running true s) = Ok tt (set_dl_is_running true s)
  /\ exists s1,
       dl_start s = Ok tt s1
       /\ dl_is_running s1 = true
       /\ dl_start s1 = Ok tt s1
       /\ bind dl_start (fun _ => dl_start) s = dl_start s
       /\ hw s1 = hw s ++ (if dl_is_running s then [] else start_events s).
Proof.
  split; [apply dl_start_running; reflexivity|].
  destruct (dl_is_running s) eqn:Hr.
  - exists s. rewrite (dl_start_running s Hr).
    split; [reflexivity|]. split; [exact Hr|]. split; [reflexivity|].
    split.
    + unfold bind. rewrite !(dl_start_running s Hr). reflexivity.
    + rewrite app_nil_r. reflexivity.
  - eexists. split; [apply dl_start_first; exact Hr|].
    split; [reflexivity|]. split; [apply dl_start_running; reflexivity|].
    split; [|reflexivity].
    unfold bind. rewrite (dl_start_first s Hr).
    apply dl_start_running. reflexivity.
Qed.

(** C7, as the code has it. [dl_overlay_add] never reads [dl_is_running]:
    whether it aborts and what it returns is the same running or not.  With
    a free descriptor and a non-null overlay it fills the next descriptor,
    returns its index and counts it, showing nothing to the hardware; it
    aborts exactly when the count is 0, when the count has reached
    [DL_MAX_OVERLAY_COUNT], or when the overlay is null. *)
Theorem dl_overlay_add_ignores_running s o :
  Z.of_nat (length (overlay_descriptors (dl_data s))) = DL_MAX_OVERLAY_COUNT ->
  (aborted (dl_overlay_add o (set_dl_is_running true s))
   = aborted (dl_overlay_add o (set_dl_is_running false s))
   /\ returned (dl_overlay_add o (set_dl_is_running true s))
      = returned (dl_overlay_add o (set_dl_is_running false s)))
  /\ (0 < dl_overlay_count s < DL_MAX_OVERLAY_COUNT ->
      forall u, o = Some u ->
      exists s',
        dl_overlay_add o s = Ok (dl_overlay_count s) s'
        /\ dl_overlay_count s' = uint8 (dl_overlay_count s + 1)
        /\ (exists d,
               load (overlay_descriptors (dl_data s')) (dl_overlay_count s) = Some d
               /\ code d = PhysicalAddr
                             (ucode_code u + uint32 (rsp_dl_text_end - rsp_dl_text_start))
               /\ data d = PhysicalAddr (ucode_data u))
        /\ dl_is_running s' = dl_is_running s
        /\ hw s' = hw s)
  /\ (aborted (dl_overlay_add o s) = true
      <-> dl_overlay_count s <= 0
          \/ DL_MAX_OVERLAY_COUNT <= dl_overlay_count s
          \/ o = None).
Proof.
  intros Hlen.
  assert (Hrun : forall s0,
             dl_overlay_count s0 = dl_overlay_count s ->
             overlay_descriptors (dl_data s0) = overlay_descriptors (dl_data s) ->
             (0 < dl_overlay_count s < DL_MAX_OVERLAY_COUNT ->
              forall u, o = Some u ->
              exists l,
                store (overlay_descriptors (dl_data s0)) (dl_overlay_count s)
                  {| code := PhysicalAddr
                               (ucode_code u + uint32 (rsp_dl_text_end - rsp_dl_text_start));
                     data := PhysicalAddr (ucode_data u);
                     data_buf := PhysicalAddr (dl_overlay_get_state u);
                     code_size :=
                       uint16 ((ucode_code_end u - ucode_code u)
                               - uint32 (rsp_dl_text_end - rsp_dl_text_start) - 1);
                     data_size := uint16 ((ucode_data_end u - ucode_data u) - 1) |}
                = Some l
                /\ dl_overlay_add o s0
                   = Ok (dl_overlay_count s)
                       {| dl_data :=
                            {| overlay_table := overlay_table (dl_data s0);
                               overlay_descriptors := l;
                               dl_dram_addr := dl_dram_addr (dl_data s0);
                               dl_dram_highpri_addr := dl_dram_highpri_addr (dl_data s0);
                               current_ovl := current_ovl (dl_data s0) |};
                          dl_overlay_count := uint8 (dl_overlay_count s + 1);
                          dl_buffers := dl_buffers s0; dl_buf_idx := dl_buf_idx s0;
                          dl_cur_pointer := dl_cur_pointer s0;
                          dl_sentinel := dl_sentinel s0;
                          dl_is_running := dl_is_running s0; hw := hw s0 |})
             /\ (dl_overlay_count s <= 0 \/ DL_MAX_OVERLAY_COUNT <= dl_overlay_count s
                 \/ o = None ->
                 exists msg, dl_overlay_add o s0 = AssertFail msg s0)).
  { intros s0 Hc Hd. split.
    - intros Hn u ->. eexists. split.
      + apply store_in_range. rewrite Hd. lia.
      + unfold dl_overlay_add, bind, gets, assertf, set_overlay_descriptor, modify, ret.
        rewrite Hc.
        destruct (Z.ltb_spec 0 (dl_overlay_count s)); [|lia].
        destruct (Z.ltb_spec (dl_overlay_count s) DL_MAX_OVERLAY_COUNT); [|lia].
        rewrite store_in_range by (rewrite Hd; lia). reflexivity.
    - intros Hbad.
      unfold dl_overlay_add, bind, gets, assertf. rewrite Hc.
      destruct (Z.ltb_spec 0 (dl_overlay_count s)); [|eexists; reflexivity].
      destruct (Z.ltb_spec (dl_overlay_count s) DL_MAX_OVERLAY_COUNT);
        [|eexists; reflexivity].
      destruct Hbad as [Hb | [Hb | ->]]; [lia | lia |]. eexists. reflexivity. }
  assert (Hcases : (0 < dl_overlay_count s < DL_MAX_OVERLAY_COUNT /\ exists u, o = Some u)
                   \/ (dl_overlay_count s <= 0
                       \/ DL_MAX_OVERLAY_COUNT <= dl_overlay_count s \/ o = None)).
  { destruct o as [u|]; [|right; right; right; reflexivity].
    destruct (Z.lt_ge_cases 0 (dl_overlay_count s)); [|right; left; lia].
    destruct (Z.lt_ge_cases (dl_overlay_count s) DL_MAX_OVERLAY_COUNT);
      [left; split; [lia | eexists; reflexivity] | right; right; left; lia]. }
  split; [|split].
  - destruct (Hrun (set_dl_is_running true s) eq_refl eq_refl) as [Ht1 Ht2].
    destruct (Hrun (set_dl_is_running false s) eq_refl eq_refl) as [Hf1 Hf2].
    destruct Hcases as [[Hn [u Hu]] | Hbad].
    + destruct (Ht1 Hn u Hu) as (l1 & _ & ->).
      destruct (Hf1 Hn u Hu) as (l2 & _ & ->). split; reflexivity.
    + destruct (Ht2 Hbad) as [m1 ->]. destruct (Hf2 Hbad) as [m2 ->].
      split; reflexivity.
  - intros Hn u Hu.
    destruct (Hrun s eq_refl eq_refl) as [H1 _].
    destruct (H1 Hn u Hu) as (l & Hl & ->).
    eexists. split; [reflexivity|]. cbn.
    split; [reflexivity|]. split; [|split; reflexivity].
    eexists. split; [apply (load_store_eq _ _ _ _ Hl)|]. split; reflexivity.
  - destruct (Hrun s eq_refl eq_refl) as [H1 H2]. split.
    + intros Hab. destruct Hcases as [[Hn [u Hu]] | Hbad]; [|exact Hbad].
      destruct (H1 Hn u Hu) as (l & _ & Hr). rewrite Hr in Hab. discriminate.
    + intros Hbad. destruct (H2 Hbad) as [msg ->]. reflexivity.
Qed.

End WithHeaders.

(** *** The small configuration *)

#[local] Existing Instance small_headers.

Ltac concrete := vm_compute; repeat split; (reflexivity || discriminate).

Lemma small_terminator_ok : terminator_ok (H := small_headers).
Proof.
  intros w. cbn. apply Z.eqb_eq. rewrite Z.shiftr_lor.
  change 0xFFFFFF with (Z.ones 24). rewrite Z.land_ones by lia.
  rewrite (Z.shiftr_div_pow2 (w mod 2 ^ 24)) by lia.
  rewrite Z.div_small by (apply Z.mod_pos_bound; lia). reflexivity.
Qed.

Lemma small_sizes_ok : sizes_ok (H := small_headers).
Proof. concrete. Qed.

Lemma near_sentinel_reached :
  final (fill_to_sentinel (H := small_headers) boot) = Some near_sentinel.
Proof. vm_compute. reflexivity. Qed.

Lemma near_sentinel_wf : wf (H := small_headers) near_sentinel.
Proof.
  constructor; try concrete.
  - left. reflexivity.
  - eexists. split; vm_compute; reflexivity.
Qed.

Lemma started_reached :
  final (bind (dl_init (H := small_headers)) (fun _ => dl_start) boot) = Some started.
Proof. vm_compute. reflexivity. Qed.

Lemma second_sentinel_reached :
  final (repeat_command 48 (dl_queue_u32 (H := small_headers) 0x07000000) switched_once)
  = Some second_sentinel.
Proof. vm_compute. reflexivity. Qed.

Lemma second_sentinel_wf : wf (H := small_headers) second_sentinel.
Proof.
  constructor; try concrete.
  - right. reflexivity.
  - eexists. split; vm_compute; reflexivity.
Qed.

(** A two-word commit at the sentinel of the first buffer switches to the
    second buffer. *)
Lemma dl_write_end_commit_witness :
  exists s',
    dl_write_end (H := small_headers) 50 near_sentinel = Ok tt s'
    /\ switched near_sentinel 50 s'.
Proof.
  destruct (dl_write_end_commit (H := small_headers) near_sentinel 50) as [Hsw _].
  - exact small_terminator_ok.
  - exact near_sentinel_wf.
  - concrete.
  - concrete.
  - apply Hsw. concrete.
Defined.

(** The invariant holds after [dl_init] from program start and after a
    commit that switches buffers. *)
Lemma transport_invariant_witness :
  (exists s', dl_init (H := small_headers) boot = Ok tt s' /\ wf s')
  /\ (exists s',
        dl_write_end (H := small_headers) 50 near_sentinel = Ok tt s' /\ wf s').
Proof.
  destruct (transport_invariant (H := small_headers)) as (Hinit & Hcommit & _).
  - exact small_sizes_ok.
  - exact small_terminator_ok.
  - concrete.
  - split.
    + apply Hinit; concrete.
    + destruct (Hcommit near_sentinel 50) as (s' & Hrun & Hwf & _).
      * exact near_sentinel_wf.
      * concrete.
      * concrete.
      * exists s'. split; [exact Hrun | exact Hwf].
Defined.

(** From the sentinel of the first buffer (word 48) a command of 16 words is
    committed at word 64, the start of the second buffer: the commit returns
    with the cursor at word 64, which holds a jump to word 64 and no
    terminator.  From the sentinel of the second buffer (word 112) the commit
    pointer is word 128, past the 128 words of [dl_buffers]. *)
Lemma full_command_at_sentinel_witness :
  (exists s',
      dl_write_end (H := small_headers) 64 near_sentinel = Ok tt s'
      /\ dl_cur_pointer s' = 64
      /\ load (dl_buffers s') 64 = Some (jump_word 64)
      /\ ~ terminated_at s' 64)
  /\ dl_write_end (H := small_headers) 128 second_sentinel = Undefined.
Proof.
  split.
  - destruct (full_command_at_sentinel (H := small_headers) near_sentinel)
      as [Hfirst _].
    + exact small_sizes_ok.
    + concrete.
    + exact near_sentinel_wf.
    + concrete.
    + destruct (Hfirst eq_refl) as (s' & Hrun & _ & _ & Hc & Hjump & Hnt).
      exists s'. split; [exact Hrun|]. split; [exact Hc|].
      split; [exact Hjump|]. apply Hnt. vm_compute. reflexivity.
  - destruct (full_command_at_sentinel (H := small_headers) second_sentinel)
      as [_ Hsecond].
    + exact small_sizes_ok.
    + concrete.
    + exact second_sentinel_wf.
    + concrete.
    + apply Hsecond. reflexivity.
Defined.

(** The commit at word 64 from the sentinel of the first buffer leaves a
    state that is not well formed; so does [dl_init] called again after one
    switch, with the index still 1 and the cursor at word 0. *)
Lemma transport_invariant_broken_witness :
  (exists s',
      dl_write_end (H := small_headers) 64 near_sentinel = Ok tt s' /\ ~ wf s')
  /\ (exists s0,
        dl_init (H := small_headers) switched_once = Ok tt s0
        /\ dl_buf_idx s0 = 1 /\ dl_cur_pointer s0 = 0 /\ ~ wf s0).
Proof.
  destruct (transport_invariant_broken (H := small_headers)) as [Hcommit Hinit].
  - exact small_sizes_ok.
  - concrete.
  - concrete.
  - split.
    + destruct (Hcommit near_sentinel) as (s' & Hrun & _ & Hwf).
      * exact near_sentinel_wf.
      * reflexivity.
      * concrete.
      * vm_compute. reflexivity.
      * exists s'. split; [exact Hrun | exact Hwf].
    + destruct (Hinit switched_once) as (s0 & Hrun & Hidx & Hcur & _ & _ & Hwf).
      * concrete.
      * reflexivity.
      * exists s0. split; [exact Hrun|]. split; [exact Hidx|].
        split; [exact Hcur | exact Hwf].
Defined.

(** Two doorbells for the commit that switches, one for a commit that does
    not. *)
Lemma doorbells_per_commit_witness :
  doorbells_of_commit (H := small_headers) 50 near_sentinel = Some 2%nat
  /\ doorbells_of_commit (H := small_headers) 48 near_sentinel = Some 1%nat.
Proof.
  split.
  - apply (doorbells_per_commit (H := small_headers) near_sentinel 50).
    + concrete.
    + left. reflexivity.
    + concrete.
    + intros _. concrete.
  - apply (doorbells_per_commit (H := small_headers) near_sentinel 48).
    + concrete.
    + left. reflexivity.
    + concrete.
    + intros _. concrete.
Defined.

(** C4 fails as stated: after [dl_init] and 48 one-word commands the cursor
    is at the sentinel; the next two-word commit crosses it, and that one
    call of [dl_write_end] writes the doorbell twice, not once. *)
Lemma doorbell_rung_twice :
  final (fill_to_sentinel (H := small_headers) boot) = Some near_sentinel
  /\ dl_cur_pointer near_sentinel = 48
  /\ dl_sentinel near_sentinel = 48
  /\ doorbells_of_commit (H := small_headers) 50 near_sentinel = Some 2%nat
  /\ doorbells_of_commit (H := small_headers) 50 near_sentinel <> Some 1%nat.
Proof. repeat split; vm_compute; (reflexivity || discriminate). Qed.

(** C7 fails as stated: the consumer runs after [dl_init] and [dl_start],
    and [dl_overlay_add] still registers the overlay and returns index 1. *)
Lemma overlay_added_while_running :
  final (bind (dl_init (H := small_headers)) (fun _ => dl_start) boot) = Some started
  /\ dl_is_running started = true
  /\ aborted (dl_overlay_add (H := small_headers) (Some sample_ucode) started) = false
  /\ returned (dl_overlay_add (H := small_headers) (Some sample_ucode) started) = Some 1.
Proof. repeat split; vm_compute; reflexivity. Qed.

(** The overlay added to the running transport is stored at index 1. *)
Lemma dl_overlay_add_ignores_running_witness :
  exists s',
    dl_overlay_add (H := small_headers) (Some sample_ucode) started = Ok 1 s'
    /\ dl_overlay_count s' = 2
    /\ dl_is_running s' = true.
Proof.
  destruct (dl_overlay_add_ignores_running (H := small_headers) started
              (Some sample_ucode)) as (_ & Hadd & _).
  - concrete.
  - destruct (Hadd ltac:(concrete) sample_ucode eq_refl)
      as (s' & Hrun & Hcount & _ & Hrunning & _).
    exists s'. split; [exact Hrun|]. split; [exact Hcount | exact Hrunning].
Defined.

(** The no-op command id 0x07 ends up in the top byte of the word at the old
    cursor; a 64-bit command is split high word first. *)
Lemma queue_word_order_witness :
  (exists s' w,
      dl_queue_u8 (H := small_headers) 0x07 near_sentinel = Ok tt s'
      /\ load (dl_buffers s') 48 = Some w /\ Z.shiftr w 24 = 0x07)
  /\ (exists s',
        dl_queue_u64 (H := small_headers) 0x3D10013F00123456 near_sentinel = Ok tt s'
        /\ load (dl_buffers s') 48 = Some 0x3D10013F
        /\ load (dl_buffers s') 49 = Some 0x00123456).
Proof.
  destruct (queue_word_order (H := small_headers) near_sentinel) as [H8 H64].
  - exact small_terminator_ok.
  - exact near_sentinel_wf.
  - concrete.
  - split.
    + destruct (H8 0x07) as (s' & w & Hrun & Hw & _ & Htop & _); [concrete|].
      exists s', w. split; [exact Hrun|]. split; [exact Hw | exact Htop].
    + destruct (H64 0x3D10013F00123456) as (s' & hi & lo & Hrun & Hhi & Hlo & -> & -> & _);
        [concrete|].
      exists s'. split; [exact Hrun|]. split; [exact Hhi | exact Hlo].
Defined.

End DlFacts.

(** ** Command ids *)

Module RdpqFacts.
Import Rdpq.

(** C5 fails as stated: [rdpq_set_texture_image_lookup] hands [rdpq.c] the
    dynamic id 0x3D and the fixed id 0x1D, and 0x1D is not 0x3D + 1. *)
Lemma fixed_id_not_dynamic_plus_one :
  rdpq_set_texture_image_lookup 0 0x100000 0 64
  = Ok (__rdpq_set_fixup_image 0x3D 0x1D 63 0x100000) tt
  /\ fixup_of RDPQ_CMD_SET_TEXTURE_IMAGE = Some RDPQ_CMD_SET_TEXTURE_IMAGE_FIX
  /\ cmd_id RDPQ_CMD_SET_TEXTURE_IMAGE_FIX <> cmd_id RDPQ_CMD_SET_TEXTURE_IMAGE + 1
  /\ ~ (forall c f, fixup_of c = Some f -> cmd_id f = cmd_id c + 1).
Proof.
  split; [vm_compute; reflexivity|]. split; [reflexivity|].
  split; [vm_compute; discriminate|].
  intros Hall. specialize (Hall RDPQ_CMD_SET_TEXTURE_IMAGE _ eq_refl).
  vm_compute in Hall. discriminate.
Qed.

(** C5, as the code has it. A command with both ids has its fixed id one
    above its dynamic id when the dynamic id is below 0x20; the three image
    commands have their fixed id 0x20 below the dynamic one; SET_OTHER_MODES
    and SYNC_FULL have the fixed ids 0x20 and 0x21. *)
Theorem fixup_id_relation c f :
  fixup_of c = Some f ->
  (cmd_id c < 0x20 /\ cmd_id f = cmd_id c + 1)
  \/ (0x3D <= cmd_id c /\ cmd_id f = cmd_id c - 0x20)
  \/ (c = RDPQ_CMD_SET_OTHER_MODES /\ cmd_id f = 0x20)
  \/ (c = RDPQ_CMD_SYNC_FULL /\ cmd_id f = 0x21).
Proof.
  destruct c; cbn [fixup_of]; try discriminate; intros [= <-]; cbn [cmd_id];
    first [ left; split; [reflexivity | reflexivity]
          | right; left; split; [discriminate | reflexivity]
          | right; right; left; split; reflexivity
          | right; right; right; split; reflexivity ].
Qed.

Lemma fixup_id_relation_witness :
  cmd_id RDPQ_CMD_SET_BLENDING_MODE_FIX = cmd_id RDPQ_CMD_SET_BLENDING_MODE + 1
  /\ cmd_id RDPQ_CMD_SET_Z_IMAGE_FIX = cmd_id RDPQ_CMD_SET_Z_IMAGE - 0x20.
Proof.
  split.
  - destruct (fixup_id_relation RDPQ_CMD_SET_BLENDING_MODE
                RDPQ_CMD_SET_BLENDING_MODE_FIX eq_refl)
      as [[_ E] | [[Hge _] | [[E _] | [E _]]]];
      [exact E | cbn in Hge; lia | discriminate E | discriminate E].
  - destruct (fixup_id_relation RDPQ_CMD_SET_Z_IMAGE
                RDPQ_CMD_SET_Z_IMAGE_FIX eq_refl)
      as [[Hlt _] | [[_ E] | [[E _] | [E _]]]];
      [cbn in Hlt; lia | exact E | discriminate E | discriminate E].
Defined.

End RdpqFacts.

(** ** The hazard tracker *)

Module HazardFacts.
Import Rdpq.

(** *** Resource bits *)

Lemma resource_of_bit_range b k : resource_of_bit b = Some k -> 0 <= b <= 16.
Proof.
  unfold resource_of_bit.
  destruct (Z.leb_spec 0 b), (Z.ltb_spec b 8); cbn; try (intros _; lia).
  all: destruct (Z.leb_spec 8 b), (Z.ltb_spec b 16); cbn; try (intros _; lia).
  all: destruct (Z.eqb_spec b 16); try discriminate; intros _; lia.
Qed.

(** The mask of a class holds exactly the bits of that class. *)
Lemma mask_testbit k b :
  0 <= b ->
  Z.testbit (resource_mask k) b = true <-> resource_of_bit b = Some k.
Proof.
  intros Hb. unfold resource_of_bit.
  destruct k; cbn [resource_mask];
    unfold AUTOSYNC_TILES, AUTOSYNC_TMEMS, AUTOSYNC_PIPE;
    rewrite Z.shiftl_spec by exact Hb.
  - change 0xFF with (Z.ones 8). rewrite Z.sub_0_r.
    rewrite Z.testbit_ones_nonneg by lia.
    destruct (Z.leb_spec 0 b); [|lia].
    destruct (Z.ltb_spec b 8); cbn; [tauto|].
    split; [discriminate|].
    destruct ((8 <=? b) && (b <? 16)); [discriminate|].
    destruct (b =? 16); discriminate.
  - change 0xFF with (Z.ones 8).
    destruct (Z.leb_spec 0 b); [|lia].
    destruct (Z.ltb_spec b 8); cbn.
    + rewrite Z.testbit_neg_r by lia. split; discriminate.
    + rewrite Z.testbit_ones_nonneg by lia.
      destruct (Z.leb_spec 8 b); [|lia].
      destruct (Z.ltb_spec (b - 8) 8), (Z.ltb_spec b 16); cbn; try lia; try tauto.
      split; [discriminate|]. destruct (b =? 16); discriminate.
  - change 1 with (Z.ones 1).
    destruct (Z.leb_spec 0 b); [|lia].
    destruct (Z.ltb_spec b 8); cbn.
    + rewrite Z.testbit_neg_r by lia. split; discriminate.
    + destruct (Z.leb_spec 8 b); [|lia].
      destruct (Z.ltb_spec b 16); cbn.
      * rewrite Z.testbit_neg_r by lia. split; discriminate.
      * rewrite Z.testbit_ones_nonneg by lia.
        destruct (Z.ltb_spec (b - 16) 1), (Z.eqb_spec b 16); try lia; try tauto.
        split; discriminate.
Qed.

Lemma mask_testbit_class k' b k :
  resource_of_bit b = Some k ->
  Z.testbit (resource_mask k') b = same_resource k' k.
Proof.
  intros Hkb. pose proof (resource_of_bit_range b k Hkb) as Hb.
  destruct (Z.testbit (resource_mask k') b) eqn:E.
  - apply mask_testbit in E; [|lia]. rewrite Hkb in E. injection E as ->.
    destruct k'; reflexivity.
  - destruct (same_resource k' k) eqn:Es; [|reflexivity].
    assert (k' = k) as -> by (destruct k', k; (reflexivity || discriminate)).
    apply mask_testbit in Hkb; [|lia]. congruence.
Qed.

Lemma same_resource_refl k : same_resource k k = true.
Proof. destruct k; reflexivity. Qed.

(** A nonzero intersection with the mask of a class has a bit of the class. *)
Lemma nonzero_has_bit res st k :
  Z.land (Z.land res st) (resource_mask k) <> 0 ->
  exists b,
    resource_of_bit b = Some k
    /\ Z.testbit res b = true /\ Z.testbit st b = true.
Proof.
  intros Hnz.
  set (z := Z.land (Z.land res st) (resource_mask k)) in *.
  destruct (existsb (Z.testbit z) (map Z.of_nat (seq 0 17))) eqn:E.
  - apply existsb_exists in E as (b & Hin & Hb).
    apply in_map_iff in Hin as (n & <- & Hn). apply in_seq in Hn.
    subst z. rewrite !Z.land_spec in Hb.
    apply andb_prop in Hb as [Hb Hmask]. apply andb_prop in Hb as [Hres Hst].
    exists (Z.of_nat n). split; [apply mask_testbit; [lia | exact Hmask]|].
    split; assumption.
  - exfalso. apply Hnz. apply Z.bits_inj'. intros n Hn.
    rewrite Z.bits_0. destruct (Z.testbit z n) eqn:Hz; [|reflexivity].
    assert (Hk : resource_of_bit n = Some k).
    { subst z. rewrite !Z.land_spec in Hz.
      apply andb_prop in Hz as [_ Hmask]. apply mask_testbit; assumption. }
    apply resource_of_bit_range in Hk.
    assert (Hex : existsb (Z.testbit z) (map Z.of_nat (seq 0 17)) = true).
    { apply existsb_exists. exists n. split; [|exact Hz].
      apply in_map_iff. exists (Z.to_nat n). split; [lia|].
      apply in_seq. lia. }
    congruence.
Qed.

(** *** The barrier commands *)

Lemma marks_sync b k : marks b (sync_command k) = false.
Proof. unfold marks. cbn. apply Z.bits_0. Qed.

Lemma requires_sync b k : requires b (sync_command k) = false.
Proof. unfold requires. cbn. apply Z.bits_0. Qed.

Lemma is_sync_sync k k' : is_sync k (sync_command k') = same_resource k k'.
Proof. destruct k, k'; reflexivity. Qed.

(** *** The ghost [pending] and the stream *)

Lemma pending_snoc k b l c :
  pending k b (l ++ [c]) = pending_step k b (pending k b l) c.
Proof. unfold pending. rewrite fold_left_app. reflexivity. Qed.

Lemma pending_snoc_sync k b l k' :
  pending k b (l ++ [sync_command k'])
  = if same_resource k k' then false else pending k b l.
Proof.
  rewrite pending_snoc. unfold pending_step.
  rewrite marks_sync, is_sync_sync. reflexivity.
Qed.

Lemma fold_pending_true k b mid :
  Forall (fun c => is_sync k c = false) mid ->
  fold_left (pending_step k b) mid true = true.
Proof.
  induction 1 as [|c mid Hc _ IH]; [reflexivity|].
  cbn. unfold pending_step at 2. rewrite Hc.
  destruct (marks b c); exact IH.
Qed.

Lemma pending_of_split k b pre x mid :
  marks b x = true ->
  Forall (fun c => is_sync k c = false) mid ->
  pending k b (pre ++ x :: mid) = true.
Proof.
  intros Hx Hmid. unfold pending. rewrite fold_left_app. cbn.
  unfold pending_step at 2. rewrite Hx. apply fold_pending_true. exact Hmid.
Qed.

Lemma split_of_pending k b l :
  pending k b l = true ->
  exists pre x mid,
    l = pre ++ x :: mid /\ marks b x = true
    /\ Forall (fun c => is_sync k c = false) mid.
Proof.
  induction l as [|c l IH] using rev_ind; [discriminate|].
  rewrite pending_snoc. unfold pending_step.
  destruct (marks b c) eqn:Hm.
  - intros _. exists l, c, []. split; [reflexivity|]. split; [exact Hm | constructor].
  - destruct (is_sync k c) eqn:Hs; [discriminate|].
    intros Hp. destruct (IH Hp) as (pre & x & mid & -> & Hx & Hmid).
    exists pre, x, (mid ++ [c]). split; [|split; [exact Hx|]].
    + rewrite <- app_assoc. reflexivity.
    + apply Forall_app. split; [exact Hmid|]. constructor; [exact Hs | constructor].
Qed.

Lemma sync_or_not k (mid : list command) :
  Forall (fun c => is_sync k c = false) mid
  \/ Exists (fun c => is_sync k c = true) mid.
Proof.
  induction mid as [|c mid [IH | IH]].
  - left. constructor.
  - destruct (is_sync k c) eqn:Hs.
    + right. apply Exists_cons_hd. exact Hs.
    + left. constructor; assumption.
  - right. apply Exists_cons_tl. exact IH.
Qed.

(** Appending a command keeps [barrier_between] when the command needs no
    barrier on [b] or nothing is pending on [b]. *)
Lemma barrier_between_snoc k b l e :
  barrier_between k b l ->
  (requires b e = true -> pending k b l = false) ->
  barrier_between k b (l ++ [e]).
Proof.
  intros Hl He pre x mid y post Heq Hx Hy.
  destruct post as [|z post] using rev_ind.
  - assert (Heq' : l ++ [e] = (pre ++ x :: mid) ++ [y]).
    { rewrite Heq, <- app_assoc. reflexivity. }
    apply app_inj_tail in Heq' as [-> ->].
    destruct (sync_or_not k mid) as [Hnone | Hsome]; [|exact Hsome].
    rewrite (pending_of_split k b pre x mid Hx Hnone) in He.
    specialize (He Hy). discriminate.
  - assert (Heq' : l ++ [e] = (pre ++ x :: mid ++ y :: post) ++ [z]).
    { rewrite Heq. rewrite <- !app_assoc. cbn. rewrite <- !app_assoc. reflexivity. }
    apply app_inj_tail in Heq' as [-> _].
    apply (Hl pre x mid y post eq_refl Hx Hy).
Qed.

(** Appending a command keeps [barrier_justified] when the command is no
    barrier of class [k] or some bit of class [k] is pending. *)
Lemma barrier_justified_snoc k l e :
  barrier_justified k l ->
  (is_sync k e = true ->
   exists b, resource_of_bit b = Some k /\ pending k b l = true) ->
  barrier_justified k (l ++ [e]).
Proof.
  intros Hl He pre y post Heq Hy.
  destruct post as [|z post] using rev_ind.
  - apply app_inj_tail in Heq as [-> ->].
    destruct (He Hy) as (b & Hb & Hp).
    destruct (split_of_pending k b pre Hp) as (pre1 & x & mid & Hsplit & Hx & Hmid).
    exists b, pre1, x, mid. repeat split; assumption.
  - assert (Heq' : l ++ [e] = (pre ++ y :: post) ++ [z]).
    { rewrite Heq. rewrite <- !app_assoc. reflexivity. }
    apply app_inj_tail in Heq' as [-> _].
    apply (Hl pre y post eq_refl Hy).
Qed.

(** *** One barrier step *)

Lemma barrier_cases k' res s :
  autosync_barrier k' res s = s
  \/ (enabled (rdpq_config s) k' = true
      /\ Z.land (Z.land res (rdpq_autosync_state s)) (resource_mask k') <> 0
      /\ autosync_barrier k' res s
         = {| rdpq_config := rdpq_config s;
              rdpq_autosync_state :=
                Z.land (rdpq_autosync_state s) (Z.lnot (resource_mask k'));
              stream := stream s ++ [sync_command k'] |}).
Proof.
  unfold autosync_barrier.
  destruct (enabled (rdpq_config s) k'); [|left; reflexivity].
  destruct (Z.eqb_spec (Z.land (Z.land res (rdpq_autosync_state s)) (resource_mask k')) 0);
    cbn; [left; reflexivity | right; repeat split; assumption].
Qed.

Lemma barrier_config k' res s :
  rdpq_config (autosync_barrier k' res s) = rdpq_config s.
Proof. destruct (barrier_cases k' res s) as [-> | (_ & _ & ->)]; reflexivity. Qed.

Lemma barrier_bit_mono k' res s b :
  0 <= b ->
  Z.testbit (rdpq_autosync_state (autosync_barrier k' res s)) b = true ->
  Z.testbit (rdpq_autosync_state s) b = true.
Proof.
  intros Hb. destruct (barrier_cases k' res s) as [-> | (_ & _ & ->)]; [tauto|].
  cbn. rewrite Z.land_spec. intros Hand. apply andb_prop in Hand. tauto.
Qed.

Lemma barrier_clears k res s b :
  resource_of_bit b = Some k ->
  enabled (rdpq_config s) k = true ->
  Z.testbit res b = true ->
  Z.testbit (rdpq_autosync_state (autosync_barrier k res s)) b = false.
Proof.
  intros Hkb Hen Hres.
  pose proof (resource_of_bit_range b k Hkb) as Hb.
  pose proof (mask_testbit_class k b k Hkb) as Hm. rewrite same_resource_refl in Hm.
  unfold autosync_barrier. rewrite Hen. cbn.
  destruct (Z.eqb_spec (Z.land (Z.land res (rdpq_autosync_state s)) (resource_mask k)) 0)
    as [E | E]; cbn.
  - destruct (Z.testbit (rdpq_autosync_state s) b) eqn:Hst; [|reflexivity].
    assert (Hbit : Z.testbit (Z.land (Z.land res (rdpq_autosync_state s)) (resource_mask k)) b
                   = true).
    { rewrite !Z.land_spec, Hres, Hst, Hm. reflexivity. }
    rewrite E, Z.bits_0 in Hbit. discriminate.
  - rewrite Z.land_spec, Z.lnot_spec by lia. rewrite Hm. apply andb_false_r.
Qed.

Lemma barrier_sound cfg k b k' res s :
  resource_of_bit b = Some k ->
  sound_pending cfg k b s ->
  sound_pending cfg k b (autosync_barrier k' res s).
Proof.
  intros Hkb (Hcfg & Hp & Hbb).
  pose proof (resource_of_bit_range b k Hkb) as Hb.
  destruct (barrier_cases k' res s) as [-> | (_ & _ & ->)]; [repeat split; assumption|].
  split; [exact Hcfg|]. cbn [stream rdpq_autosync_state]. split.
  - rewrite pending_snoc_sync.
    destruct (same_resource k k') eqn:Hs; [discriminate|].
    intros Hpend. rewrite Z.land_spec, Z.lnot_spec by lia.
    rewrite (mask_testbit_class k' b k Hkb), (Hp Hpend).
    destruct k, k'; (reflexivity || discriminate).
  - apply barrier_between_snoc; [exact Hbb|].
    rewrite requires_sync. discriminate.
Qed.

Lemma barrier_complete k k' res s :
  complete_pending k s ->
  complete_pending k (autosync_barrier k' res s).
Proof.
  intros (Hp & Hbj).
  destruct (barrier_cases k' res s) as [-> | (_ & Hnz & ->)]; [split; assumption|].
  split; cbn [stream rdpq_autosync_state].
  - intros b Hkb. pose proof (resource_of_bit_range b k Hkb) as Hb.
    rewrite Z.land_spec, Z.lnot_spec by lia.
    rewrite (mask_testbit_class k' b k Hkb), pending_snoc_sync.
    intros Hand. apply andb_prop in Hand as [Hst Hne].
    destruct (same_resource k k') eqn:Hs.
    + destruct k, k'; discriminate.
    + apply Hp; assumption.
  - apply barrier_justified_snoc; [exact Hbj|].
    rewrite is_sync_sync. intros Hs.
    assert (k = k') as <- by (destruct k, k'; (reflexivity || discriminate)).
    destruct (nonzero_has_bit _ _ _ Hnz) as (b & Hkb & _ & Hst).
    exists b. split; [exact Hkb | apply Hp; assumption].
Qed.

(** *** The check made for a barrier-requiring use *)

Lemma change_config res s :
  rdpq_config (__rdpq_autosync_change res s) = rdpq_config s.
Proof. unfold __rdpq_autosync_change. rewrite !barrier_config. reflexivity. Qed.

Lemma change_sound cfg k b res s :
  resource_of_bit b = Some k ->
  sound_pending cfg k b s ->
  sound_pending cfg k b (__rdpq_autosync_change res s).
Proof.
  intros Hkb Hs. unfold __rdpq_autosync_change.
  repeat apply barrier_sound; assumption.
Qed.

Lemma change_complete k res s :
  complete_pending k s -> complete_pending k (__rdpq_autosync_change res s).
Proof.
  intros Hs. unfold __rdpq_autosync_change. repeat apply barrier_complete. exact Hs.
Qed.

(** After the check, no bit that the command needs a barrier on is set. *)
Lemma change_clears k b res s :
  resource_of_bit b = Some k ->
  enabled (rdpq_config s) k = true ->
  Z.testbit res b = true ->
  Z.testbit (rdpq_autosync_state (__rdpq_autosync_change res s)) b = false.
Proof.
  intros Hkb Hen Hres.
  pose proof (resource_of_bit_range b k Hkb) as Hb.
  unfold __rdpq_autosync_change.
  set (s1 := autosync_barrier tile_descriptor res s).
  set (s2 := autosync_barrier tmem_bank res s1).
  destruct (Z.testbit (rdpq_autosync_state (autosync_barrier pipeline res s2)) b) eqn:E3;
    [|reflexivity].
  exfalso. destruct k.
  - pose proof (barrier_clears tile_descriptor res s b Hkb Hen Hres) as Hc.
    apply barrier_bit_mono in E3; [|lia]. apply barrier_bit_mono in E3; [|lia].
    fold s1 in Hc. congruence.
  - assert (Hen1 : enabled (rdpq_config s1) tmem_bank = true).
    { subst s1. rewrite barrier_config. exact Hen. }
    pose proof (barrier_clears tmem_bank res s1 b Hkb Hen1 Hres) as Hc.
    apply barrier_bit_mono in E3; [|lia]. fold s2 in Hc. congruence.
  - assert (Hen2 : enabled (rdpq_config s2) pipeline = true).
    { subst s2 s1. rewrite !barrier_config. exact Hen. }
    pose proof (barrier_clears pipeline res s2 b Hkb Hen2 Hres) as Hc. congruence.
Qed.

(** *** The marking *)

Lemma mark_stream k' res s : stream (autosync_mark k' res s) = stream s.
Proof. unfold autosync_mark. destruct (enabled (rdpq_config s) k'); reflexivity. Qed.

Lemma mark_config k' res s : rdpq_config (autosync_mark k' res s) = rdpq_config s.
Proof. unfold autosync_mark. destruct (enabled (rdpq_config s) k'); reflexivity. Qed.

Lemma mark_bit k' res s b k :
  resource_of_bit b = Some k ->
  Z.testbit (rdpq_autosync_state (autosync_mark k' res s)) b
  = Z.testbit (rdpq_autosync_state s) b
    || (same_resource k' k && enabled (rdpq_config s) k' && Z.testbit res b).
Proof.
  intros Hkb. unfold autosync_mark.
  destruct (enabled (rdpq_config s) k'); cbn.
  - rewrite Z.lor_spec, Z.land_spec, (mask_testbit_class k' b k Hkb).
    destruct (same_resource k' k), (Z.testbit res b); reflexivity.
  - rewrite andb_false_r. cbn. rewrite orb_false_r. reflexivity.
Qed.

Lemma use_stream res s : stream (__rdpq_autosync_use res s) = stream s.
Proof. unfold __rdpq_autosync_use. rewrite !mark_stream. reflexivity. Qed.

Lemma use_config res s : rdpq_config (__rdpq_autosync_use res s) = rdpq_config s.
Proof. unfold __rdpq_autosync_use. rewrite !mark_config. reflexivity. Qed.

Lemma use_bit res s b k :
  resource_of_bit b = Some k ->
  Z.testbit (rdpq_autosync_state (__rdpq_autosync_use res s)) b
  = Z.testbit (rdpq_autosync_state s) b
    || (enabled (rdpq_config s) k && Z.testbit res b).
Proof.
  intros Hkb. unfold __rdpq_autosync_use.
  rewrite !(mark_bit _ _ _ b k Hkb), !mark_config.
  destruct k; cbn; rewrite ?orb_false_r; reflexivity.
Qed.

(** *** One call *)

Lemma change_zero s : __rdpq_autosync_change 0 s = s.
Proof.
  unfold __rdpq_autosync_change, autosync_barrier. cbn.
  rewrite !andb_false_r. reflexivity.
Qed.

Lemma use_zero s : __rdpq_autosync_use 0 s = s.
Proof.
  destruct s as [cfg st l].
  unfold __rdpq_autosync_use, autosync_mark. cbn.
  destruct (enabled cfg tile_descriptor); cbn; rewrite ?Z.lor_0_r;
    destruct (enabled cfg tmem_bank); cbn; rewrite ?Z.lor_0_r;
    destruct (enabled cfg pipeline); cbn; rewrite ?Z.lor_0_r; reflexivity.
Qed.

(** Every call is a check, a marking and a write, with the masks it declares. *)
Lemma run_call_normal c s :
  run_call c s
  = rdpq_write (command_of c)
      (__rdpq_autosync_use (uses (command_of c))
         (__rdpq_autosync_change (changes (command_of c)) s)).
Proof.
  destruct c; cbn [run_call command_of uses changes];
    rewrite ?change_zero, ?use_zero; reflexivity.
Qed.

Lemma not_a_barrier_sync c k :
  not_a_barrier c = true -> is_sync k (command_of c) = false.
Proof.
  unfold not_a_barrier, is_sync. intros Hn.
  apply andb_prop in Hn as [Hn Hpipe]. apply andb_prop in Hn as [Htile Hload].
  assert (Hcmd : cmd (command_of c) = call_cmd c) by (destruct c; reflexivity).
  rewrite Hcmd. apply negb_true_iff in Htile, Hload, Hpipe.
  destruct k; assumption.
Qed.

Lemma call_sound cfg k b c s :
  resource_of_bit b = Some k ->
  enabled cfg k = true ->
  sound_pending cfg k b s ->
  sound_pending cfg k b (run_call c s).
Proof.
  intros Hkb Hen Hs. rewrite run_call_normal.
  set (e := command_of c).
  pose proof (change_sound cfg k b (changes e) s Hkb Hs) as (Hcfg1 & Hp1 & Hbb1).
  set (s1 := __rdpq_autosync_change (changes e) s) in *.
  assert (Hclear : requires b e = true -> pending k b (stream s1) = false).
  { intros Hreq. destruct (pending k b (stream s1)) eqn:Hp; [|reflexivity].
    assert (Hen0 : enabled (rdpq_config s) k = true).
    { destruct Hs as (-> & _). exact Hen. }
    pose proof (change_clears k b (changes e) s Hkb Hen0 Hreq) as Hc.
    fold s1 in Hc. rewrite (Hp1 eq_refl) in Hc. discriminate. }
  unfold sound_pending, rdpq_write.
  cbn [rdpq_config rdpq_autosync_state stream].
  rewrite use_config, use_stream, (use_bit _ _ b k Hkb), Hcfg1, Hen.
  split; [reflexivity|]. split.
  - rewrite pending_snoc. unfold pending_step, marks.
    destruct (Z.testbit (uses e) b); [intros _; apply orb_true_r|].
    destruct (is_sync k e); [discriminate|].
    intros Hp. rewrite (Hp1 Hp). reflexivity.
  - apply barrier_between_snoc; assumption.
Qed.

Lemma call_complete k c s :
  not_a_barrier c = true ->
  complete_pending k s ->
  complete_pending k (run_call c s).
Proof.
  intros Hn Hs. rewrite run_call_normal.
  set (e := command_of c).
  pose proof (not_a_barrier_sync c k Hn) as Hsync. fold e in Hsync.
  pose proof (change_complete k (changes e) s Hs) as (Hp1 & Hbj1).
  set (s1 := __rdpq_autosync_change (changes e) s) in *.
  unfold complete_pending, rdpq_write.
  cbn [rdpq_config rdpq_autosync_state stream].
  rewrite use_stream. split.
  - intros b Hkb. rewrite (use_bit _ _ b k Hkb), pending_snoc.
    unfold pending_step, marks. rewrite Hsync.
    destruct (Z.testbit (uses e) b); [reflexivity|].
    rewrite andb_false_r, orb_false_r. apply Hp1. exact Hkb.
  - apply barrier_justified_snoc; [exact Hbj1|]. rewrite Hsync. discriminate.
Qed.

(** *** Any interleaving of calls *)

Lemma run_sound cfg k b calls s :
  resource_of_bit b = Some k ->
  enabled cfg k = true ->
  sound_pending cfg k b s ->
  sound_pending cfg k b (run calls s).
Proof.
  intros Hkb Hen. revert s.
  induction calls as [|c calls IH]; intros s Hs; [exact Hs|].
  cbn. apply IH. apply call_sound; assumption.
Qed.

Lemma run_complete k calls s :
  forallb not_a_barrier calls = true ->
  complete_pending k s ->
  complete_pending k (run calls s).
Proof.
  revert s. induction calls as [|c calls IH]; intros s Hn Hs; [exact Hs|].
  cbn in Hn. apply andb_prop in Hn as [Hc Hn].
  cbn. apply IH; [exact Hn|]. apply call_complete; assumption.
Qed.

Lemma init_sound cfg k b : sound_pending cfg k b (init cfg).
Proof.
  split; [reflexivity|]. split; [discriminate|].
  intros pre x mid y post Heq. cbn in Heq.
  destruct pre; discriminate.
Qed.

Lemma init_complete cfg k : complete_pending k (init cfg).
Proof.
  split.
  - intros b _. cbn. rewrite Z.bits_0. discriminate.
  - intros pre y post Heq. cbn in Heq. destruct pre; discriminate.
Qed.

(** *** The barriers one check inserts *)

Lemma barrier_stream k res s :
  stream (autosync_barrier k res s) = stream s ++ inserted k (fired k res s).
Proof.
  unfold autosync_barrier, fired, inserted.
  destruct (enabled (rdpq_config s) k
            && negb (Z.land (Z.land res (rdpq_autosync_state s)) (resource_mask k) =? 0)).
  - reflexivity.
  - symmetry. apply app_nil_r.
Qed.

Lemma fired_bit k res s :
  fired k res s = true ->
  enabled (rdpq_config s) k = true
  /\ exists b,
       resource_of_bit b = Some k
       /\ Z.testbit res b = true /\ Z.testbit (rdpq_autosync_state s) b = true.
Proof.
  unfold fired. intros Hf. apply andb_prop in Hf as [Hen Hnz].
  split; [exact Hen|]. apply nonzero_has_bit.
  apply negb_true_iff in Hnz. apply Z.eqb_neq. exact Hnz.
Qed.

(** What a barrier-requiring use adds to the stream: at most one barrier of
    each class, tile descriptors first, and one of class [k] only for a bit
    of class [k] that the command needs and that the mask had set. *)
Lemma change_stream res s :
  exists f1 f2 f3 : bool,
    stream (__rdpq_autosync_change res s)
    = stream s ++ inserted tile_descriptor f1 ++ inserted tmem_bank f2
               ++ inserted pipeline f3
    /\ forall k,
         (match k with tile_descriptor => f1 | tmem_bank => f2 | pipeline => f3 end) = true ->
         enabled (rdpq_config s) k = true
         /\ exists b,
              resource_of_bit b = Some k
              /\ Z.testbit res b = true
              /\ Z.testbit (rdpq_autosync_state s) b = true.
Proof.
  unfold __rdpq_autosync_change.
  set (s1 := autosync_barrier tile_descriptor res s).
  set (s2 := autosync_barrier tmem_bank res s1).
  exists (fired tile_descriptor res s), (fired tmem_bank res s1), (fired pipeline res s2).
  split.
  - rewrite (barrier_stream pipeline res s2). subst s2.
    rewrite (barrier_stream tmem_bank res s1). subst s1.
    rewrite (barrier_stream tile_descriptor res s).
    rewrite <- !app_assoc. reflexivity.
  - intros k Hf. destruct k.
    + apply fired_bit. exact Hf.
    + apply fired_bit in Hf as (Hen & b & Hkb & Hres & Hst).
      pose proof (resource_of_bit_range b _ Hkb) as Hb.
      split; [subst s1; rewrite barrier_config in Hen; exact Hen|].
      exists b. split; [exact Hkb|]. split; [exact Hres|].
      subst s1. apply barrier_bit_mono in Hst; [exact Hst | lia].
    + apply fired_bit in Hf as (Hen & b & Hkb & Hres & Hst).
      pose proof (resource_of_bit_range b _ Hkb) as Hb.
      split; [subst s2 s1; rewrite !barrier_config in Hen; exact Hen|].
      exists b. split; [exact Hkb|]. split; [exact Hres|].
      subst s2 s1. apply barrier_bit_mono in Hst; [|lia].
      apply barrier_bit_mono in Hst; [exact Hst | lia].
Qed.

Lemma is_barrier_sync k : is_barrier (sync_command k) = true.
Proof. destruct k; reflexivity. Qed.

Lemma not_a_barrier_command c :
  not_a_barrier c = true -> is_barrier (command_of c) = false.
Proof.
  intros Hn. unfold is_barrier.
  rewrite !(not_a_barrier_sync c _ Hn). reflexivity.
Qed.

Lemma inserted_barriers k f : Forall (fun c => is_barrier c = true) (inserted k f).
Proof.
  destruct f; cbn; [|constructor].
  constructor; [apply is_barrier_sync | constructor].
Qed.

Lemma inserted_other k k' f :
  same_resource k k' = false ->
  Forall (fun c => is_sync k c = false) (inserted k' f).
Proof.
  intros Hne. destruct f; cbn; [|constructor].
  constructor; [rewrite is_sync_sync; exact Hne | constructor].
Qed.

(** Where a barrier of class [k] sits among the barriers of one check. *)
Lemma inserted_split k f1 f2 f3 B1 y B2 :
  inserted tile_descriptor f1 ++ inserted tmem_bank f2 ++ inserted pipeline f3
  = B1 ++ y :: B2 ->
  is_sync k y = true ->
  (match k with tile_descriptor => f1 | tmem_bank => f2 | pipeline => f3 end) = true
  /\ Forall (fun c => is_sync k c = false) B1
  /\ Forall (fun c => is_barrier c = true) B2.
Proof.
  intros Heq Hy.
  assert (Hall : Forall (fun c => is_barrier c = true) (B1 ++ y :: B2)).
  { rewrite <- Heq. rewrite !Forall_app.
    split; [|split]; apply inserted_barriers. }
  apply Forall_app in Hall as [_ Hall]. apply Forall_cons in Hall as [_ HB2].
  split; [|split; [|exact HB2]].
  - destruct f1, f2, f3, k; try reflexivity; exfalso; cbn in Heq;
      repeat (destruct B1 as [|? B1]; cbn in Heq; try discriminate;
              try (injection Heq as <- Heq; try discriminate Hy)).
  - destruct f1, f2, f3; cbn in Heq;
      repeat (destruct B1 as [|? B1]; cbn in Heq; try discriminate;
              try (injection Heq as ? Heq; subst));
      try (constructor 1);
      destruct k; try discriminate Hy;
      repeat (constructor; try reflexivity).
Qed.

(** *** The cause of a barrier, over one call *)

Lemma split_in_app {A} (pre post l1 l2 : list A) (y : A) :
  pre ++ y :: post = l1 ++ l2 ->
  (exists post1, l1 = pre ++ y :: post1 /\ post = post1 ++ l2)
  \/ (exists pre2, pre = l1 ++ pre2 /\ l2 = pre2 ++ y :: post).
Proof.
  revert l1. induction pre as [|a pre IH]; intros l1 Heq.
  - destruct l1 as [|b l1]; cbn in Heq.
    + right. exists []. split; [reflexivity | symmetry; exact Heq].
    + injection Heq as <- ->. left. exists l1. split; reflexivity.
  - destruct l1 as [|b l1]; cbn in Heq.
    + right. exists (a :: pre). split; [reflexivity | symmetry; exact Heq].
    + injection Heq as <- Heq. destruct (IH l1 Heq) as [(post1 & -> & ->) | (pre2 & -> & ->)].
      * left. exists post1. split; reflexivity.
      * right. exists pre2. split; reflexivity.
Qed.

Lemma barrier_has_cause_call k c s :
  not_a_barrier c = true ->
  complete_pending k s ->
  barrier_has_cause k (stream s) ->
  barrier_has_cause k (stream (run_call c s)).
Proof.
  intros Hn (Hp & _) Hold. rewrite run_call_normal.
  set (e := command_of c).
  pose proof (not_a_barrier_command c Hn) as He. fold e in He.
  pose proof (not_a_barrier_sync c k Hn) as Hek. fold e in Hek.
  unfold rdpq_write. cbn [stream]. rewrite use_stream.
  destruct (change_stream (changes e) s) as (f1 & f2 & f3 & -> & Hcause).
  set (B := inserted tile_descriptor f1 ++ inserted tmem_bank f2
              ++ inserted pipeline f3) in *.
  assert (HB : Forall (fun c => is_barrier c = true) B).
  { subst B. rewrite !Forall_app. split; [|split]; apply inserted_barriers. }
  intros pre y post Heq Hy.
  rewrite <- app_assoc in Heq. symmetry in Heq.
  apply split_in_app in Heq as [(post1 & Hs & ->) | (pre2 & -> & Heq)].
  - (* a barrier already in the stream before the call *)
    destruct (Hold pre y post1 Hs Hy)
      as (b & pre1 & x & mid & syncs & z & post' & Hkb & Hpre & Hx & Hmid
          & -> & Hsyncs & Hz & Hreq).
    exists b, pre1, x, mid, syncs, z, (post' ++ B ++ [e]).
    split; [exact Hkb|]. split; [exact Hpre|]. split; [exact Hx|].
    split; [exact Hmid|]. split; [|split; [exact Hsyncs|split; [exact Hz | exact Hreq]]].
    rewrite <- app_assoc. reflexivity.
  - symmetry in Heq.
    apply split_in_app in Heq as [(post1 & HB1 & ->) | (pre3 & _ & Heq)].
    + (* a barrier inserted by this call *)
      destruct (inserted_split k f1 f2 f3 pre2 y post1 HB1 Hy) as (Hf & Hpre2 & Hpost1).
      destruct (Hcause k Hf) as (_ & b & Hkb & Hres & Hst).
      destruct (split_of_pending k b (stream s) (Hp b Hkb Hst))
        as (pre1 & x & mid & Hsplit & Hx & Hmid).
      exists b, pre1, x, (mid ++ pre2), post1, e, [].
      split; [exact Hkb|]. split.
      { rewrite Hsplit, <- app_assoc. reflexivity. }
      split; [exact Hx|]. split; [apply Forall_app; split; assumption|].
      split; [reflexivity|]. split; [exact Hpost1|]. split; [exact He | exact Hres].
    + (* the command of the call is no barrier *)
      exfalso. destruct pre3 as [|a pre3]; cbn in Heq.
      * injection Heq as -> _. congruence.
      * injection Heq as _ Heq. destruct pre3; discriminate.
Qed.

(** *** The cause of a barrier, over any interleaving of calls *)

Lemma run_has_cause k calls s :
  forallb not_a_barrier calls = true ->
  complete_pending k s ->
  barrier_has_cause k (stream s) ->
  barrier_has_cause k (stream (run calls s)).
Proof.
  revert s. induction calls as [|c calls IH]; intros s Hn Hs Hc; [exact Hc|].
  cbn in Hn. apply andb_prop in Hn as [Hc1 Hn].
  cbn. apply IH; [exact Hn | apply call_complete; assumption |].
  apply barrier_has_cause_call; assumption.
Qed.

Lemma init_has_cause cfg k : barrier_has_cause k (stream (init cfg)).
Proof. intros pre y post Heq. cbn in Heq. destruct pre; discriminate. Qed.

(** A class whose autosync flag is off gets no barrier from the tracker. *)
Lemma run_call_disabled k c s :
  enabled (rdpq_config s) k = false ->
  not_a_barrier c = true ->
  Forall (fun x => is_sync k x = false) (stream s) ->
  rdpq_config (run_call c s) = rdpq_config s
  /\ Forall (fun x => is_sync k x = false) (stream (run_call c s)).
Proof.
  intros Hoff Hn Hs. rewrite run_call_normal.
  set (e := command_of c).
  pose proof (not_a_barrier_sync c k Hn) as Hek. fold e in Hek.
  unfold rdpq_write. cbn [stream rdpq_config].
  rewrite use_stream, use_config, change_config. split; [reflexivity|].
  destruct (change_stream (changes e) s) as (f1 & f2 & f3 & -> & Hcause).
  rewrite !Forall_app. split; [split; [exact Hs|]|].
  - assert (Hf : (match k with tile_descriptor => f1 | tmem_bank => f2 | pipeline => f3 end)
                 = false).
    { destruct (match k with tile_descriptor => f1 | tmem_bank => f2 | pipeline => f3 end)
        eqn:E; [|reflexivity].
      destruct (Hcause k E) as [Hen _]. congruence. }
    split; [|split].
    + destruct k; [rewrite Hf; constructor | |]; apply inserted_other; reflexivity.
    + destruct k; [|rewrite Hf; constructor|]; apply inserted_other; reflexivity.
    + destruct k; [| |rewrite Hf; constructor]; apply inserted_other; reflexivity.
  - constructor; [exact Hek | constructor].
Qed.

Lemma run_disabled k calls s :
  enabled (rdpq_config s) k = false ->
  forallb not_a_barrier calls = true ->
  Forall (fun x => is_sync k x = false) (stream s) ->
  Forall (fun x => is_sync k x = false) (stream (run calls s)).
Proof.
  revert s. induction calls as [|c calls IH]; intros s Hoff Hn Hs; [exact Hs|].
  cbn in Hn. apply andb_prop in Hn as [Hc Hn].
  destruct (run_call_disabled k c s Hoff Hc Hs) as [Hcfg Hs'].
  cbn. apply IH; [rewrite Hcfg; exact Hoff | exact Hn | exact Hs'].
Qed.

(** The first command behind a run of barriers is determined. *)
Lemma first_command_unique (s1 s2 p1 p2 : list command) z1 z2 :
  s1 ++ z1 :: p1 = s2 ++ z2 :: p2 ->
  Forall (fun c => is_barrier c = true) s1 ->
  Forall (fun c => is_barrier c = true) s2 ->
  is_barrier z1 = false -> is_barrier z2 = false ->
  z1 = z2.
Proof.
  revert s2. induction s1 as [|a s1 IH]; intros s2 Heq H1 H2 Hz1 Hz2.
  - destruct s2 as [|c s2]; cbn in Heq.
    + injection Heq as -> _. reflexivity.
    + injection Heq as -> _. apply Forall_cons in H2 as [Hc _]. congruence.
  - apply Forall_cons in H1 as [Ha H1].
    destruct s2 as [|c s2]; cbn in Heq.
    + injection Heq as -> _. congruence.
    + injection Heq as _ Heq. apply Forall_cons in H2 as [_ H2].
      apply (IH s2 Heq H1 H2 Hz1 Hz2).
Qed.

Lemma cause_only_after_mark k b l :
  barrier_has_cause k l -> barrier_only_after_mark k b l.
Proof.
  intros Hc pre y syncs z post Heq Hy Hsyncs Hz Honly.
  destruct (Hc pre y (syncs ++ z :: post) Heq Hy)
    as (b0 & pre1 & x & mid & syncs' & z' & post' & Hkb & Hpre & Hx & Hmid
        & Hpost & Hsyncs' & Hz' & Hreq).
  assert (Ezz : z = z') by
    (apply (first_command_unique syncs syncs' post post' z z' Hpost); assumption).
  subst z'. rewrite (Honly b0 Hkb Hreq) in Hx.
  exists pre1, x, mid. split; [exact Hpre|]. split; [exact Hx | exact Hmid].
Qed.

(** C3, on the tracker of the spec.  From the initial tracker and for any
    sequence of calls, for a bit [b] of class [k]: while autosync is on for
    [k], a barrier of class [k] lies strictly between any command that marks
    [b] and any later command that needs a barrier on [b].  And, when the
    calls are not themselves barrier commands, no barrier appears for a bit
    that was not marked since the last barrier: every barrier of class [k]
    stands in front of a command that needs a barrier on a bit of class [k]
    which was marked with no barrier of class [k] since, and where that
    command needs a barrier on [b] alone, the bit is [b]. *)
Theorem hazard_barriers cfg calls b k :
  resource_of_bit b = Some k ->
  (enabled cfg k = true ->
   barrier_between k b (stream (run calls (init cfg))))
  /\ (forallb not_a_barrier calls = true ->
      barrier_has_cause k (stream (run calls (init cfg)))
      /\ barrier_only_after_mark k b (stream (run calls (init cfg)))).
Proof.
  intros Hkb. split.
  - intros Hen.
    apply (run_sound cfg k b calls (init cfg) Hkb Hen (init_sound cfg k b)).
  - intros Hn.
    pose proof (run_has_cause k calls (init cfg) Hn (init_complete cfg k)
                  (init_has_cause cfg k)) as Hc.
    split; [exact Hc | apply cause_only_after_mark; exact Hc].
Qed.

(** With autosync on, the pipeline barrier is inserted between the fill
    rectangle, which marks the pipeline bit, and the combiner change, which
    needs a barrier on it. *)
Lemma hazard_barriers_witness :
  map cmd (stream (run draw_then_reconfigure (init cfg_autosync_all)))
  = [0x36; 0x27; 0x3C]
  /\ barrier_between pipeline 16
       (stream (run draw_then_reconfigure (init cfg_autosync_all)))
  /\ barrier_has_cause pipeline
       (stream (run draw_then_reconfigure (init cfg_autosync_all)))
  /\ barrier_only_after_mark pipeline 16
       (stream (run draw_then_reconfigure (init cfg_autosync_all))).
Proof.
  split; [vm_compute; reflexivity|].
  destruct (hazard_barriers cfg_autosync_all draw_then_reconfigure 16 pipeline)
    as [Hbetween Hcause].
  - reflexivity.
  - split.
    + apply Hbetween. vm_compute. reflexivity.
    + apply Hcause. vm_compute. reflexivity.
Defined.

(** A class whose autosync flag is off is left to the caller: the tracker
    puts no barrier of that class in the stream. *)
Lemma disabled_class_no_barrier cfg calls k :
  enabled cfg k = false ->
  forallb not_a_barrier calls = true ->
  Forall (fun x => is_sync k x = false) (stream (run calls (init cfg))).
Proof.
  intros Hoff Hn. apply run_disabled; [exact Hoff | exact Hn | constructor].
Qed.

(** The first half needs autosync on for the class.  With autosync off for
    the pipeline, the fill rectangle marks the pipeline bit, the combiner
    change needs a barrier on it, and the emitted stream is those two
    commands with nothing between: the barrier is the caller's to issue. *)
Lemma no_barrier_with_autosync_off :
  resource_of_bit 16 = Some pipeline
  /\ enabled cfg_no_autosync_pipe pipeline = false
  /\ map cmd (stream (run draw_then_reconfigure (init cfg_no_autosync_pipe)))
     = [0x36; 0x3C]
  /\ ~ barrier_between pipeline 16
        (stream (run draw_then_reconfigure (init cfg_no_autosync_pipe))).
Proof.
  split; [reflexivity|]. split; [reflexivity|]. split; [vm_compute; reflexivity|].
  intros Hbb.
  set (l := stream (run draw_then_reconfigure (init cfg_no_autosync_pipe))) in *.
  assert (Hl : exists x y, l = [] ++ x :: [] ++ y :: []
                           /\ marks 16 x = true /\ requires 16 y = true).
  { eexists _, _. split; [vm_compute; reflexivity|].
    split; vm_compute; reflexivity. }
  destruct Hl as (x & y & Hl & Hx & Hy).
  specialize (Hbb [] x [] y [] Hl Hx Hy).
  apply Exists_nil in Hbb. exact Hbb.
Qed.

End HazardFacts.

(** ** Matrix stacks and capability flags *)

Module GlFacts.
Import Gl.

Section WithHeaders.
Context `{H : headers}.

Lemma gl_set_error_run e s :
  e <> 0 -> gl_set_error e s = Ok tt (set_current_error e s).
Proof.
  intros He. unfold gl_set_error, bind, modify, assertf.
  destruct (Z.eqb_spec e 0); [contradiction | reflexivity].
Qed.

Lemma int32_small z : - 2 ^ 31 <= z < 2 ^ 31 -> int32 z = z.
Proof. intros Hz. unfold int32. rewrite Z.mod_small by lia. lia. Qed.

(** C8. A pop on an empty stack (depth 0) reports [GL_STACK_UNDERFLOW] and
    a push on a full stack (depth [size - 1]) reports [GL_STACK_OVERFLOW];
    either call returns with [current_error] set and every other part of the
    state, the current matrix and the depth of each stack included, as it
    was.  The two error enumerants are not zero and the stack has at least
    one and fewer than 2^31 entries. *)
Theorem matrix_stack_bounds s :
  GL_STACK_OVERFLOW <> 0 -> GL_STACK_UNDERFLOW <> 0 ->
  let stack := deref (current_matrix_stack s) s in
  0 < size stack < 2 ^ 31 ->
  (cur_depth stack = 0 ->
   glPopMatrix s = Ok tt (set_current_error GL_STACK_UNDERFLOW s)
   /\ current_error (set_current_error GL_STACK_UNDERFLOW s) = GL_STACK_UNDERFLOW
   /\ current_configuration (set_current_error GL_STACK_UNDERFLOW s)
      = current_configuration s
   /\ current_matrix (set_current_error GL_STACK_UNDERFLOW s) = current_matrix s
   /\ deref (current_matrix_stack s) (set_current_error GL_STACK_UNDERFLOW s) = stack)
  /\ (cur_depth stack = size stack - 1 ->
      glPushMatrix s = Ok tt (set_current_error GL_STACK_OVERFLOW s)
      /\ current_error (set_current_error GL_STACK_OVERFLOW s) = GL_STACK_OVERFLOW
      /\ current_configuration (set_current_error GL_STACK_OVERFLOW s)
         = current_configuration s
      /\ current_matrix (set_current_error GL_STACK_OVERFLOW s) = current_matrix s
      /\ deref (current_matrix_stack s) (set_current_error GL_STACK_OVERFLOW s) = stack).
Proof.
  intros Hov Hun stack Hsize. split.
  - intros Hempty.
    split; [|split; [reflexivity|split; [reflexivity|split; [reflexivity|]]]].
    + unfold glPopMatrix, bind, gets. fold stack.
      rewrite int32_small by lia.
      destruct (Z.ltb_spec (cur_depth stack - 1) 0); [|lia].
      apply gl_set_error_run. exact Hun.
    + subst stack. destruct (current_matrix_stack s); reflexivity.
  - intros Hfull.
    split; [|split; [reflexivity|split; [reflexivity|split; [reflexivity|]]]].
    + unfold glPushMatrix, bind, gets. fold stack.
      rewrite int32_small by lia.
      destruct (Z.leb_spec (size stack) (cur_depth stack + 1)); [|lia].
      apply gl_set_error_run. exact Hov.
    + subst stack. destruct (current_matrix_stack s); reflexivity.
Qed.

(** C10. With distinct case labels, [glDisable(GL_BLEND)] clears the blend
    flag and returns, while [glEnable(GL_BLEND)] sets the blend flag and then
    runs on into the assertion of the logic-op cases, which fails. *)
Theorem gl_blend_falls_through s :
  NoDup gl_set_flag_labels ->
  glDisable GL_BLEND s = Ok tt (set_blend false s)
  /\ glEnable GL_BLEND s
     = AssertFail "Logical pixel operation is not supported!" (set_blend true s)
  /\ blend (set_blend true s) = true.
Proof.
  intros Hnd. unfold gl_set_flag_labels in Hnd.
  apply NoDup_cons in Hnd as [H1 Hnd]. apply NoDup_cons in Hnd as [H2 Hnd].
  apply NoDup_cons in Hnd as [H3 Hnd]. apply NoDup_cons in Hnd as [H4 _].
  rewrite !not_elem_of_cons in H1, H2, H3, H4.
  assert (E1 : (GL_BLEND =? GL_SCISSOR_TEST) = false) by (apply Z.eqb_neq; intuition congruence).
  assert (E2 : (GL_BLEND =? GL_CULL_FACE) = false) by (apply Z.eqb_neq; intuition congruence).
  assert (E3 : (GL_BLEND =? GL_DEPTH_TEST) = false) by (apply Z.eqb_neq; intuition congruence).
  assert (E4 : (GL_BLEND =? GL_TEXTURE_2D) = false) by (apply Z.eqb_neq; intuition congruence).
  unfold glDisable, glEnable, gl_set_flag.
  rewrite E1, E2, E3, E4, Z.eqb_refl.
  repeat split; reflexivity.
Qed.

End WithHeaders.

#[local] Existing Instance gl11_headers.

(** Underflow on the fresh model-view stack, overflow on the full projection
    stack. *)
Lemma matrix_stack_bounds_witness :
  (glPopMatrix gl_fresh = Ok tt (set_current_error 0x0504 gl_fresh)
   /\ current_configuration (set_current_error 0x0504 gl_fresh) = Some (tagged_matrix 1))
  /\ (glPushMatrix gl_projection_full
      = Ok tt (set_current_error 0x0503 gl_projection_full)
      /\ cur_depth (projection_stack (set_current_error 0x0503 gl_projection_full)) = 1).
Proof.
  split.
  - destruct (matrix_stack_bounds (H := gl11_headers) gl_fresh) as [Hpop _].
    + vm_compute. discriminate.
    + vm_compute. discriminate.
    + vm_compute. split; reflexivity.
    + destruct Hpop as (Hrun & _); [vm_compute; reflexivity|].
      split; [exact Hrun|]. vm_compute. reflexivity.
  - destruct (matrix_stack_bounds (H := gl11_headers) gl_projection_full) as [_ Hpush].
    + vm_compute. discriminate.
    + vm_compute. discriminate.
    + vm_compute. split; reflexivity.
    + destruct Hpush as (Hrun & _); [vm_compute; reflexivity|].
      split; [exact Hrun | reflexivity].
Defined.

Lemma gl11_labels_distinct : NoDup (gl_set_flag_labels (H := gl11_headers)).
Proof.
  unfold gl_set_flag_labels. cbn.
  repeat (apply NoDup_cons; split;
          [rewrite ?not_elem_of_cons; repeat split;
           first [discriminate | apply not_elem_of_nil]|]).
  apply NoDup_nil. exact I.
Qed.

Lemma gl_blend_falls_through_witness :
  glDisable 0x0BE2 gl_fresh = Ok tt (set_blend false gl_fresh)
  /\ glEnable 0x0BE2 gl_fresh
     = AssertFail "Logical pixel operation is not supported!" (set_blend true gl_fresh).
Proof.
  destruct (gl_blend_falls_through (H := gl11_headers) gl_fresh gl11_labels_distinct)
    as (Hdis & Hen & _).
  split; [exact Hdis | exact Hen].
Defined.

End GlFacts.

(** ** The overlay table and the queueing functions *)

Module DlMoreFacts.
Import Dl DlMore.

Lemma load_app_l {A} (l1 l2 : list A) i :
  i < Z.of_nat (length l1) -> load (l1 ++ l2) i = load l1 i.
Proof.
  intros Hi. unfold load. destruct (Z.leb_spec 0 i); [|reflexivity].
  apply lookup_app_l. lia.
Qed.

Lemma load_app_r {A} (l1 l2 : list A) i :
  Z.of_nat (length l1) <= i -> load (l1 ++ l2) i = load l2 (i - Z.of_nat (length l1)).
Proof.
  intros Hi. unfold load.
  destruct (Z.leb_spec 0 i); [|lia].
  destruct (Z.leb_spec 0 (i - Z.of_nat (length l1))); [|lia].
  rewrite lookup_app_r by lia. f_equal. lia.
Qed.

Lemma load_cons_0 {A} (x : A) l : load (x :: l) 0 = Some x.
Proof. reflexivity. Qed.

Lemma load_cons_S {A} (x : A) l i : 0 < i -> load (x :: l) i = load l (i - 1).
Proof.
  intros Hi. change (x :: l) with ([x] ++ l). rewrite load_app_r by (cbn; lia).
  reflexivity.
Qed.

Section WithHeaders.
Context `{H : headers}.

Ltac buffers Hidx :=
  unfold active_start, other_start, buffer_start in *;
  destruct Hidx as [Hidx | Hidx]; rewrite ?Hidx in *; lia.

(** A commit from a state whose cursor word need not be a terminator. *)
Lemma commit_run s dl :
  terminator_ok -> sizes_ok ->
  Z.of_nat (length (dl_buffers s)) = 2 * DL_DRAM_BUFFER_SIZE ->
  dl_buf_idx s = 0 \/ dl_buf_idx s = 1 ->
  dl_sentinel s = active_start s + DL_DRAM_BUFFER_SIZE - DL_MAX_COMMAND_SIZE ->
  active_start s <= dl < active_start s + DL_DRAM_BUFFER_SIZE ->
  dl + 1 < 2 * DL_DRAM_BUFFER_SIZE ->
  exists s',
    dl_write_end dl s = Ok tt s' /\ wf s'
    /\ dl_data s' = dl_data s /\ dl_overlay_count s' = dl_overlay_count s
    /\ dl_is_running s' = dl_is_running s
    /\ (dl_sentinel s < dl -> switched s dl s' /\ hw s' = hw s ++ rings 2)
    /\ (dl <= dl_sentinel s -> stayed s dl s' /\ hw s' = hw s ++ rings 1).
Proof.
  intros Hterm Hsz Hlen Hidx Hsen Hdl Hnext. unfold sizes_ok in Hsz.
  destruct (DlFacts.dl_write_end_spec s dl Hterm Hlen Hidx Hdl Hnext) as [Hswitch Hstay].
  destruct (Z.lt_ge_cases (dl_sentinel s) dl) as [Hcross | Hle].
  - destruct (Hswitch Hcross) as (s' & Hrun & Hsw).
    destruct (DlFacts.dl_write_end_switch dl s Hlen Hidx)
      as (w & l1 & l2 & w2 & l3 & l4 & w5 & l5 & _ & _ & _ & _ & _ & _ & _ & _ & Hrun');
      [buffers Hidx | exact Hnext | exact Hcross |].
    exists s'. split; [exact Hrun|].
    rewrite Hrun' in Hrun. injection Hrun as Es.
    split; [|subst s'; cbn [dl_data dl_overlay_count dl_is_running hw dl_sentinel];
             split; [reflexivity|]; split; [reflexivity|]; split; [reflexivity|];
             split; [intros _; split; [exact Hsw | rewrite <- app_assoc; reflexivity]
                    | intros; lia]].
    destruct Hsw as [_ _ _ Hterm' _ Hlen' Hi Ha Hc Hs].
    constructor.
    + rewrite Hlen'. exact Hlen.
    + rewrite Hi. destruct Hidx as [-> | ->]; [right | left]; reflexivity.
    + rewrite Ha, Hc. lia.
    + rewrite Hc, Hs. lia.
    + rewrite Hs, Ha. reflexivity.
    + rewrite Hc. exact Hterm'.
  - destruct (Hstay Hle) as (s' & Hrun & Hst).
    destruct (DlFacts.dl_write_end_stay dl s) as (w & l & _ & _ & Hrun');
      [buffers Hidx | exact Hle |].
    exists s'. split; [exact Hrun|].
    rewrite Hrun' in Hrun. injection Hrun as Es.
    split; [|subst s'; cbn [dl_data dl_overlay_count dl_is_running hw dl_sentinel];
             split; [reflexivity|]; split; [reflexivity|]; split; [reflexivity|];
             split; [intros; lia | intros _; split; [exact Hst | reflexivity]]].
    destruct Hst as [Hterm' _ Hlen' Hi Hc Hs].
    constructor.
    + rewrite Hlen'. exact Hlen.
    + rewrite Hi. exact Hidx.
    + unfold active_start in *. rewrite Hi, Hc. lia.
    + rewrite Hc, Hs. exact Hle.
    + unfold active_start in *. rewrite Hs, Hi. exact Hsen.
    + rewrite Hc. exact Hterm'.
Qed.


Lemma write_words_run ws : forall p s,
  0 <= p -> p + Z.of_nat (length ws) <= Z.of_nat (length (dl_buffers s)) ->
  exists l,
    write_words p ws s = Ok tt (set_dl_buffers l s)
    /\ length l = length (dl_buffers s)
    /\ (forall i, 0 <= i < Z.of_nat (length ws) -> load l (p + i) = load ws i)
    /\ (forall j, j < p \/ p + Z.of_nat (length ws) <= j ->
                  load l j = load (dl_buffers s) j).
Proof.
  induction ws as [|w ws IH]; intros p s Hp Hfit.
  - exists (dl_buffers s). split; [destruct s; reflexivity|].
    split; [reflexivity|]. split; [cbn; intros; lia | reflexivity].
  - cbn [length] in Hfit.
    destruct (DlFacts.write_word_run p w s) as (l0 & Hl0 & Hrun0); [lia|].
    pose proof (store_length _ _ _ _ Hl0) as Len0.
    destruct (IH (p + 1) (set_dl_buffers l0 s)) as (l & Hrun & Len & Hin & Hout);
      [lia | cbn [dl_buffers set_dl_buffers]; lia |].
    cbn [dl_buffers set_dl_buffers] in Len, Hout.
    exists l. split; [|split; [congruence|split]].
    + cbn [write_words]. unfold bind. rewrite Hrun0. exact Hrun.
    + intros i Hi. cbn [length] in Hi.
      destruct (Z.eq_dec i 0) as [-> | Hne].
      * rewrite Z.add_0_r, Hout by lia. apply (load_store_eq _ _ _ _ Hl0).
      * rewrite load_cons_S by lia. rewrite <- Hin by lia. f_equal. lia.
    + intros j Hj. cbn [length] in Hj. rewrite Hout by lia.
      apply (load_store_ne _ _ j _ _ Hl0). lia.
Qed.

Lemma run_queue_call_eq c s :
  run_queue_call c s
  = bind dl_write_begin
      (fun dl => bind (write_words dl (words_of c))
                   (fun _ => dl_write_end (dl + Z.of_nat (length (words_of c))))) s.
Proof.
  destruct c; cbn [run_queue_call words_of length write_words];
    unfold dl_queue_u8, dl_queue_u16, dl_queue_u32, dl_queue_u64, bind,
      dl_write_begin, gets, ret.
  1-3: match goal with |- context [write_word ?p ?v ?st] =>
         destruct (write_word p v st) end; reflexivity.
  match goal with |- context [write_word ?p ?v ?st] =>
    destruct (write_word p v st) as [[] s1| |] end; [|reflexivity|reflexivity].
  match goal with |- context [write_word ?p ?v ?st] =>
    destruct (write_word p v st) end; reflexivity.
Qed.

Lemma words_of_length c : (1 <= length (words_of c) <= 2)%nat.
Proof. destruct c; cbn; lia. Qed.

(** One call of a queueing function on a well-formed transport. *)
Lemma queue_call_run c s :
  terminator_ok -> 4 <= DL_MAX_COMMAND_SIZE <= DL_DRAM_BUFFER_SIZE -> wf s ->
  exists s',
    run_queue_call c s = Ok tt s' /\ wf s'
    /\ dl_data s' = dl_data s /\ dl_overlay_count s' = dl_overlay_count s
    /\ dl_is_running s' = dl_is_running s
    /\ (forall i, 0 <= i < Z.of_nat (length (words_of c)) ->
                  load (dl_buffers s') (dl_cur_pointer s + i) = load (words_of c) i)
    /\ (dl_cur_pointer s + Z.of_nat (length (words_of c)) <= dl_sentinel s ->
        dl_cur_pointer s' = dl_cur_pointer s + Z.of_nat (length (words_of c))
        /\ dl_buf_idx s' = dl_buf_idx s
        /\ dl_sentinel s' = dl_sentinel s
        /\ (forall j, j < dl_cur_pointer s
                      \/ dl_cur_pointer s + Z.of_nat (length (words_of c)) < j ->
                      load (dl_buffers s') j = load (dl_buffers s) j)
        /\ hw s' = hw s ++ rings 1)
    /\ (dl_sentinel s < dl_cur_pointer s + Z.of_nat (length (words_of c)) ->
        dl_buf_idx s' = 1 - dl_buf_idx s
        /\ dl_cur_pointer s' = other_start s
        /\ load (dl_buffers s') (dl_cur_pointer s + Z.of_nat (length (words_of c)))
           = Some (jump_word (other_start s))
        /\ (forall j, active_start s <= j < dl_cur_pointer s ->
                      load (dl_buffers s') j = load (dl_buffers s) j)
        /\ (forall j, other_start s < j < other_start s + DL_DRAM_BUFFER_SIZE ->
                      load (dl_buffers s') j = Some 0)
        /\ hw s' = hw s ++ rings 2).
Proof.
  intros Hterm Hsz Hwf.
  pose proof Hwf as [Hlen Hidx Hlo Hhi Hsen Ht].
  pose proof (words_of_length c) as Hn.
  set (cur := dl_cur_pointer s) in *.
  set (n := Z.of_nat (length (words_of c))) in *.
  assert (Hact : 0 <= active_start s
                 /\ active_start s + DL_DRAM_BUFFER_SIZE <= 2 * DL_DRAM_BUFFER_SIZE).
  { buffers Hidx. }
  destruct (write_words_run (words_of c) cur s) as (l & Hrun1 & Len & Hin & Hout);
    [lia | lia |].
  fold n in Hin, Hout.
  destruct (commit_run (set_dl_buffers l s) (cur + n))
    as (s' & Hrun & Hwf' & Hd & Hc & Hr & Hsw & Hst);
    [ exact Hterm | unfold sizes_ok; lia
    | cbn [dl_buffers set_dl_buffers]; lia
    | exact Hidx
    | exact Hsen
    | change (active_start (set_dl_buffers l s)) with (active_start s); lia
    | lia |].
  cbn [set_dl_buffers dl_data dl_overlay_count dl_is_running dl_sentinel hw
         dl_buffers] in Hd, Hc, Hr, Hsw, Hst.
  exists s'. split.
  { rewrite run_queue_call_eq. unfold bind, dl_write_begin, gets.
    fold cur. rewrite Hrun1. exact Hrun. }
  split; [exact Hwf'|]. split; [exact Hd|]. split; [exact Hc|]. split; [exact Hr|].
  split; [|split].
  - intros i Hi. rewrite <- Hin by exact Hi.
    destruct (Z.lt_ge_cases (dl_sentinel s) (cur + n)) as [Hcross | Hle].
    + destruct (Hsw Hcross) as [Hs' _].
      rewrite (sw_committed _ _ _ Hs'); [reflexivity|].
      change (active_start (set_dl_buffers l s)) with (active_start s). lia.
    + destruct (Hst Hle) as [Hs' _].
      rewrite (st_unchanged _ _ _ Hs') by lia. reflexivity.
  - intros Hle. destruct (Hst Hle) as [Hs' Hhw].
    split; [apply (st_cursor _ _ _ Hs')|].
    split; [apply (st_idx _ _ _ Hs')|].
    split; [apply (st_sentinel _ _ _ Hs')|].
    split; [|exact Hhw].
    intros j Hj. rewrite (st_unchanged _ _ _ Hs') by lia.
    cbn [dl_buffers set_dl_buffers]. apply Hout. lia.
  - intros Hcross. destruct (Hsw Hcross) as [Hs' Hhw].
    split; [apply (sw_idx _ _ _ Hs')|].
    split; [apply (sw_cursor _ _ _ Hs')|].
    split; [apply (sw_jump _ _ _ Hs')|].
    split; [|split; [apply (sw_zero _ _ _ Hs') | exact Hhw]].
    intros j Hj. rewrite (sw_committed _ _ _ Hs').
    + cbn [dl_buffers set_dl_buffers]. apply Hout. lia.
    + change (active_start (set_dl_buffers l s)) with (active_start s). lia.
Qed.

Lemma rings_app n m : rings n ++ rings m = rings (n + m).
Proof. unfold rings. symmetry. apply replicate_add. Qed.

(** X1. Any sequence of calls of the four queueing functions, from a
    well-formed transport with at least four words of headroom, returns: no
    store falls outside [dl_buffers] and no assertion fires. The transport
    is well formed again, the overlay data and the running flag are
    untouched, and all the hardware sees is doorbell writes, one or two per
    call. *)
Theorem queue_calls_safe cs : forall s,
  terminator_ok -> 4 <= DL_MAX_COMMAND_SIZE <= DL_DRAM_BUFFER_SIZE -> wf s ->
  exists s' k,
    run_queue_calls cs s = Ok tt s' /\ wf s'
    /\ dl_data s' = dl_data s /\ dl_overlay_count s' = dl_overlay_count s
    /\ dl_is_running s' = dl_is_running s
    /\ hw s' = hw s ++ rings k
    /\ (length cs <= k <= 2 * length cs)%nat.
Proof.
  induction cs as [|c cs IH]; intros s Hterm Hsz Hwf.
  - exists s, 0%nat. cbn. rewrite app_nil_r.
    split; [reflexivity|]. split; [exact Hwf|]. repeat split; try reflexivity; lia.
  - destruct (queue_call_run c s Hterm Hsz Hwf)
      as (s1 & Hrun1 & Hwf1 & Hd1 & Hc1 & Hr1 & _ & Hst & Hsw).
    destruct (IH s1 Hterm Hsz Hwf1) as (s' & k & Hrun & Hwf' & Hd & Hc & Hr & Hhw & Hk).
    assert (Hk1 : exists k1, hw s1 = hw s ++ rings k1 /\ (1 <= k1 <= 2)%nat).
    { destruct (Z.lt_ge_cases (dl_sentinel s)
                  (dl_cur_pointer s + Z.of_nat (length (words_of c)))) as [Hcross | Hle].
      - exists 2%nat. split; [apply (Hsw Hcross) | lia].
      - exists 1%nat. split; [apply (Hst Hle) | lia]. }
    destruct Hk1 as (k1 & Hhw1 & Hk1).
    exists s', (k1 + k)%nat. split.
    { cbn [run_queue_calls]. unfold bind. rewrite Hrun1. exact Hrun. }
    split; [exact Hwf'|]. split; [congruence|]. split; [congruence|].
    split; [congruence|]. split.
    + rewrite Hhw, Hhw1, <- app_assoc, rings_app. reflexivity.
    + cbn [length]. lia.
Qed.

Lemma stream_of_cons c cs : stream_of (c :: cs) = words_of c ++ stream_of cs.
Proof. reflexivity. Qed.

(** X2. Calls that together stay at or before the sentinel leave their words
    at consecutive addresses from the old cursor on, in call order, change
    no other word but the one at the new cursor, which is a terminator, do
    not switch buffers and ring the doorbell once each. *)
Theorem queue_calls_stream cs : forall s,
  terminator_ok -> 4 <= DL_MAX_COMMAND_SIZE <= DL_DRAM_BUFFER_SIZE -> wf s ->
  dl_cur_pointer s + Z.of_nat (length (stream_of cs)) <= dl_sentinel s ->
  exists s',
    run_queue_calls cs s = Ok tt s' /\ wf s'
    /\ dl_cur_pointer s' = dl_cur_pointer s + Z.of_nat (length (stream_of cs))
    /\ dl_buf_idx s' = dl_buf_idx s
    /\ dl_sentinel s' = dl_sentinel s
    /\ (forall i, 0 <= i < Z.of_nat (length (stream_of cs)) ->
                  load (dl_buffers s') (dl_cur_pointer s + i) = load (stream_of cs) i)
    /\ (forall j, j < dl_cur_pointer s
                  \/ dl_cur_pointer s + Z.of_nat (length (stream_of cs)) < j ->
                  load (dl_buffers s') j = load (dl_buffers s) j)
    /\ hw s' = hw s ++ rings (length cs).
Proof.
  induction cs as [|c cs IH]; intros s Hterm Hsz Hwf Hroom.
  - exists s. cbn. rewrite app_nil_r, Z.add_0_r.
    split; [reflexivity|]. split; [exact Hwf|].
    repeat split; try reflexivity. intros; lia.
  - rewrite stream_of_cons, length_app in *.
    destruct (queue_call_run c s Hterm Hsz Hwf)
      as (s1 & Hrun1 & Hwf1 & _ & _ & _ & Hin1 & Hst & _).
    destruct Hst as (Hc1 & Hi1 & Hs1 & Hout1 & Hhw1); [lia|].
    destruct (IH s1 Hterm Hsz Hwf1) as (s' & Hrun & Hwf' & Hc & Hi & Hs & Hin & Hout & Hhw);
      [lia|].
    exists s'. split.
    { cbn [run_queue_calls]. unfold bind. rewrite Hrun1. exact Hrun. }
    split; [exact Hwf'|]. split; [lia|]. split; [congruence|]. split; [congruence|].
    split; [|split].
    + intros i Hi'.
      destruct (Z.lt_ge_cases i (Z.of_nat (length (words_of c)))) as [Hlt | Hge].
      * rewrite load_app_l by lia. rewrite Hout by lia. apply Hin1. lia.
      * rewrite load_app_r by lia. rewrite <- Hin by lia. f_equal. lia.
    + intros j Hj. rewrite Hout by lia. apply Hout1. lia.
    + rewrite Hhw, Hhw1, <- app_assoc, rings_app. reflexivity.
Qed.


(** X3. After a second switch the transport is back in the buffer it started
    from: every word of that buffer behind the first is zero again, whatever
    had been committed there, and between the two switches the hardware was
    shown four doorbell writes and nothing else, so the producer never waits
    for the consumer before it reuses a buffer. *)
Theorem second_switch_reuses_buffer s dl1 :
  terminator_ok -> sizes_ok -> wf s ->
  active_start s <= dl1 < active_start s + DL_DRAM_BUFFER_SIZE ->
  dl1 + 1 < 2 * DL_DRAM_BUFFER_SIZE ->
  dl_sentinel s < dl1 ->
  exists s1,
    dl_write_end dl1 s = Ok tt s1 /\ wf s1
    /\ forall dl2,
        active_start s1 <= dl2 < active_start s1 + DL_DRAM_BUFFER_SIZE ->
        dl2 + 1 < 2 * DL_DRAM_BUFFER_SIZE ->
        dl_sentinel s1 < dl2 ->
        exists s2,
          dl_write_end dl2 s1 = Ok tt s2
          /\ dl_buf_idx s2 = dl_buf_idx s
          /\ dl_cur_pointer s2 = active_start s
          /\ (forall i, active_start s < i < active_start s + DL_DRAM_BUFFER_SIZE ->
                        load (dl_buffers s2) i = Some 0)
          /\ hw s2 = hw s ++ rings 4.
Proof.
  intros Hterm Hsz Hwf Hdl1 Hnext1 Hcross1.
  pose proof Hwf as [Hlen Hidx _ _ Hsen _].
  destruct (commit_run s dl1 Hterm Hsz Hlen Hidx Hsen Hdl1 Hnext1)
    as (s1 & Hrun1 & Hwf1 & _ & _ & _ & Hsw1 & _).
  destruct (Hsw1 Hcross1) as [Hs1 Hhw1].
  exists s1. split; [exact Hrun1|]. split; [exact Hwf1|].
  intros dl2 Hdl2 Hnext2 Hcross2.
  pose proof Hwf1 as [Hlen1 Hidx1 _ _ Hsen1 _].
  destruct (commit_run s1 dl2 Hterm Hsz Hlen1 Hidx1 Hsen1 Hdl2 Hnext2)
    as (s2 & Hrun2 & _ & _ & _ & _ & Hsw2 & _).
  destruct (Hsw2 Hcross2) as [Hs2 Hhw2].
  assert (Hback : other_start s1 = active_start s).
  { unfold other_start, active_start. rewrite (sw_idx _ _ _ Hs1). f_equal. lia. }
  exists s2. split; [exact Hrun2|].
  split; [rewrite (sw_idx _ _ _ Hs2), (sw_idx _ _ _ Hs1); lia|].
  split; [rewrite (sw_cursor _ _ _ Hs2); exact Hback|].
  split.
  - intros i Hi. apply (sw_zero _ _ _ Hs2). rewrite Hback. exact Hi.
  - rewrite Hhw2, Hhw1, <- app_assoc, rings_app. reflexivity.
Qed.

(** X4. [dl_init] leaves [dl_buf_idx] as it finds it. Called when the index
    is 1, it puts the cursor in the first buffer all the same; the commit
    that then crosses the sentinel switches to the first buffer again: it
    zeroes the words committed since [dl_init] and leaves a jump to the
    start of the buffer that holds it. *)
Theorem dl_init_keeps_buffer_index :
  sizes_ok -> 0 < DL_MAX_OVERLAY_COUNT ->
  (forall s,
      Z.of_nat (length (dl_buffers s)) = 2 * DL_DRAM_BUFFER_SIZE ->
      exists s0,
        dl_init s = Ok tt s0
        /\ dl_buf_idx s0 = dl_buf_idx s
        /\ dl_cur_pointer s0 = buffer_start 0
        /\ dl_sentinel s0 = buffer_start 0 + DL_DRAM_BUFFER_SIZE - DL_MAX_COMMAND_SIZE)
  /\ (forall s dl,
         Z.of_nat (length (dl_buffers s)) = 2 * DL_DRAM_BUFFER_SIZE ->
         dl_buf_idx s = 1 ->
         0 < dl < DL_DRAM_BUFFER_SIZE ->
         dl_sentinel s < dl ->
         exists s',
           dl_write_end dl s = Ok tt s'
           /\ dl_buf_idx s' = 0
           /\ dl_cur_pointer s' = buffer_start 0
           /\ load (dl_buffers s') dl = Some (jump_word (buffer_start 0))
           /\ forall i, 0 < i < dl -> load (dl_buffers s') i = Some 0).
Proof.
  intros Hsz HK. unfold sizes_ok in Hsz. split.
  - intros s Hlen.
    destruct (DlFacts.dl_init_run s) as (s0 & Hrun & _ & _ & Hi & Hc & Hs & _);
      [lia | exact HK | exact Hlen |].
    exists s0. split; [exact Hrun|]. split; [exact Hi|].
    unfold buffer_start. rewrite Z.mul_0_l. split; [exact Hc | exact Hs].
  - intros s dl Hlen Hidx Hdl Hcross.
    destruct (DlFacts.dl_write_end_switch dl s Hlen (or_intror Hidx))
      as (w & l1 & l2 & w2 & l3 & l4 & w5 & l5
          & Hw & Hl1 & Hl2 & Hw2 & Hl3 & Hl4 & Hw5 & Hl5 & Hrun);
      [lia | lia | exact Hcross |].
    assert (Ho : other_start s = buffer_start 0).
    { unfold other_start. rewrite Hidx. reflexivity. }
    rewrite Ho in *. unfold buffer_start in *. rewrite Z.mul_0_l in *.
    eexists. split; [exact Hrun|].
    cbn [dl_buf_idx dl_cur_pointer dl_buffers].
    split; [rewrite Hidx; reflexivity|]. split; [reflexivity|]. split.
    + rewrite (load_store_ne _ _ dl _ _ Hl5) by lia.
      apply (load_store_eq _ _ _ _ Hl4).
    + intros i Hi.
      rewrite (load_store_ne _ _ i _ _ Hl5) by lia.
      rewrite (load_store_ne _ _ i _ _ Hl4) by lia.
      rewrite (load_store_ne _ _ i _ _ Hl3) by lia.
      apply (load_memset_inside _ _ _ _ i Hl2). lia.
Qed.

(** X5. A commit at the last word of [dl_buffers] that crosses the sentinel
    runs off the array: [dl_next_buffer] puts the jump in the last word and
    then rewrites the word after it. *)
Theorem commit_at_last_word_overruns s :
  0 < DL_DRAM_BUFFER_SIZE ->
  Z.of_nat (length (dl_buffers s)) = 2 * DL_DRAM_BUFFER_SIZE ->
  dl_buf_idx s = 0 \/ dl_buf_idx s = 1 ->
  dl_sentinel s < 2 * DL_DRAM_BUFFER_SIZE - 1 ->
  dl_write_end (2 * DL_DRAM_BUFFER_SIZE - 1) s = Undefined.
Proof.
  intros HN Hlen Hidx Hcross.
  set (dl := 2 * DL_DRAM_BUFFER_SIZE - 1) in *.
  assert (Hother : 0 <= other_start s
                   /\ other_start s + DL_DRAM_BUFFER_SIZE <= 2 * DL_DRAM_BUFFER_SIZE).
  { unfold other_start, buffer_start. destruct Hidx as [-> | ->]; lia. }
  destruct Hother as (Ho1 & Ho2).
  destruct (DlFacts.dl_terminator_run dl s) as (w & l1 & Hw & Hl1 & Ht1); [lia|].
  pose proof (store_length _ _ _ _ Hl1) as Len1.
  assert (Hl2 : exists l2, memset_words l1 (other_start s) DL_DRAM_BUFFER_SIZE = Some l2).
  { eexists. apply memset_in_range; lia. }
  destruct Hl2 as [l2 Hl2].
  pose proof (memset_length _ _ _ _ Hl2) as Len2.
  destruct (load_in_range l2 (other_start s)) as [w2 Hw2]; [lia|].
  assert (Hl3 : store l2 (other_start s) (dl_terminator_word w2)
                = Some (<[Z.to_nat (other_start s) := dl_terminator_word w2]> l2)).
  { apply store_in_range. lia. }
  pose proof (store_length _ _ _ _ Hl3) as Len3.
  assert (Hl4 : store (<[Z.to_nat (other_start s) := dl_terminator_word w2]> l2) dl
                  (jump_word (other_start s))
                = Some (<[Z.to_nat dl := jump_word (other_start s)]>
                          (<[Z.to_nat (other_start s) := dl_terminator_word w2]> l2))).
  { apply store_in_range. lia. }
  pose proof (store_length _ _ _ _ Hl4) as Len4.
  assert (Hw5 : load (<[Z.to_nat dl := jump_word (other_start s)]>
                        (<[Z.to_nat (other_start s) := dl_terminator_word w2]> l2))
                  (dl + 1) = None).
  { destruct (load _ (dl + 1)) as [v|] eqn:E; [|reflexivity].
    apply load_Some_range in E. lia. }
  unfold dl_write_end, bind. rewrite Ht1. cbn.
  destruct (Z.ltb_spec (dl_sentinel s) dl); [|lia].
  unfold dl_next_buffer, bind, memset_buffer, dl_terminator, read_word,
    write_word, bind. cbn.
  rewrite (DlFacts.uint8_flip _ Hidx).
  change (buffer_start (1 - dl_buf_idx s)) with (other_start s).
  rewrite Hl2. cbn. rewrite Hw2. cbn. rewrite Hl3. cbn. rewrite Hl4. cbn.
  rewrite Hw5. reflexivity.
Qed.


(** X6. [dl_overlay_register_id] stops when no [dl_init] came before, when
    the overlay index is not below [DL_MAX_OVERLAY_COUNT] or when the id is
    not below [DL_OVERLAY_TABLE_SIZE], and on nothing else: an index that no
    [dl_overlay_add] has returned yet passes. Otherwise it writes the byte
    offset of the descriptor, cut to 8 bits, into entry [id] of the table
    and changes nothing else. *)
Theorem dl_overlay_register_id_entry sz s overlay_index id :
  Z.of_nat (length (overlay_table (dl_data s))) = DL_OVERLAY_TABLE_SIZE ->
  0 <= id ->
  (aborted (dl_overlay_register_id sz overlay_index id s) = true
   <-> dl_overlay_count s <= 0
       \/ DL_MAX_OVERLAY_COUNT <= overlay_index
       \/ DL_OVERLAY_TABLE_SIZE <= id)
  /\ (0 < dl_overlay_count s -> overlay_index < DL_MAX_OVERLAY_COUNT ->
      id < DL_OVERLAY_TABLE_SIZE ->
      exists s',
        dl_overlay_register_id sz overlay_index id s = Ok tt s'
        /\ load (overlay_table (dl_data s')) id = Some (uint8 (overlay_index * sz))
        /\ (forall j, j <> id ->
                      load (overlay_table (dl_data s')) j
                      = load (overlay_table (dl_data s)) j)
        /\ overlay_descriptors (dl_data s') = overlay_descriptors (dl_data s)
        /\ dl_overlay_count s' = dl_overlay_count s
        /\ dl_buffers s' = dl_buffers s
        /\ hw s' = hw s).
Proof.
  intros Hlen Hid.
  unfold dl_overlay_register_id, bind, gets, assertf, set_overlay_table.
  destruct (Z.ltb_spec 0 (dl_overlay_count s)) as [Hn | Hn].
  2: { split; [split; [intros _; left; exact Hn | reflexivity] | intros; lia]. }
  destruct (Z.ltb_spec overlay_index DL_MAX_OVERLAY_COUNT) as [Ho | Ho].
  2: { split; [split; [intros _; right; left; exact Ho | reflexivity] | intros; lia]. }
  destruct (Z.ltb_spec id DL_OVERLAY_TABLE_SIZE) as [Hi | Hi].
  2: { split; [split; [intros _; right; right; exact Hi | reflexivity] | intros; lia]. }
  assert (Hst : store (overlay_table (dl_data s)) id (uint8 (overlay_index * sz))
                = Some (<[Z.to_nat id := uint8 (overlay_index * sz)]>
                          (overlay_table (dl_data s)))).
  { apply store_in_range. lia. }
  rewrite Hst. split.
  - split; [discriminate | lia].
  - intros _ _ _. eexists. split; [reflexivity|].
    cbn [dl_data set_dl_data overlay_table overlay_descriptors dl_overlay_count
           dl_buffers hw].
    split; [apply (load_store_eq _ _ _ _ Hst)|].
    split; [|repeat split; reflexivity].
    intros j Hj. apply (load_store_ne _ _ j _ _ Hst). lia.
Qed.

(** One [dl_overlay_add] with a free descriptor. *)
Lemma dl_overlay_add_run u s :
  Z.of_nat (length (overlay_descriptors (dl_data s))) = DL_MAX_OVERLAY_COUNT ->
  0 < dl_overlay_count s < DL_MAX_OVERLAY_COUNT ->
  DL_MAX_OVERLAY_COUNT < 2 ^ 8 ->
  exists s',
    dl_overlay_add (Some u) s = Ok (dl_overlay_count s) s'
    /\ dl_overlay_count s' = dl_overlay_count s + 1
    /\ length (overlay_descriptors (dl_data s'))
       = length (overlay_descriptors (dl_data s))
    /\ (exists d, load (overlay_descriptors (dl_data s')) (dl_overlay_count s) = Some d
                  /\ data d = PhysicalAddr (ucode_data u))
    /\ (forall j, j <> dl_overlay_count s ->
                  load (overlay_descriptors (dl_data s')) j
                  = load (overlay_descriptors (dl_data s)) j)
    /\ overlay_table (dl_data s') = overlay_table (dl_data s)
    /\ hw s' = hw s.
Proof.
  intros Hlen Hn Hmax.
  unfold dl_overlay_add, bind, gets, assertf, set_overlay_descriptor, modify, ret.
  destruct (Z.ltb_spec 0 (dl_overlay_count s)); [|lia].
  destruct (Z.ltb_spec (dl_overlay_count s) DL_MAX_OVERLAY_COUNT); [|lia].
  match goal with |- context [store ?l ?i ?v] =>
    assert (Hst : store l i v = Some (<[Z.to_nat i := v]> l))
      by (apply store_in_range; lia)
  end.
  rewrite Hst. eexists. split; [reflexivity|].
  cbn [dl_data set_dl_data set_dl_overlay_count overlay_table overlay_descriptors
         dl_overlay_count hw].
  split; [unfold uint8; apply Z.mod_small; lia|].
  split; [apply length_insert|].
  split; [eexists; split; [apply (load_store_eq _ _ _ _ Hst) | reflexivity]|].
  split; [|split; reflexivity].
  intros j Hj. apply (load_store_ne _ _ j _ _ Hst). lia.
Qed.

(** X7. Successive [dl_overlay_add] calls return consecutive indices,
    starting at the current count, as long as descriptors are free; each
    overlay ends up in the descriptor of its index, and the descriptors
    below the first index returned are not touched. *)
Theorem dl_overlay_add_consecutive us : forall s,
  Z.of_nat (length (overlay_descriptors (dl_data s))) = DL_MAX_OVERLAY_COUNT ->
  DL_MAX_OVERLAY_COUNT < 2 ^ 8 ->
  0 < dl_overlay_count s ->
  dl_overlay_count s + Z.of_nat (length us) <= DL_MAX_OVERLAY_COUNT ->
  exists s',
    dl_overlay_add_all us s
    = Ok (map (fun i => dl_overlay_count s + Z.of_nat i) (seq 0 (length us))) s'
    /\ dl_overlay_count s' = dl_overlay_count s + Z.of_nat (length us)
    /\ (forall i u, us !! i = Some u ->
          exists d, load (overlay_descriptors (dl_data s'))
                      (dl_overlay_count s + Z.of_nat i) = Some d
                    /\ data d = PhysicalAddr (ucode_data u))
    /\ (forall j, j < dl_overlay_count s ->
                  load (overlay_descriptors (dl_data s')) j
                  = load (overlay_descriptors (dl_data s)) j)
    /\ hw s' = hw s.
Proof.
  induction us as [|u us IH]; intros s Hlen Hmax Hn Hroom.
  - exists s. cbn. rewrite Z.add_0_r. repeat split; try reflexivity.
    intros i u Hu. rewrite lookup_nil in Hu. discriminate.
  - cbn [length] in Hroom.
    destruct (dl_overlay_add_run u s Hlen ltac:(lia) Hmax)
      as (s1 & Hrun1 & Hc1 & Hlen1 & Hd1 & Hout1 & _ & Hhw1).
    destruct (IH s1) as (s' & Hrun & Hc & Hd & Hout & Hhw);
      [rewrite Hlen1; exact Hlen | exact Hmax | lia | lia |].
    exists s'. split; [|split; [|split; [|split]]].
    + cbn [dl_overlay_add_all]. unfold bind. rewrite Hrun1.
      change (dl_overlay_add_all us s1) with (dl_overlay_add_all us s1).
      rewrite Hrun. unfold ret. f_equal.
      cbn [length seq map]. rewrite Z.add_0_r. f_equal.
      rewrite <- seq_shift, map_map. apply map_ext. intros i. lia.
    + cbn [length]. lia.
    + intros i u' Hu. destruct i as [|i]; cbn in Hu.
      * injection Hu as <-. rewrite Z.add_0_r.
        destruct Hd1 as (d & Hload & Hdata). exists d. split; [|exact Hdata].
        rewrite Hout by lia. exact Hload.
      * destruct (Hd i u' Hu) as (d & Hload & Hdata). exists d.
        split; [|exact Hdata]. rewrite <- Hload. f_equal. lia.
    + intros j Hj. rewrite Hout by lia. apply Hout1. lia.
    + congruence.
Qed.

(** X8. [dl_close] followed by [dl_start] halts the consumer and then goes
    through the whole start sequence again, whether the consumer ran or not;
    the overlay data and the buffers with their cursor are as before. *)
Theorem dl_close_then_start s :
  exists s',
    bind dl_close (fun _ => dl_start) s = Ok tt s'
    /\ hw s' = hw s ++ [SP_STATUS_write SP_WSTATUS_SET_HALT] ++ start_events s
    /\ dl_is_running s' = true
    /\ dl_data s' = dl_data s /\ dl_buffers s' = dl_buffers s
    /\ dl_buf_idx s' = dl_buf_idx s /\ dl_cur_pointer s' = dl_cur_pointer s
    /\ dl_sentinel s' = dl_sentinel s.
Proof.
  eexists. split.
  - unfold bind, dl_close, write_SP_STATUS, modify, bind.
    rewrite DlFacts.dl_start_first by reflexivity. reflexivity.
  - cbn. rewrite <- app_assoc. repeat split; reflexivity.
Qed.

(** X9. [dl_signal] does not mask its argument: the word it queues has the
    command byte OR-ed with the top byte of the signal, so the command byte
    is intact only for a signal below 2^24; [dl_interrupt] is [dl_signal] of
    [SP_WSTATUS_SET_INTR]. *)
Theorem dl_signal_word mk signal s :
  terminator_ok -> 4 <= DL_MAX_COMMAND_SIZE <= DL_DRAM_BUFFER_SIZE -> wf s ->
  0 <= mk DL_OVERLAY_DEFAULT DL_CMD_WSTATUS < 2 ^ 8 ->
  0 <= signal < 2 ^ 32 ->
  exists s' w,
    dl_signal mk signal s = Ok tt s'
    /\ load (dl_buffers s') (dl_cur_pointer s) = Some w
    /\ Z.shiftr w 24 = Z.lor (mk DL_OVERLAY_DEFAULT DL_CMD_WSTATUS) (Z.shiftr signal 24)
    /\ Z.land w 0xFFFFFF = Z.land signal 0xFFFFFF
    /\ dl_interrupt mk signal = dl_signal mk signal.
Proof.
  intros Hterm Hsz Hwf Hc Hsig.
  set (c := mk DL_OVERLAY_DEFAULT DL_CMD_WSTATUS) in *.
  destruct (queue_call_run (call_u32 (Z.lor (Z.shiftl c 24) signal)) s Hterm Hsz Hwf)
    as (s' & Hrun & _ & _ & _ & _ & Hin & _).
  specialize (Hin 0 ltac:(cbn; lia)). rewrite Z.add_0_r in Hin.
  cbn [words_of] in Hin. rewrite load_cons_0 in Hin.
  exists s', (uint32 (Z.lor (Z.shiftl c 24) signal)).
  split; [exact Hrun|]. split; [exact Hin|].
  assert (Hsmall : uint32 (Z.lor (Z.shiftl c 24) signal) = Z.lor (Z.shiftl c 24) signal).
  { unfold uint32. rewrite <- Z.land_ones by lia. apply Z.bits_inj'. intros n Hn.
    rewrite Z.land_spec, Z.lor_spec.
    destruct (Z.lt_ge_cases n 32).
    - rewrite Z.ones_spec_low by lia. apply andb_true_r.
    - rewrite Z.ones_spec_high by lia. rewrite andb_false_r. symmetry.
      apply orb_false_intro.
      + rewrite Z.shiftl_spec by lia.
        destruct (Z.eq_dec c 0) as [-> | Hne]; [apply Z.bits_0|].
        apply Z.bits_above_log2; [lia|].
        assert (Z.log2 c < 8) by (apply Z.log2_lt_pow2; lia). lia.
      + destruct (Z.eq_dec signal 0) as [-> | Hne]; [apply Z.bits_0|].
        apply Z.bits_above_log2; [lia|].
        assert (Z.log2 signal < 32) by (apply Z.log2_lt_pow2; lia). lia. }
  rewrite Hsmall. split; [|split; [|reflexivity]].
  - rewrite Z.shiftr_lor, Z.shiftr_shiftl_l, Z.sub_diag, Z.shiftl_0_r by lia.
    reflexivity.
  - rewrite Z.land_lor_distr_l. change 0xFFFFFF with (Z.ones 24).
    rewrite (Z.land_ones (Z.shiftl c 24)) by lia.
    rewrite Z.shiftl_mul_pow2, Z.mod_mul by lia. apply Z.lor_0_l.
Qed.

End WithHeaders.

(** *** The small configuration *)

#[local] Existing Instance small_headers.

Ltac evaluate := vm_compute; repeat split; (reflexivity || discriminate).

Lemma small_room : 4 <= DL_MAX_COMMAND_SIZE <= DL_DRAM_BUFFER_SIZE.
Proof. evaluate. Qed.

Lemma initialised_reached : final (dl_init (H := small_headers) boot) = Some initialised.
Proof. vm_compute. reflexivity. Qed.

Lemma initialised_wf : wf (H := small_headers) initialised.
Proof.
  constructor; try evaluate.
  - left. reflexivity.
  - eexists. split; vm_compute; reflexivity.
Qed.

(** A no-op, a 64-bit command and a 16-bit command after [dl_init]. *)
Lemma queue_calls_safe_witness :
  exists s' k,
    run_queue_calls (H := small_headers)
      [call_u8 0x07; call_u64 0x3D10013F00123456; call_u16 0x0200] initialised
    = Ok tt s'
    /\ wf s' /\ hw s' = rings k /\ (3 <= k <= 6)%nat.
Proof.
  destruct (queue_calls_safe (H := small_headers)
              [call_u8 0x07; call_u64 0x3D10013F00123456; call_u16 0x0200] initialised)
    as (s' & k & Hrun & Hwf & _ & _ & _ & Hhw & Hk).
  - exact DlFacts.small_terminator_ok.
  - exact small_room.
  - exact initialised_wf.
  - exists s', k. split; [exact Hrun|]. split; [exact Hwf|]. split; [exact Hhw | exact Hk].
Defined.

(** The same three calls: four words from word 0 on, one doorbell each. *)
Lemma queue_calls_stream_witness :
  exists s',
    run_queue_calls (H := small_headers)
      [call_u8 0x07; call_u64 0x3D10013F00123456; call_u16 0x0200] initialised
    = Ok tt s'
    /\ dl_cur_pointer s' = 4
    /\ load (dl_buffers s') 0 = Some 0x07000000
    /\ load (dl_buffers s') 1 = Some 0x3D10013F
    /\ load (dl_buffers s') 2 = Some 0x00123456
    /\ load (dl_buffers s') 3 = Some 0x02000000
    /\ hw s' = rings 3.
Proof.
  destruct (queue_calls_stream (H := small_headers)
              [call_u8 0x07; call_u64 0x3D10013F00123456; call_u16 0x0200] initialised)
    as (s' & Hrun & _ & Hcur & _ & _ & Hin & _ & Hhw).
  - exact DlFacts.small_terminator_ok.
  - exact small_room.
  - exact initialised_wf.
  - evaluate.
  - exists s'. split; [exact Hrun|]. split; [exact Hcur|].
    split; [apply (Hin 0); evaluate|]. split; [apply (Hin 1); evaluate|].
    split; [apply (Hin 2); evaluate|]. split; [apply (Hin 3); evaluate | exact Hhw].
Defined.

(** From the sentinel of the first buffer: a switch to the second buffer,
    then a commit past its sentinel, which switches back. *)
Lemma second_switch_reuses_buffer_witness :
  exists s1 s2,
    dl_write_end (H := small_headers) 50 near_sentinel = Ok tt s1
    /\ dl_write_end (H := small_headers) 113 s1 = Ok tt s2
    /\ dl_buf_idx s2 = 0
    /\ load (dl_buffers s2) 47 = Some 0
    /\ hw s2 = hw near_sentinel ++ rings 4.
Proof.
  destruct (second_switch_reuses_buffer (H := small_headers) near_sentinel 50)
    as (s1 & Hrun1 & _ & Hnext).
  - exact DlFacts.small_terminator_ok.
  - exact DlFacts.small_sizes_ok.
  - exact DlFacts.near_sentinel_wf.
  - evaluate.
  - evaluate.
  - evaluate.
  - assert (Es : s1 = switched_once).
    { vm_compute in Hrun1. injection Hrun1 as <-. reflexivity. }
    destruct (Hnext 113) as (s2 & Hrun2 & Hidx & _ & Hzero & Hhw).
    + rewrite Es. evaluate.
    + evaluate.
    + rewrite Es. evaluate.
    + exists s1, s2. split; [exact Hrun1|]. split; [exact Hrun2|].
      split; [exact Hidx|]. split; [apply Hzero; evaluate | exact Hhw].
Defined.

(** [dl_init] after one switch keeps index 1; the commit at word 50 then
    zeroes words 1 to 49 and jumps to word 0 of the same buffer. *)
Lemma dl_init_keeps_buffer_index_witness :
  (exists s0,
      dl_init (H := small_headers) switched_once = Ok tt s0 /\ dl_buf_idx s0 = 1
      /\ dl_cur_pointer s0 = 0)
  /\ (exists s',
         dl_write_end (H := small_headers) 50 reinitialised = Ok tt s'
         /\ dl_cur_pointer s' = 0
         /\ load (dl_buffers s') 50 = Some (jump_word 0)
         /\ load (dl_buffers s') 49 = Some 0).
Proof.
  destruct (dl_init_keeps_buffer_index (H := small_headers)) as [Hinit Hcommit].
  - exact DlFacts.small_sizes_ok.
  - evaluate.
  - split.
    + destruct (Hinit switched_once) as (s0 & Hrun & Hidx & Hcur & _); [evaluate|].
      exists s0. split; [exact Hrun|]. split; [exact Hidx | exact Hcur].
    + destruct (Hcommit reinitialised 50) as (s' & Hrun & _ & Hcur & Hjump & Hzero);
        [evaluate | evaluate | evaluate | evaluate |].
      exists s'. split; [exact Hrun|]. split; [exact Hcur|].
      split; [exact Hjump | apply Hzero; evaluate].
Defined.

Lemma commit_at_last_word_overruns_witness :
  dl_write_end (H := small_headers) 127 switched_once = Undefined.
Proof.
  apply (commit_at_last_word_overruns (H := small_headers) switched_once).
  - evaluate.
  - evaluate.
  - right. reflexivity.
  - evaluate.
Defined.

(** With 16-byte descriptors, overlay 1 under id 3 is stored as offset 16;
    index 8 is refused. *)
Lemma dl_overlay_register_id_entry_witness :
  (exists s',
      dl_overlay_register_id (H := small_headers) 16 1 3 started = Ok tt s'
      /\ load (overlay_table (dl_data s')) 3 = Some 16)
  /\ aborted (dl_overlay_register_id (H := small_headers) 16 8 3 started) = true.
Proof.
  split.
  - destruct (dl_overlay_register_id_entry (H := small_headers) 16 started 1 3)
      as (_ & Hok); [evaluate | evaluate |].
    destruct Hok as (s' & Hrun & Hentry & _); [evaluate | evaluate | evaluate |].
    exists s'. split; [exact Hrun | exact Hentry].
  - destruct (dl_overlay_register_id_entry (H := small_headers) 16 started 8 3)
      as (Hbad & _); [evaluate | evaluate |].
    apply Hbad. right. left. evaluate.
Defined.

(** Two overlays added after [dl_init] get the indices 1 and 2. *)
Lemma dl_overlay_add_consecutive_witness :
  exists s',
    dl_overlay_add_all (H := small_headers) [sample_ucode; sample_ucode] started
    = Ok [1; 2] s'
    /\ dl_overlay_count s' = 3.
Proof.
  destruct (dl_overlay_add_consecutive (H := small_headers)
              [sample_ucode; sample_ucode] started)
    as (s' & Hrun & Hcount & _); [evaluate | evaluate | evaluate | evaluate |].
  exists s'. split; [exact Hrun | exact Hcount].
Defined.

(** A signal value with bit 24 set turns the command byte 0x02 into 0x03. *)
Lemma dl_signal_word_witness :
  exists s' w,
    dl_signal (H := small_headers) make_command 0x01000800 initialised = Ok tt s'
    /\ load (dl_buffers s') 0 = Some w
    /\ Z.shiftr w 24 = 0x03
    /\ Z.land w 0xFFFFFF = 0x000800.
Proof.
  destruct (dl_signal_word (H := small_headers) make_command 0x01000800 initialised)
    as (s' & w & Hrun & Hw & Htop & Hlow & _).
  - exact DlFacts.small_terminator_ok.
  - exact small_room.
  - exact initialised_wf.
  - evaluate.
  - evaluate.
  - exists s', w. split; [exact Hrun|]. split; [exact Hw|].
    split; [exact Htop | exact Hlow].
Defined.

End DlMoreFacts.

(** ** The packing wrappers of [rdpq.h] *)

Module RdpqMoreFacts.
Import Rdpq RdpqMore.

(** *** Fields of a word *)

Lemma testbit_small x w n : 0 <= x < 2 ^ w -> w <= n -> Z.testbit x n = false.
Proof.
  intros Hx Hn. destruct (Z.eq_dec x 0) as [-> | Hne]; [apply Z.bits_0|].
  apply Z.bits_above_log2; [lia|].
  assert (0 <= w) by (destruct (Z.le_gt_cases 0 w); [assumption|];
                      rewrite Z.pow_neg_r in Hx by lia; lia).
  assert (Z.log2 x < w) by (apply Z.log2_lt_pow2; lia). lia.
Qed.

Lemma bits_testbit x lo w n :
  0 <= lo -> 0 <= w -> 0 <= n ->
  Z.testbit (bits x lo w) n = Z.testbit x (n + lo) && (n <? w).
Proof.
  intros Hlo Hw Hn. unfold bits. rewrite Z.land_spec, Z.shiftr_spec by lia.
  destruct (Z.ltb_spec n w).
  - rewrite Z.ones_spec_low by lia. reflexivity.
  - rewrite Z.ones_spec_high by lia. reflexivity.
Qed.

Lemma bits_lor x y lo w : bits (Z.lor x y) lo w = Z.lor (bits x lo w) (bits y lo w).
Proof. unfold bits. rewrite Z.shiftr_lor. apply Z.land_lor_distr_l. Qed.

Lemma bits_field_same v w s :
  0 <= w -> 0 <= s -> bits (Z.shiftl (v mod 2 ^ w) s) s w = v mod 2 ^ w.
Proof.
  intros Hw Hs. unfold bits. rewrite Z.shiftr_shiftl_l by lia.
  rewrite Z.sub_diag, Z.shiftl_0_r, Z.land_ones by lia.
  apply Z.mod_mod. lia.
Qed.

Lemma bits_field_other v w s s' w' :
  0 <= w -> 0 <= s -> 0 <= s' -> 0 <= w' ->
  s + w <= s' \/ s' + w' <= s ->
  bits (Z.shiftl (v mod 2 ^ w) s) s' w' = 0.
Proof.
  intros Hw Hs Hs' Hw' Hdis. apply Z.bits_inj'. intros n Hn.
  rewrite Z.bits_0, bits_testbit by lia.
  destruct (Z.ltb_spec n w'); [|apply andb_false_r].
  rewrite andb_true_r, Z.shiftl_spec by lia.
  destruct (Z.lt_ge_cases (n + s' - s) 0); [apply Z.testbit_neg_r; lia|].
  apply (testbit_small _ w); [apply Z.mod_pos_bound; lia | lia].
Qed.

Lemma bits_uint32 x lo w :
  0 <= lo -> 0 <= w -> lo + w <= 32 -> bits (uint32 x) lo w = bits x lo w.
Proof.
  intros Hlo Hw0 Hw. apply Z.bits_inj'. intros n Hn.
  rewrite !bits_testbit by lia. unfold uint32.
  destruct (Z.ltb_spec n w); [|rewrite !andb_false_r; reflexivity].
  rewrite Z.mod_pow2_bits_low by lia. reflexivity.
Qed.

Lemma carg_field w v mask s :
  mask = Z.ones w -> 0 <= w -> 0 <= s -> s + w <= 32 ->
  _carg v mask s = Z.shiftl (v mod 2 ^ w) s.
Proof.
  intros -> Hw Hs Hfit. unfold _carg, uint32.
  rewrite Z.land_ones by lia.
  pose proof (Z.mod_pos_bound v (2 ^ w) ltac:(lia)) as Hb.
  assert (H32 : 2 ^ w * 2 ^ s <= 2 ^ 32).
  { rewrite <- Z.pow_add_r by lia. apply Z.pow_le_mono_r; lia. }
  assert (Hlow : 2 ^ w <= 2 ^ 32) by (apply Z.pow_le_mono_r; lia).
  rewrite (Z.mod_small (v mod 2 ^ w)) by lia.
  rewrite Z.shiftl_mul_pow2 by lia.
  apply Z.mod_small. split; [nia|].
  assert (0 < 2 ^ s) by lia. nia.
Qed.

Lemma land_field v mask w :
  mask = Z.ones w -> 0 <= w -> Z.land v mask = Z.shiftl (v mod 2 ^ w) 0.
Proof. intros -> Hw. rewrite Z.shiftl_0_r. apply Z.land_ones. exact Hw. Qed.


Lemma bits_shiftl_up x s lo w :
  0 <= s -> 0 <= lo -> bits (Z.shiftl x s) (lo + s) w = bits x lo w.
Proof.
  intros Hs Hlo. unfold bits. f_equal.
  rewrite (Z.add_comm lo s), <- Z.shiftr_shiftr by lia.
  rewrite Z.shiftr_shiftl_l, Z.sub_diag, Z.shiftl_0_r by lia.
  reflexivity.
Qed.

Lemma split_56 v :
  Z.land (Z.shiftr v 32) 0x00FFFFFF * 2 ^ 32 + Z.land v 0xFFFFFFFF = v mod 2 ^ 56.
Proof.
  change 0x00FFFFFF with (Z.ones 24). change 0xFFFFFFFF with (Z.ones 32).
  rewrite !Z.land_ones, Z.shiftr_div_pow2 by lia.
  change (2 ^ 56) with (2 ^ 32 * 2 ^ 24).
  rewrite Z.rem_mul_r by lia. lia.
Qed.

Lemma sign_extend_mod s : - 2 ^ 15 <= s < 2 ^ 15 -> sign_extend 16 (s mod 2 ^ 16) = s.
Proof.
  intros Hs. unfold sign_extend.
  destruct (Z.neg_nonneg_cases s) as [Hneg | Hpos].
  - replace (s mod 2 ^ 16) with (s + 2 ^ 16)
      by (apply (Z.mod_unique s (2 ^ 16) (-1)); lia).
    destruct (Z.ltb_spec (s + 2 ^ 16) (2 ^ (16 - 1))); lia.
  - rewrite Z.mod_small by lia.
    destruct (Z.ltb_spec s (2 ^ (16 - 1))); lia.
Qed.

Lemma bits_small_same x w : 0 <= w -> 0 <= x < 2 ^ w -> bits x 0 w = x.
Proof.
  intros Hw Hx. rewrite <- (Z.mod_small x (2 ^ w)) by lia.
  rewrite <- (Z.shiftl_0_r (x mod 2 ^ w)) at 1. apply bits_field_same; lia.
Qed.

Lemma bits_small_other x w s' w' :
  0 <= w -> 0 <= w' -> 0 <= x < 2 ^ w -> w <= s' -> bits x s' w' = 0.
Proof.
  intros Hw Hw' Hx Hs'. rewrite <- (Z.mod_small x (2 ^ w)) by lia.
  rewrite <- (Z.shiftl_0_r (x mod 2 ^ w)). apply bits_field_other; lia.
Qed.

Lemma bits_shiftl_below x s lo w :
  0 <= lo -> 0 <= w -> lo + w <= s -> bits (Z.shiftl x s) lo w = 0.
Proof.
  intros Hlo Hw Hs. apply Z.bits_inj'. intros n Hn.
  rewrite Z.bits_0, bits_testbit by lia.
  destruct (Z.ltb_spec n w); [|apply andb_false_r].
  rewrite Z.shiftl_spec_low by lia. reflexivity.
Qed.

Lemma land_FFC v : Z.land v 0xFFC = Z.shiftl ((v / 2 ^ 2) mod 2 ^ 10) 2.
Proof.
  rewrite <- Z.land_ones, <- Z.shiftr_div_pow2 by lia.
  apply Z.bits_inj'. intros n Hn.
  rewrite Z.land_spec. change 0xFFC with (Z.shiftl (Z.ones 10) 2).
  destruct (Z.lt_ge_cases n 2).
  - rewrite !Z.shiftl_spec_low by lia. apply andb_false_r.
  - rewrite !Z.shiftl_spec, Z.land_spec, Z.shiftr_spec by lia.
    replace (n - 2 + 2) with n by lia. reflexivity.
Qed.

Lemma carg_FFC v s :
  0 <= s -> s + 12 <= 32 ->
  _carg v 0xFFC s = Z.shiftl ((v / 2 ^ 2) mod 2 ^ 10) (s + 2).
Proof.
  intros Hs Hfit. unfold _carg, uint32. rewrite land_FFC.
  pose proof (Z.mod_pos_bound (v / 2 ^ 2) (2 ^ 10) ltac:(lia)) as Hb.
  set (q := (v / 2 ^ 2) mod 2 ^ 10) in *.
  assert (H32 : 2 ^ (s + 2) * 2 ^ 10 <= 2 ^ 32).
  { rewrite <- Z.pow_add_r by lia. apply Z.pow_le_mono_r; lia. }
  assert (0 < 2 ^ (s + 2)) by lia.
  rewrite (Z.mod_small (Z.shiftl q 2)) by (rewrite Z.shiftl_mul_pow2; lia).
  rewrite Z.shiftl_shiftl, (Z.add_comm 2 s) by lia.
  rewrite Z.shiftl_mul_pow2 by lia. apply Z.mod_small. nia.
Qed.

Lemma uint32_small x : 0 <= x < 2 ^ 32 -> uint32 x = x.
Proof. intros Hx. apply Z.mod_small. exact Hx. Qed.

Lemma uint32_lnot h : 0 <= h < 2 ^ 32 -> uint32 (Z.lnot h) = 2 ^ 32 - 1 - h.
Proof.
  intros Hh. unfold uint32, Z.lnot. symmetry.
  apply (Z.mod_unique _ _ (-1)); lia.
Qed.

Ltac to_fields :=
  repeat match goal with
  | |- context [_carg ?v ?m ?s] =>
      let w := eval vm_compute in (Z.log2 (m + 1)) in
      rewrite (carg_field w v m s) by first [reflexivity | lia]
  end.

Ltac read_fields :=
  rewrite ?bits_lor;
  rewrite ?bits_field_same by lia;
  rewrite ?bits_field_other by lia;
  rewrite ?Z.lor_0_r, ?Z.lor_0_l;
  try reflexivity.

(** *** The wrappers *)

(** X10. [_carg] with a mask of [w] ones places the low [w] bits of the
    value at [s] and sets no bit outside the read_fields. *)
Theorem carg_places_field v w s :
  0 <= w -> 0 <= s -> s + w <= 32 ->
  bits (_carg v (Z.ones w) s) s w = v mod 2 ^ w
  /\ forall s' w', 0 <= s' -> 0 <= w' -> s + w <= s' \/ s' + w' <= s ->
       bits (_carg v (Z.ones w) s) s' w' = 0.
Proof.
  intros Hw Hs Hfit. rewrite (carg_field w) by first [reflexivity | lia].
  split; [apply bits_field_same; lia|].
  intros s' w' Hs' Hw' Hdis. apply bits_field_other; lia.
Qed.

(** X11. [rdpq_fill_rectangle_fx] stores each coordinate modulo 2^12 in its
    own read_fields and leaves the top byte of both words free for the
    command id. *)
Theorem fill_rectangle_fields x0 y0 x1 y1 :
  exists a0 a1,
    rdpq_fill_rectangle_fx x0 y0 x1 y1
    = __rdpq_write8_syncuse (cmd_id RDPQ_CMD_FILL_RECTANGLE) a0 a1 AUTOSYNC_PIPE
    /\ bits a0 12 12 = x1 mod 2 ^ 12 /\ bits a0 0 12 = y1 mod 2 ^ 12
    /\ bits a1 12 12 = x0 mod 2 ^ 12 /\ bits a1 0 12 = y0 mod 2 ^ 12
    /\ bits a0 24 8 = 0 /\ bits a1 24 8 = 0.
Proof.
  unfold rdpq_fill_rectangle_fx. eexists _, _. split; [reflexivity|].
  to_fields. repeat split; read_fields.
Qed.

(** X12. In range, the four words of [rdpq_texture_rectangle_fx] give back
    every argument, the signed ones by sign extension of their 16-bit
    read_fields; the flipped variant packs the same four words. *)
Theorem texture_rectangle_round_trip tile x0 y0 x1 y1 s t dsdx dtdy :
  0 <= tile < 8 ->
  0 <= x0 < 2 ^ 12 -> 0 <= y0 < 2 ^ 12 -> 0 <= x1 < 2 ^ 12 -> 0 <= y1 < 2 ^ 12 ->
  - 2 ^ 15 <= s < 2 ^ 15 -> - 2 ^ 15 <= t < 2 ^ 15 ->
  - 2 ^ 15 <= dsdx < 2 ^ 15 -> - 2 ^ 15 <= dtdy < 2 ^ 15 ->
  exists w0 w1 w2 w3,
    rdpq_texture_rectangle_fx tile x0 y0 x1 y1 s t dsdx dtdy
    = __rdpq_texture_rectangle w0 w1 w2 w3
    /\ rdpq_texture_rectangle_flip_fx tile x0 y0 x1 y1 s t dsdx dtdy
       = __rdpq_write16_syncuse (cmd_id RDPQ_CMD_TEXTURE_RECTANGLE_FLIP) w0 w1 w2 w3
           (Z.lor (Z.lor AUTOSYNC_PIPE (AUTOSYNC_TILE tile)) (AUTOSYNC_TMEM 0))
    /\ bits w0 12 12 = x1 /\ bits w0 0 12 = y1
    /\ bits w1 24 3 = tile /\ bits w1 12 12 = x0 /\ bits w1 0 12 = y0
    /\ sign_extend 16 (bits w2 16 16) = s /\ sign_extend 16 (bits w2 0 16) = t
    /\ sign_extend 16 (bits w3 16 16) = dsdx /\ sign_extend 16 (bits w3 0 16) = dtdy
    /\ bits w0 24 8 = 0 /\ bits w1 27 5 = 0.
Proof.
  intros Htile Hx0 Hy0 Hx1 Hy1 Hs Ht Hds Hdt.
  unfold rdpq_texture_rectangle_fx, rdpq_texture_rectangle_flip_fx.
  eexists _, _, _, _. split; [reflexivity|]. split; [reflexivity|].
  to_fields.
  repeat split; read_fields; try (apply Z.mod_small; lia); apply sign_extend_mod; lia.
Qed.

(** X13. [rdpq_set_tile_size_fx] names tile [tile mod 8] in the command,
    while the resource bit it declares is bit [tile]: for a tile index from
    8 to 15 that bit belongs to the TMEM class, not to the tile descriptors. *)
Theorem tile_field_and_declared_bit tile s0 t0 s1 t1 :
  0 <= tile < 16 ->
  exists a0 a1,
    rdpq_set_tile_size_fx tile s0 t0 s1 t1
    = __rdpq_write8_syncchange (cmd_id RDPQ_CMD_SET_TILE_SIZE) a0 a1 (AUTOSYNC_TILE tile)
    /\ bits a1 24 3 = tile mod 2 ^ 3
    /\ bits a1 12 12 = (s1 - 4) mod 2 ^ 12 /\ bits a1 0 12 = (t1 - 4) mod 2 ^ 12
    /\ (forall n, 0 <= n -> Z.testbit (AUTOSYNC_TILE tile) n = (n =? tile))
    /\ resource_of_bit tile = Some (if tile <? 8 then tile_descriptor else tmem_bank)
    /\ (8 <= tile -> AUTOSYNC_TILE tile = AUTOSYNC_TMEM (tile - 8)).
Proof.
  intros Htile. unfold rdpq_set_tile_size_fx. eexists _, _. split; [reflexivity|].
  to_fields. repeat split; try (read_fields; fail).
  - intros n Hn. unfold AUTOSYNC_TILE. rewrite Z.add_0_l, Z.shiftl_spec by lia.
    destruct (Z.eqb_spec n tile) as [-> | Hne].
    + rewrite Z.sub_diag. reflexivity.
    + destruct (Z.lt_ge_cases n tile); [apply Z.testbit_neg_r; lia|].
      apply (testbit_small 1 1); lia.
  - unfold resource_of_bit.
    destruct (Z.leb_spec 0 tile); [|lia].
    destruct (Z.ltb_spec tile 8); cbn [andb]; [reflexivity|].
    destruct (Z.leb_spec 8 tile); [|lia].
    destruct (Z.ltb_spec tile 16); [reflexivity | lia].
  - intros Hhi. unfold AUTOSYNC_TILE, AUTOSYNC_TMEM. f_equal. lia.
Qed.


(** X14. [rdpq_load_block_fx] masks its three coordinates with 0xFFC: the
    two fraction bits of each are dropped, unlike in [rdpq_load_tile_fx]. *)
Theorem load_block_drops_fraction tile s0 t0 s1 dxt :
  exists a0 a1,
    rdpq_load_block_fx tile s0 t0 s1 dxt
    = __rdpq_write8_syncchangeuse (cmd_id RDPQ_CMD_LOAD_BLOCK) a0 a1
        (AUTOSYNC_TMEM 0) (AUTOSYNC_TILE tile)
    /\ bits a0 14 10 = (s0 / 2 ^ 2) mod 2 ^ 10 /\ bits a0 12 2 = 0
    /\ bits a0 2 10 = (t0 / 2 ^ 2) mod 2 ^ 10 /\ bits a0 0 2 = 0
    /\ bits a1 24 3 = tile mod 2 ^ 3
    /\ bits a1 14 10 = ((s1 - 4) / 2 ^ 2) mod 2 ^ 10 /\ bits a1 12 2 = 0
    /\ bits a1 0 12 = dxt mod 2 ^ 12.
Proof.
  unfold rdpq_load_block_fx. eexists _, _. split; [reflexivity|].
  rewrite !carg_FFC by lia. to_fields. cbn [Z.add Pos.add].
  repeat split; read_fields.
Qed.

(** X15. [rdpq_set_tile] stops unless both TMEM values are multiples of 8;
    then it stores them divided by 8 in 9-bit fields, from which they are
    recovered, and it is [rdpq_set_tile_full] with the eight clamp, mirror,
    mask and shift arguments zero. *)
Theorem set_tile_alignment tile format tmem_addr tmem_pitch palette :
  0 <= tmem_addr < 2 ^ 12 -> 0 <= tmem_pitch < 2 ^ 12 ->
  (tmem_addr mod 8 <> 0 \/ tmem_pitch mod 8 <> 0 ->
     aborted (rdpq_set_tile tile format tmem_addr tmem_pitch palette) = true)
  /\ (tmem_addr mod 8 = 0 -> tmem_pitch mod 8 = 0 ->
      exists a0 a1,
        rdpq_set_tile tile format tmem_addr tmem_pitch palette
        = Ok (__rdpq_write8_syncchange (cmd_id RDPQ_CMD_SET_TILE) a0 a1
                (AUTOSYNC_TILE tile)) tt
        /\ 8 * bits a0 0 9 = tmem_addr /\ 8 * bits a0 9 9 = tmem_pitch
        /\ bits a0 19 5 = format mod 2 ^ 5
        /\ bits a1 24 3 = tile mod 2 ^ 3 /\ bits a1 20 4 = palette mod 2 ^ 4
        /\ bits a1 0 20 = 0)
  /\ rdpq_set_tile_full tile format tmem_addr tmem_pitch palette 0 0 0 0 0 0 0 0
     = rdpq_set_tile tile format tmem_addr tmem_pitch palette.
Proof.
  intros Haddr Hpitch. unfold rdpq_set_tile, rdpq_set_tile_full. split; [|split].
  - intros Hbad.
    destruct (Z.eqb_spec (tmem_addr mod 8) 0); cbn [negb]; [|reflexivity].
    destruct (Z.eqb_spec (tmem_pitch mod 8) 0); cbn [negb]; [|reflexivity].
    destruct Hbad; contradiction.
  - intros Ha Hp. rewrite Ha, Hp. cbn [Z.eqb negb].
    eexists _, _. split; [reflexivity|].
    to_fields. repeat split; read_fields; change (2 ^ 9) with 512;
      Z.div_mod_to_equations; lia.
  - destruct (negb (tmem_addr mod 8 =? 0)); [reflexivity|].
    destruct (negb (tmem_pitch mod 8 =? 0)); [reflexivity|].
    do 2 f_equal. unfold _carg. cbn. rewrite !Z.lor_0_r. reflexivity.
Qed.

(** X16. [rdpq_set_other_modes_raw] and [rdpq_set_combiner_raw] split their
    64-bit argument in two words that together hold its low 56 bits; the top
    byte of the first word stays free. *)
Theorem raw_words_hold_56_bits v :
  exists a0 a1,
    rdpq_set_other_modes_raw v = __rdpq_set_other_modes a0 a1
    /\ rdpq_set_combiner_raw v
       = __rdpq_write8_syncchange (cmd_id RDPQ_CMD_SET_COMBINE_MODE_RAW) a0 a1 AUTOSYNC_PIPE
    /\ a0 * 2 ^ 32 + a1 = v mod 2 ^ 56
    /\ 0 <= a0 < 2 ^ 24 /\ 0 <= a1 < 2 ^ 32.
Proof.
  eexists _, _. split; [reflexivity|]. split; [reflexivity|].
  split; [apply split_56|].
  change 0x00FFFFFF with (Z.ones 24). change 0xFFFFFFFF with (Z.ones 32).
  rewrite !Z.land_ones by lia.
  split; apply Z.mod_pos_bound; lia.
Qed.

(** X17. [rdpq_mode_combiner] picks the two-pass command exactly when the
    combiner has the two-pass flag; either way the ids are a dynamic id and
    its fixup, the skip size is 4 and the words hold the low 56 bits of the
    combiner. *)
Theorem mode_combiner_call flag comb :
  exists dyn fxd a0 a1,
    rdpq_mode_combiner flag comb = __rdpq_fixup_write8 (cmd_id dyn) (cmd_id fxd) 4 a0 a1
    /\ fixup_of dyn = Some fxd
    /\ dyn = (if Z.land comb flag =? 0 then RDPQ_CMD_SET_COMBINE_MODE_1PASS
              else RDPQ_CMD_SET_COMBINE_MODE_2PASS)
    /\ a0 * 2 ^ 32 + a1 = comb mod 2 ^ 56.
Proof.
  unfold rdpq_mode_combiner.
  destruct (Z.land comb flag =? 0); cbn [negb];
    eexists _, _, _, _; (split; [reflexivity|]); (split; [reflexivity|]);
    (split; [reflexivity|]); apply split_56.
Qed.

(** X18. [rdpq_set_yuv_parms] stores six 9-bit coefficients; [k2] is split,
    its high four bits at the bottom of the first word and its low five bits
    at the top of the second. *)
Theorem yuv_parms_fields k0 k1 k2 k3 k4 k5 :
  exists a0 a1,
    rdpq_set_yuv_parms k0 k1 k2 k3 k4 k5
    = __rdpq_write8_syncchange (cmd_id RDPQ_CMD_SET_CONVERT) a0 a1 AUTOSYNC_PIPE
    /\ bits a0 13 9 = k0 mod 2 ^ 9 /\ bits a0 4 9 = k1 mod 2 ^ 9
    /\ bits a0 0 4 * 2 ^ 5 + bits a1 27 5 = k2 mod 2 ^ 9
    /\ bits a1 18 9 = k3 mod 2 ^ 9 /\ bits a1 9 9 = k4 mod 2 ^ 9
    /\ bits a1 0 9 = k5 mod 2 ^ 9
    /\ bits a0 22 10 = 0.
Proof.
  unfold rdpq_set_yuv_parms. eexists _, _. split; [reflexivity|].
  assert (Hhi : Z.shiftr (uint32 (Z.land k2 0x1FF)) 5
                = Z.shiftl ((k2 mod 2 ^ 9 / 2 ^ 5) mod 2 ^ 4) 0).
  { change 0x1FF with (Z.ones 9). rewrite Z.land_ones by lia. unfold uint32.
    rewrite Z.shiftl_0_r, Z.shiftr_div_pow2 by lia.
    change (2 ^ 9) with 512; change (2 ^ 5) with 32; change (2 ^ 4) with 16;
      change (2 ^ 32) with 4294967296.
    Z.div_mod_to_equations; lia. }
  rewrite Hhi. to_fields. repeat split; read_fields.
  change (2 ^ 9) with 512; change (2 ^ 5) with 32; change (2 ^ 4) with 16.
  Z.div_mod_to_equations; lia.
Qed.

(** X19. [rdpq_set_texture_image_lookup] stops on an index above 15;
    otherwise the index, the low 24 bits of the offset, the format and the
    width minus one each have their own field, so that a width of 0 is
    stored as 1023. *)
Theorem texture_image_lookup_fields index offset format width :
  0 <= index ->
  (15 < index -> aborted (rdpq_set_texture_image_lookup index offset format width) = true)
  /\ (index <= 15 ->
      exists a0 a1,
        rdpq_set_texture_image_lookup index offset format width
        = Ok (__rdpq_set_fixup_image (cmd_id RDPQ_CMD_SET_TEXTURE_IMAGE)
                (cmd_id RDPQ_CMD_SET_TEXTURE_IMAGE_FIX) a0 a1) tt
        /\ bits a1 28 4 = index /\ bits a1 0 24 = offset mod 2 ^ 24
        /\ bits a1 24 4 = 0
        /\ bits a0 19 5 = format mod 2 ^ 5
        /\ bits a0 0 10 = (width - 1) mod 2 ^ 10
        /\ (width = 0 -> bits a0 0 10 = 1023)).
Proof.
  intros Hidx. unfold rdpq_set_texture_image_lookup. split.
  - intros Hbig. destruct (Z.leb_spec index 15); [lia | reflexivity].
  - intros Hsmall. destruct (Z.leb_spec index 15); [|lia].
    eexists _, _. split; [reflexivity|].
    rewrite (land_field offset 0xFFFFFF 24) by first [reflexivity | lia].
    to_fields. repeat split; read_fields.
    + apply Z.mod_small. lia.
    + intros ->. read_fields.
Qed.

(** X20. [rdpq_set_scissor], on integer coordinates: it stops when a lower
    bound is above its upper bound or an upper bound is zero; otherwise each
    read_fields holds four times the coordinate modulo 2^12. *)
Theorem scissor_checks_and_fields x0 y0 x1 y1 :
  0 <= x0 < 2 ^ 30 -> 0 <= y0 < 2 ^ 30 -> 0 <= x1 < 2 ^ 30 -> 0 <= y1 < 2 ^ 30 ->
  (x1 < x0 \/ y1 < y0 \/ x1 = 0 \/ y1 = 0 ->
     aborted (rdpq_set_scissor x0 y0 x1 y1) = true)
  /\ (x0 <= x1 -> y0 <= y1 -> 0 < x1 -> 0 < y1 ->
      exists a0 a1,
        rdpq_set_scissor x0 y0 x1 y1 = Ok (__rdpq_set_scissor a0 a1) tt
        /\ bits a0 12 12 = (x0 * 4) mod 2 ^ 12 /\ bits a0 0 12 = (y0 * 4) mod 2 ^ 12
        /\ bits a1 12 12 = (x1 * 4) mod 2 ^ 12 /\ bits a1 0 12 = (y1 * 4) mod 2 ^ 12).
Proof.
  intros Hx0 Hy0 Hx1 Hy1. unfold rdpq_set_scissor. cbv zeta.
  rewrite (uint32_small (x0 * 4)), (uint32_small (y0 * 4)),
    (uint32_small (x1 * 4)), (uint32_small (y1 * 4)) by lia.
  split.
  - intros Hbad.
    destruct (Z.leb_spec (x0 * 4) (x1 * 4)); cbn [negb]; [|reflexivity].
    destruct (Z.leb_spec (y0 * 4) (y1 * 4)); cbn [negb]; [|reflexivity].
    destruct (Z.ltb_spec 0 (x1 * 4)); cbn [negb]; [|reflexivity].
    destruct (Z.ltb_spec 0 (y1 * 4)); cbn [negb]; [|reflexivity].
    lia.
  - intros Hx Hy Hx1p Hy1p.
    destruct (Z.leb_spec (x0 * 4) (x1 * 4)); cbn [negb]; [|lia].
    destruct (Z.leb_spec (y0 * 4) (y1 * 4)); cbn [negb]; [|lia].
    destruct (Z.ltb_spec 0 (x1 * 4)); cbn [negb]; [|lia].
    destruct (Z.ltb_spec 0 (y1 * 4)); cbn [negb]; [|lia].
    eexists _, _. split; [reflexivity|].
    to_fields. repeat split; read_fields.
Qed.

(** X21. [rdpq_set_fill_color] packs the four 8-bit channels as the bytes of
    one word, red in the top byte. *)
Theorem fill_color_bytes c :
  0 <= r c < 2 ^ 8 -> 0 <= g c < 2 ^ 8 -> 0 <= b c < 2 ^ 8 -> 0 <= a c < 2 ^ 8 ->
  exists w,
    rdpq_set_fill_color c = __rdpq_set_fill_color w
    /\ bits w 24 8 = r c /\ bits w 16 8 = g c /\ bits w 8 8 = b c /\ bits w 0 8 = a c.
Proof.
  destruct c as [cr cg cb ca]. cbn [r g b a]. intros Hr Hg Hb Ha.
  unfold rdpq_set_fill_color. cbn [r g b a]. eexists. split; [reflexivity|].
  rewrite !bits_uint32 by lia.
  rewrite <- (Z.mod_small cr (2 ^ 8)), <- (Z.mod_small cg (2 ^ 8)),
    <- (Z.mod_small cb (2 ^ 8)), <- (Z.mod_small ca (2 ^ 8)) by lia.
  repeat split; read_fields.
Qed.

(** X22. [rdpq_set_fill_color_stripes] packs each colour as 5-5-5-1: the top
    five bits of red, green and blue and the top bit of alpha; the first
    colour fills the upper half of the word and the second the lower half. *)
Theorem fill_color_stripes_5551 c1 c2 :
  0 <= r c1 < 2 ^ 8 -> 0 <= g c1 < 2 ^ 8 -> 0 <= b c1 < 2 ^ 8 -> 0 <= a c1 < 2 ^ 8 ->
  0 <= r c2 < 2 ^ 8 -> 0 <= g c2 < 2 ^ 8 -> 0 <= b c2 < 2 ^ 8 -> 0 <= a c2 < 2 ^ 8 ->
  exists w,
    rdpq_set_fill_color_stripes c1 c2
    = __rdpq_write8_syncchange (cmd_id RDPQ_CMD_SET_FILL_COLOR) 0 w AUTOSYNC_PIPE
    /\ bits w 27 5 = r c1 / 2 ^ 3 /\ bits w 22 5 = g c1 / 2 ^ 3
    /\ bits w 17 5 = b c1 / 2 ^ 3 /\ bits w 16 1 = a c1 / 2 ^ 7
    /\ bits w 11 5 = r c2 / 2 ^ 3 /\ bits w 6 5 = g c2 / 2 ^ 3
    /\ bits w 1 5 = b c2 / 2 ^ 3 /\ bits w 0 1 = a c2 / 2 ^ 7.
Proof.
  destruct c1 as [r1 g1 b1 a1], c2 as [r2 g2 b2 a2]. cbn [r g b a].
  intros Hr1 Hg1 Hb1 Ha1 Hr2 Hg2 Hb2 Ha2.
  unfold rdpq_set_fill_color_stripes. cbn [r g b a]. cbv zeta.
  eexists. split; [reflexivity|].
  rewrite !Z.shiftr_div_pow2 by lia.
  assert (Hq : forall x, 0 <= x < 2 ^ 8 ->
                 0 <= x / 2 ^ 3 < 2 ^ 5 /\ 0 <= x / 2 ^ 7 < 2 ^ 1).
  { intros x Hx. change (2 ^ 3) with 8. change (2 ^ 7) with 128.
    change (2 ^ 5) with 32. change (2 ^ 1) with 2. change (2 ^ 8) with 256 in Hx.
    Z.div_mod_to_equations; lia. }
  destruct (Hq r1 Hr1) as [Br1 _]. destruct (Hq g1 Hg1) as [Bg1 _].
  destruct (Hq b1 Hb1) as [Bb1 _]. destruct (Hq a1 Ha1) as [_ Ba1].
  destruct (Hq r2 Hr2) as [Br2 _]. destruct (Hq g2 Hg2) as [Bg2 _].
  destruct (Hq b2 Hb2) as [Bb2 _]. destruct (Hq a2 Ha2) as [_ Ba2].
  generalize dependent (r1 / 2 ^ 3). intros R1 HR1.
  generalize dependent (g1 / 2 ^ 3). intros G1 HG1.
  generalize dependent (b1 / 2 ^ 3). intros B1 HB1.
  generalize dependent (a1 / 2 ^ 7). intros A1 HA1.
  generalize dependent (r2 / 2 ^ 3). intros R2 HR2.
  generalize dependent (g2 / 2 ^ 3). intros G2 HG2.
  generalize dependent (b2 / 2 ^ 3). intros B2 HB2.
  generalize dependent (a2 / 2 ^ 7). intros A2 HA2.
  clear Hq.
  rewrite <- (Z.mod_small R1 (2 ^ 5)), <- (Z.mod_small G1 (2 ^ 5)),
    <- (Z.mod_small B1 (2 ^ 5)), <- (Z.mod_small R2 (2 ^ 5)),
    <- (Z.mod_small G2 (2 ^ 5)), <- (Z.mod_small B2 (2 ^ 5)) by lia.
  assert (Hhalf : forall R G B A lo w,
             0 <= A < 2 ^ 1 -> 0 <= lo -> 0 <= w -> lo + w <= 16 ->
             bits (Z.lor
                     (uint32 (Z.shiftl
                                (uint32 (Z.lor (Z.lor (Z.lor (Z.shiftl (R mod 2 ^ 5) 11)
                                                             (Z.shiftl (G mod 2 ^ 5) 6))
                                                      (Z.shiftl (B mod 2 ^ 5) 1)) A)) 16))
                     (uint32 (Z.lor (Z.lor (Z.lor (Z.shiftl (R2 mod 2 ^ 5) 11)
                                                  (Z.shiftl (G2 mod 2 ^ 5) 6))
                                           (Z.shiftl (B2 mod 2 ^ 5) 1)) A2)))
               (lo + 16) w
             = bits (Z.lor (Z.lor (Z.lor (Z.shiftl (R mod 2 ^ 5) 11)
                                         (Z.shiftl (G mod 2 ^ 5) 6))
                                  (Z.shiftl (B mod 2 ^ 5) 1)) A) lo w).
  { intros R G B A lo w HA Hlo Hw Hfit.
    set (F := Z.lor (Z.lor (Z.lor (Z.shiftl (R mod 2 ^ 5) 11) (Z.shiftl (G mod 2 ^ 5) 6))
                           (Z.shiftl (B mod 2 ^ 5) 1)) A).
    rewrite bits_lor, !bits_uint32, bits_shiftl_up, bits_uint32 by lia.
    rewrite !bits_lor.
    rewrite !bits_field_other by lia.
    rewrite (bits_small_other A2 1) by lia.
    rewrite !Z.lor_0_r. reflexivity. }
  assert (Hlow : forall X lo w,
             0 <= lo -> 0 <= w -> lo + w <= 16 ->
             bits (Z.lor (uint32 (Z.shiftl X 16))
                     (uint32 (Z.lor (Z.lor (Z.lor (Z.shiftl (R2 mod 2 ^ 5) 11)
                                                  (Z.shiftl (G2 mod 2 ^ 5) 6))
                                           (Z.shiftl (B2 mod 2 ^ 5) 1)) A2)))
               lo w
             = bits (Z.lor (Z.lor (Z.lor (Z.shiftl (R2 mod 2 ^ 5) 11)
                                         (Z.shiftl (G2 mod 2 ^ 5) 6))
                                  (Z.shiftl (B2 mod 2 ^ 5) 1)) A2) lo w).
  { intros X lo w Hlo Hw Hfit.
    rewrite bits_lor, !bits_uint32, bits_shiftl_below by lia.
    apply Z.lor_0_l. }
  change 27 with (11 + 16). change 22 with (6 + 16). change 17 with (1 + 16).
  change (bits ?x 16 1) with (bits x (0 + 16) 1).
  rewrite !Hhalf, !Hlow by lia.
  repeat split; rewrite !bits_lor;
    rewrite ?bits_field_same by lia; rewrite ?bits_field_other by lia;
    rewrite ?(bits_small_other A1 1), ?(bits_small_other A2 1),
      ?(bits_small_same A1 1), ?(bits_small_same A2 1) by lia;
    rewrite ?Z.lor_0_r, ?Z.lor_0_l; reflexivity.
Qed.

(** X23. The ids of the command enumeration are pairwise distinct and fit in
    six bits. *)
Theorem cmd_id_injective c1 c2 :
  cmd_id c1 = cmd_id c2 -> c1 = c2 /\ 0 <= cmd_id c1 < 0x40.
Proof.
  destruct c1, c2; cbn [cmd_id]; intros H;
    first [ split; [reflexivity | lia] | discriminate H ].
Qed.

(** X24. [rdpq_change_other_modes_raw] makes no call for a half of the mask
    that is zero, the upper half first; the bits that the calls let the RSP
    overwrite add up to the mask.  The calls, in the order they are made:
    for a nonzero upper half, offset 0 with the complement of that half and
    the upper half of the value; then, for a nonzero lower half, offset 4
    with the complement of that half and the lower half of the value. *)
Theorem change_other_modes_covers_mask mask val :
  0 <= mask < 2 ^ 64 ->
  let calls := rdpq_change_other_modes_raw mask val in
  fold_right (fun c acc => modified_bits c + acc) 0 calls = mask
  /\ Z.of_nat (length calls)
     = (if mask / 2 ^ 32 =? 0 then 0 else 1) + (if mask mod 2 ^ 32 =? 0 then 0 else 1)
  /\ (mask = 0 -> calls = [])
  /\ calls
     = (if mask / 2 ^ 32 =? 0 then []
        else [__rdpq_modify_other_modes 0 (2 ^ 32 - 1 - mask / 2 ^ 32)
                ((val / 2 ^ 32) mod 2 ^ 32)])
       ++ (if mask mod 2 ^ 32 =? 0 then []
           else [__rdpq_modify_other_modes 4 (2 ^ 32 - 1 - mask mod 2 ^ 32)
                   (val mod 2 ^ 32)]).
Proof.
  intros Hmask calls. subst calls. unfold rdpq_change_other_modes_raw.
  rewrite !Z.shiftr_div_pow2 by lia. change (uint32 mask) with (mask mod 2 ^ 32).
  change (uint32 val) with (val mod 2 ^ 32).
  change (uint32 (val / 2 ^ 32)) with ((val / 2 ^ 32) mod 2 ^ 32).
  assert (Hhi : 0 <= mask / 2 ^ 32 < 2 ^ 32).
  { change (2 ^ 64) with (2 ^ 32 * 2 ^ 32) in Hmask.
    split; [apply Z.div_pos; lia | apply Z.div_lt_upper_bound; lia]. }
  pose proof (Z.mod_pos_bound mask (2 ^ 32) ltac:(lia)) as Hlo.
  pose proof (Z.div_mod mask (2 ^ 32) ltac:(lia)) as Hsplit.
  rewrite !uint32_lnot by assumption.
  change (2 ^ 32) with 4294967296 in *.
  destruct (Z.eqb_spec (mask / 4294967296) 0) as [Hz | Hnz];
    destruct (Z.eqb_spec (mask mod 4294967296) 0) as [Hz' | Hnz'];
    cbn [negb app fold_right modified_bits length];
    change (2 ^ (32 - 8 * 0)) with 4294967296; change (2 ^ (32 - 8 * 4)) with 1;
    change (2 ^ 32) with 4294967296;
    (split; [lia | split; [reflexivity|]]);
    (split; [|reflexivity]);
    first [ reflexivity | intros Hm; exfalso; subst mask; cbn in *; lia ].
Qed.

(** X25. [rdpq_set_lookup_address] accepts the indices 1 to 15 only, and
    passes four times the index on; index 0, which the image functions
    accept, is refused. *)
Theorem lookup_address_index P index addr :
  (index < 1 \/ 15 < index ->
     aborted (rdpq_set_lookup_address P index addr) = true)
  /\ (1 <= index <= 15 ->
      rdpq_set_lookup_address P index addr
      = Ok (__rdpq_dynamic_write8 (cmd_id RDPQ_CMD_SET_LOOKUP_ADDRESS)
              (4 * index) (P addr)) tt)
  /\ aborted (rdpq_set_lookup_address P 0 addr) = true
  /\ aborted (rdpq_set_z_image_lookup 0 addr) = false.
Proof.
  unfold rdpq_set_lookup_address. split; [|split; [|split; reflexivity]].
  - intros Hbad. destruct (Z.ltb_spec 0 index); cbn [andb negb]; [|reflexivity].
    destruct (Z.leb_spec index 15); [lia | reflexivity].
  - intros Hok. destruct (Z.ltb_spec 0 index); [|lia].
    destruct (Z.leb_spec index 15); [|lia]. cbn [andb negb].
    do 3 f_equal. unfold uint32. rewrite Z.shiftl_mul_pow2 by lia.
    rewrite Z.mod_small; lia.
Qed.


(** *** Concrete calls *)

(** A 16-bit value placed in a 12-bit read_fields at bit 12. *)
Lemma carg_places_field_witness :
  bits (_carg 0x1234 (Z.ones 12) 12) 12 12 = 0x234
  /\ bits (_carg 0x1234 (Z.ones 12) 12) 24 8 = 0.
Proof.
  destruct (carg_places_field 0x1234 12 12) as [Hsame Hother]; [lia | lia | lia |].
  split; [exact Hsame|]. apply Hother; lia.
Defined.

(** A sprite drawn with a negative texture step. *)
Lemma texture_rectangle_round_trip_witness :
  exists w0 w1 w2 w3,
    rdpq_texture_rectangle_fx 1 40 80 168 208 0 (-32) 1024 (-1024)
    = __rdpq_texture_rectangle w0 w1 w2 w3
    /\ bits w1 24 3 = 1
    /\ sign_extend 16 (bits w2 0 16) = -32
    /\ sign_extend 16 (bits w3 0 16) = -1024.
Proof.
  destruct (texture_rectangle_round_trip 1 40 80 168 208 0 (-32) 1024 (-1024))
    as (w0 & w1 & w2 & w3 & Hcall & _ & _ & _ & Htile & _ & _ & _ & Ht & _ & Hdt & _);
    try lia.
  exists w0, w1, w2, w3. repeat split; assumption.
Defined.

(** Tile index 9: the command names tile 1, the declared bit is a TMEM bit. *)
Lemma tile_field_and_declared_bit_witness :
  exists a0 a1,
    rdpq_set_tile_size_fx 9 0 0 128 128
    = __rdpq_write8_syncchange (cmd_id RDPQ_CMD_SET_TILE_SIZE) a0 a1 (AUTOSYNC_TILE 9)
    /\ bits a1 24 3 = 1
    /\ resource_of_bit 9 = Some tmem_bank
    /\ AUTOSYNC_TILE 9 = AUTOSYNC_TMEM 1.
Proof.
  destruct (tile_field_and_declared_bit 9 0 0 128 128)
    as (a0 & a1 & Hcall & Htile & _ & _ & _ & Hres & Hbit); [lia|].
  exists a0, a1. split; [exact Hcall|]. split; [exact Htile|].
  split; [exact Hres|]. apply Hbit. lia.
Defined.

(** A tile at TMEM address 2048 with a pitch of 64 bytes; an address of 2052
    is refused. *)
Lemma set_tile_alignment_witness :
  (exists a0 a1,
      rdpq_set_tile 1 2 2048 64 0
      = Ok (__rdpq_write8_syncchange (cmd_id RDPQ_CMD_SET_TILE) a0 a1 (AUTOSYNC_TILE 1)) tt
      /\ 8 * bits a0 0 9 = 2048 /\ 8 * bits a0 9 9 = 64)
  /\ aborted (rdpq_set_tile 1 2 2052 64 0) = true.
Proof.
  split.
  - destruct (set_tile_alignment 1 2 2048 64 0) as (_ & Hok & _); [lia | lia |].
    destruct (Hok eq_refl eq_refl) as (a0 & a1 & Hcall & Haddr & Hpitch & _).
    exists a0, a1. repeat split; assumption.
  - destruct (set_tile_alignment 1 2 2052 64 0) as (Hbad & _); [lia | lia |].
    apply Hbad. left. discriminate.
Defined.

(** Lookup slot 3 with a width of 0, and slot 16. *)
Lemma texture_image_lookup_fields_witness :
  (exists a0 a1,
      rdpq_set_texture_image_lookup 3 0x123456 2 0
      = Ok (__rdpq_set_fixup_image (cmd_id RDPQ_CMD_SET_TEXTURE_IMAGE)
              (cmd_id RDPQ_CMD_SET_TEXTURE_IMAGE_FIX) a0 a1) tt
      /\ bits a1 28 4 = 3 /\ bits a0 0 10 = 1023)
  /\ aborted (rdpq_set_texture_image_lookup 16 0x123456 2 0) = true.
Proof.
  split.
  - destruct (texture_image_lookup_fields 3 0x123456 2 0) as (_ & Hok); [lia|].
    destruct (Hok ltac:(lia)) as (a0 & a1 & Hcall & Hidx & _ & _ & _ & _ & Hw).
    exists a0, a1. split; [exact Hcall|]. split; [exact Hidx|]. apply Hw. reflexivity.
  - destruct (texture_image_lookup_fields 16 0x123456 2 0) as (Hbad & _); [lia|].
    apply Hbad. lia.
Defined.

(** The full 320 by 240 screen, a right edge of 1024, and an empty width. *)
Lemma scissor_checks_and_fields_witness :
  (exists a0 a1,
      rdpq_set_scissor 0 0 320 240 = Ok (__rdpq_set_scissor a0 a1) tt
      /\ bits a1 12 12 = 1280 /\ bits a1 0 12 = 960)
  /\ (exists a0 a1,
         rdpq_set_scissor 0 0 1024 240 = Ok (__rdpq_set_scissor a0 a1) tt
         /\ bits a1 12 12 = 0)
  /\ aborted (rdpq_set_scissor 0 0 0 240) = true.
Proof.
  split; [|split].
  - destruct (scissor_checks_and_fields 0 0 320 240) as (_ & Hok); try lia.
    destruct (Hok ltac:(lia) ltac:(lia) ltac:(lia) ltac:(lia))
      as (a0 & a1 & Hcall & _ & _ & Hx & Hy).
    exists a0, a1. repeat split; assumption.
  - destruct (scissor_checks_and_fields 0 0 1024 240) as (_ & Hok); try lia.
    destruct (Hok ltac:(lia) ltac:(lia) ltac:(lia) ltac:(lia))
      as (a0 & a1 & Hcall & _ & _ & Hx & _).
    exists a0, a1. split; assumption.
  - destruct (scissor_checks_and_fields 0 0 0 240) as (Hbad & _); try lia.
    apply Hbad. right. right. left. reflexivity.
Defined.

(** Opaque orange. *)
Lemma fill_color_bytes_witness :
  exists w,
    rdpq_set_fill_color {| r := 0xFF; g := 0x80; b := 0x00; a := 0xFF |}
    = __rdpq_set_fill_color w
    /\ bits w 24 8 = 0xFF /\ bits w 16 8 = 0x80 /\ bits w 8 8 = 0x00 /\ bits w 0 8 = 0xFF.
Proof.
  apply (fill_color_bytes {| r := 0xFF; g := 0x80; b := 0x00; a := 0xFF |});
    cbn; lia.
Defined.

(** Opaque orange and transparent black. *)
Lemma fill_color_stripes_5551_witness :
  exists w,
    rdpq_set_fill_color_stripes {| r := 0xFF; g := 0x80; b := 0x00; a := 0xFF |}
                                {| r := 0; g := 0; b := 0; a := 0 |}
    = __rdpq_write8_syncchange (cmd_id RDPQ_CMD_SET_FILL_COLOR) 0 w AUTOSYNC_PIPE
    /\ bits w 27 5 = 31 /\ bits w 22 5 = 16 /\ bits w 16 1 = 1 /\ bits w 0 1 = 0.
Proof.
  destruct (fill_color_stripes_5551 {| r := 0xFF; g := 0x80; b := 0x00; a := 0xFF |}
                                    {| r := 0; g := 0; b := 0; a := 0 |})
    as (w & Hcall & Hr & Hg & _ & Ha & _ & _ & _ & Ha2); try (cbn; lia).
  exists w. repeat split; assumption.
Defined.

Lemma cmd_id_injective_witness :
  RDPQ_CMD_SYNC_PIPE = RDPQ_CMD_SYNC_PIPE /\ 0 <= cmd_id RDPQ_CMD_SYNC_PIPE < 0x40.
Proof. apply (cmd_id_injective RDPQ_CMD_SYNC_PIPE RDPQ_CMD_SYNC_PIPE). reflexivity. Defined.

(** A mask with bits in both halves, and one with bits in the lower half
    only; for the first, the call for the upper half comes first. *)
Lemma change_other_modes_covers_mask_witness :
  fold_right (fun c acc => modified_bits c + acc) 0
    (rdpq_change_other_modes_raw 0x0030000000000003 0x0010000000000001)
  = 0x0030000000000003
  /\ length (rdpq_change_other_modes_raw 0x3 0x1) = 1%nat
  /\ rdpq_change_other_modes_raw 0x0030000000000003 0x0010000000000001
     = [__rdpq_modify_other_modes 0 0xFFCFFFFF 0x00100000;
        __rdpq_modify_other_modes 4 0xFFFFFFFC 0x00000001].
Proof.
  split; [|split].
  - apply (change_other_modes_covers_mask 0x0030000000000003 0x0010000000000001). lia.
  - destruct (change_other_modes_covers_mask 0x3 0x1) as (_ & Hlen & _); [lia|].
    apply Nat2Z.inj. cbv zeta in Hlen. rewrite Hlen. reflexivity.
  - destruct (change_other_modes_covers_mask 0x0030000000000003 0x0010000000000001)
      as (_ & _ & _ & Hcalls); [lia|].
    cbv zeta in Hcalls. rewrite Hcalls. reflexivity.
Defined.

(** Slot 15 is accepted, slot 16 is not. *)
Lemma lookup_address_index_witness :
  rdpq_set_lookup_address (fun a => Z.land a 0x1FFFFFFF) 15 0x80300000
  = Ok (__rdpq_dynamic_write8 (cmd_id RDPQ_CMD_SET_LOOKUP_ADDRESS) 60 0x300000) tt
  /\ aborted (rdpq_set_lookup_address (fun a => Z.land a 0x1FFFFFFF) 16 0x80300000) = true.
Proof.
  destruct (lookup_address_index (fun a => Z.land a 0x1FFFFFFF) 15 0x80300000)
    as (_ & Hok & _).
  destruct (lookup_address_index (fun a => Z.land a 0x1FFFFFFF) 16 0x80300000)
    as (Hbad & _).
  split; [apply Hok; lia | apply Hbad; lia].
Defined.

End RdpqMoreFacts.

(** ** The error flag, [gl_log2] and balanced use of a matrix stack *)

Module GlMoreFacts.
Import Gl GlMore.

Lemma gl_log2_loop_run fuel : forall s log,
  0 < s < 2 ^ Z.of_nat fuel -> 0 <= log -> log + Z.log2 s < 2 ^ 32 ->
  gl_log2_loop fuel s log = Some (log + Z.log2 s).
Proof.
  induction fuel as [|fuel IH]; intros s log Hs Hlog Hfit.
  - cbn in Hs. lia.
  - cbn [gl_log2_loop].
    assert (Hdiv : Z.shiftr s 1 = s / 2) by (rewrite Z.shiftr_div_pow2 by lia; reflexivity).
    rewrite Nat2Z.inj_succ, Z.pow_succ_r in Hs by lia.
    destruct (Z.eqb_spec (Z.shiftr s 1) 0) as [Hz | Hnz].
    + assert (s = 1) by (rewrite Hdiv in Hz; Z.div_mod_to_equations; lia). subst s.
      rewrite Z.add_0_r. reflexivity.
    + assert (Hs2 : 2 <= s) by (rewrite Hdiv in Hnz; Z.div_mod_to_equations; lia).
      assert (Hl : Z.log2 (Z.shiftr s 1) = Z.log2 s - 1).
      { rewrite Z.log2_shiftr by lia.
        pose proof (Z.log2_le_mono 2 s Hs2) as Hm. change (Z.log2 2) with 1 in Hm.
        lia. }
      pose proof (Z.log2_nonneg (Z.shiftr s 1)).
      unfold uint32. rewrite (Z.mod_small (log + 1)) by lia.
      rewrite IH; [f_equal; lia | | lia | lia].
      rewrite Hdiv. Z.div_mod_to_equations; lia.
Qed.

(** X26. [gl_log2] returns for every 32-bit argument: 0 for 0 and for 1, and
    otherwise the exponent of the largest power of two that does not exceed
    the argument. *)
Theorem gl_log2_floor s :
  0 <= s < 2 ^ 32 ->
  exists k,
    gl_log2 s = Some k
    /\ (s <= 1 -> k = 0)
    /\ (1 <= s -> 2 ^ k <= s < 2 ^ (k + 1)).
Proof.
  intros Hs. unfold gl_log2, uint32. rewrite Z.mod_small by exact Hs.
  destruct (Z.eq_dec s 0) as [-> | Hne].
  - exists 0. split; [reflexivity|]. split; [reflexivity | lia].
  - assert (Hl : Z.log2 s < 32) by (apply Z.log2_lt_pow2; lia).
    pose proof (Z.log2_nonneg s).
    exists (Z.log2 s). split.
    + rewrite gl_log2_loop_run by (cbn; lia). reflexivity.
    + split.
      * intros Hle. assert (s = 1) by lia. subst s. reflexivity.
      * intros _. apply Z.log2_spec. lia.
Qed.

Section WithHeaders.
Context `{H : headers}.

Lemma deref_assign_same p v s : deref p (assign p v s) = v.
Proof. destruct p; reflexivity. Qed.

(** One push below the top of the stack. *)
Lemma push_run s M :
  let p := current_matrix_stack s in
  let st := deref p s in
  Z.of_nat (length (storage st)) = size st -> size st < 2 ^ 31 ->
  0 <= cur_depth st -> cur_depth st + 1 < size st ->
  load (storage st) (cur_depth st) = Some M ->
  glPushMatrix s
  = Ok tt (set_current_matrix (p, cur_depth st + 1)
             (assign p {| storage := <[Z.to_nat (cur_depth st + 1) := M]> (storage st);
                          size := size st; cur_depth := cur_depth st + 1 |} s)).
Proof.
  intros p st Hlen Hsize Hd Hroom HM.
  unfold glPushMatrix, bind, gets. fold p. fold st.
  rewrite GlFacts.int32_small by lia.
  destruct (Z.leb_spec (size st) (cur_depth st + 1)); [lia|].
  unfold set_cur_depth, modify, copy_matrix, gl_update_current_matrix,
    gl_matrix_stack_get_matrix, bind, gets, ret. fold p. fold st.
  rewrite !deref_assign_same. cbn [storage size cur_depth].
  replace (cur_depth st + 1 - 1) with (cur_depth st) by lia.
  rewrite HM. rewrite store_in_range by lia.
  subst p st. destruct (current_matrix_stack s) eqn:E; cbn; rewrite ?E; reflexivity.
Qed.

(** One pop above the bottom of the stack. *)
Lemma pop_run s :
  let p := current_matrix_stack s in
  let st := deref p s in
  0 < cur_depth st < 2 ^ 31 ->
  glPopMatrix s
  = Ok tt (set_current_matrix (p, cur_depth st - 1)
             (assign p {| storage := storage st; size := size st;
                          cur_depth := cur_depth st - 1 |} s)).
Proof.
  intros p st Hd.
  unfold glPopMatrix, bind, gets. fold p. fold st.
  rewrite GlFacts.int32_small by lia.
  destruct (Z.ltb_spec (cur_depth st - 1) 0); [lia|].
  unfold set_cur_depth, modify, gl_update_current_matrix,
    gl_matrix_stack_get_matrix, bind, gets, ret. fold p. fold st.
  subst p st. destruct (current_matrix_stack s) eqn:E; cbn; rewrite ?E; reflexivity.
Qed.


Lemma after_stack_write p q v s :
  current_matrix_stack (set_current_matrix q (assign p v s)) = current_matrix_stack s
  /\ deref p (set_current_matrix q (assign p v s)) = v
  /\ deref (other_stack p) (set_current_matrix q (assign p v s)) = deref (other_stack p) s
  /\ current_error (set_current_matrix q (assign p v s)) = current_error s
  /\ current_matrix (set_current_matrix q (assign p v s)) = q.
Proof. destruct p; repeat split; reflexivity. Qed.

Lemma pushes_run n : forall s,
  let p := current_matrix_stack s in
  let st := deref p s in
  Z.of_nat (length (storage st)) = size st -> size st < 2 ^ 31 ->
  0 <= cur_depth st -> cur_depth st + Z.of_nat n < size st ->
  exists s',
    repeat_command n glPushMatrix s = Ok tt s'
    /\ current_matrix_stack s' = p
    /\ size (deref p s') = size st
    /\ length (storage (deref p s')) = length (storage st)
    /\ cur_depth (deref p s') = cur_depth st + Z.of_nat n
    /\ (forall i, i <= cur_depth st ->
                  load (storage (deref p s')) i = load (storage st) i)
    /\ (forall i, cur_depth st <= i <= cur_depth st + Z.of_nat n ->
                  load (storage (deref p s')) i = load (storage st) (cur_depth st))
    /\ deref (other_stack p) s' = deref (other_stack p) s
    /\ current_error s' = current_error s
    /\ ((0 < n)%nat -> current_matrix s' = (p, cur_depth st + Z.of_nat n)).
Proof.
  induction n as [|n IH]; intros s p st Hlen Hsize Hd Hroom.
  - exists s. cbn. rewrite Z.add_0_r. repeat split; try reflexivity.
    + intros i Hi. f_equal. lia.
    + lia.
  - destruct (load_in_range (storage st) (cur_depth st)) as [M HM]; [lia|].
    assert (Hroom1 : cur_depth st + 1 < size st) by lia.
    pose proof (push_run s M Hlen Hsize Hd Hroom1 HM) as Hrun1.
    fold p in Hrun1. fold st in Hrun1.
    set (l := <[Z.to_nat (cur_depth st + 1) := M]> (storage st)) in *.
    set (v := {| storage := l; size := size st; cur_depth := cur_depth st + 1 |}) in *.
    set (s1 := set_current_matrix (p, cur_depth st + 1) (assign p v s)) in *.
    destruct (after_stack_write p (p, cur_depth st + 1) v s)
      as (Hp1 & Hst1 & Ho1 & He1 & _).
    fold s1 in Hp1, Hst1, Ho1, He1. fold p in Hp1.
    assert (Hstore : store (storage st) (cur_depth st + 1) M = Some l).
    { apply store_in_range. lia. }
    destruct (IH s1) as (s' & Hrun & Hp & Hsz & Hl & Hdep & Hlow & Htop & Ho & He & Hcm).
    { rewrite Hp1, Hst1. cbn. unfold l. rewrite length_insert. exact Hlen. }
    { rewrite Hp1, Hst1. exact Hsize. }
    { rewrite Hp1, Hst1. cbn. lia. }
    { rewrite Hp1, Hst1. cbn. lia. }
    rewrite Hp1, Hst1 in *. cbn [storage size cur_depth v] in *.
    exists s'. split.
    { cbn [repeat_command]. unfold bind. rewrite Hrun1. exact Hrun. }
    split; [exact Hp|]. split; [exact Hsz|].
    split; [rewrite Hl; unfold l; apply length_insert|].
    split; [lia|].
    split; [|split; [|split; [congruence|split; [congruence|]]]].
    + intros i Hi. rewrite Hlow by lia.
      apply (load_store_ne _ _ i _ _ Hstore). lia.
    + intros i Hi. destruct (Z.eq_dec i (cur_depth st)) as [-> | Hne].
      * rewrite Hlow by lia. apply (load_store_ne _ _ _ _ _ Hstore). lia.
      * rewrite Htop by lia. rewrite (load_store_eq _ _ _ _ Hstore). symmetry. exact HM.
    + intros _. destruct n as [|n'].
      * cbn in Hrun. injection Hrun as <-. unfold s1. cbn. f_equal.
      * rewrite Hcm by lia. f_equal. lia.
Qed.

Lemma repeat_command_snoc {S} n (c : M S unit) s :
  repeat_command (Datatypes.S n) c s = bind (repeat_command n c) (fun _ => c) s.
Proof.
  revert s. induction n as [|n IH]; intros s.
  - cbn. unfold bind, ret. destruct (c s) as [[] ?| |]; reflexivity.
  - transitivity (bind c (fun _ => repeat_command (Datatypes.S n) c) s); [reflexivity|].
    transitivity (bind (bind c (fun _ => repeat_command n c)) (fun _ => c) s);
      [|reflexivity].
    unfold bind. destruct (c s) as [[] s1| |]; [|reflexivity|reflexivity].
    rewrite IH. reflexivity.
Qed.

Lemma pops_run n : forall s,
  let p := current_matrix_stack s in
  let st := deref p s in
  Z.of_nat n <= cur_depth st < 2 ^ 31 ->
  exists s',
    repeat_command n glPopMatrix s = Ok tt s'
    /\ current_matrix_stack s' = p
    /\ storage (deref p s') = storage st
    /\ size (deref p s') = size st
    /\ cur_depth (deref p s') = cur_depth st - Z.of_nat n
    /\ deref (other_stack p) s' = deref (other_stack p) s
    /\ current_error s' = current_error s
    /\ ((0 < n)%nat -> current_matrix s' = (p, cur_depth st - Z.of_nat n)).
Proof.
  induction n as [|n IH]; intros s p st Hd.
  - exists s. cbn. rewrite Z.sub_0_r. repeat split; try reflexivity. lia.
  - destruct (IH s) as (s1 & Hrun1 & Hp1 & Hs1 & Hz1 & Hd1 & Ho1 & He1 & _);
      [fold p; fold st; lia|].
    fold p in Hp1, Hs1, Hz1, Hd1, Ho1. fold st in Hs1, Hz1, Hd1.
    pose proof (pop_run s1) as Hrun2. cbv zeta in Hrun2.
    rewrite Hp1, Hs1, Hz1, Hd1 in Hrun2. specialize (Hrun2 ltac:(lia)).
    eexists. split.
    { rewrite repeat_command_snoc. unfold bind. rewrite Hrun1. exact Hrun2. }
    match goal with |- context [set_current_matrix ?q (assign p ?v s1)] =>
      destruct (after_stack_write p q v s1) as (Ha & Hb & Hc & He & Hf) end.
    rewrite Ha, Hb, Hc, He, Hf. cbn [storage size cur_depth].
    split; [exact Hp1|]. split; [reflexivity|]. split; [reflexivity|].
    split; [lia|]. split; [exact Ho1|]. split; [exact He1|].
    intros _. f_equal. lia.
Qed.

(** X27. [n] pushes followed by [n] pops, with room for the pushes: every
    call returns, the pushes leave a copy of the old top matrix on top, and
    the pops bring back the old depth with every matrix at or below it as it
    was; the other stack and the error flag are untouched. *)
Theorem push_pop_balanced n s :
  let p := current_matrix_stack s in
  let st := deref p s in
  Z.of_nat (length (storage st)) = size st -> size st < 2 ^ 31 ->
  0 <= cur_depth st -> cur_depth st + Z.of_nat n < size st ->
  exists s1 s2,
    repeat_command n glPushMatrix s = Ok tt s1
    /\ repeat_command n glPopMatrix s1 = Ok tt s2
    /\ cur_depth (deref p s1) = cur_depth st + Z.of_nat n
    /\ current_configuration s1 = current_configuration s
    /\ cur_depth (deref p s2) = cur_depth st
    /\ current_configuration s2 = current_configuration s
    /\ (forall i, i <= cur_depth st ->
                  load (storage (deref p s2)) i = load (storage st) i)
    /\ deref (other_stack p) s2 = deref (other_stack p) s
    /\ current_error s2 = current_error s
    /\ ((0 < n)%nat -> current_matrix s2 = (p, cur_depth st)).
Proof.
  intros p st Hlen Hsize Hd Hroom.
  destruct (pushes_run n s Hlen Hsize Hd Hroom)
    as (s1 & Hrun1 & Hp1 & Hz1 & Hl1 & Hd1 & Hlow1 & Htop1 & Ho1 & He1 & _).
  fold p in Hp1, Hz1, Hl1, Hd1, Hlow1, Htop1, Ho1.
  fold st in Hz1, Hl1, Hd1, Hlow1, Htop1.
  destruct (pops_run n s1) as (s2 & Hrun2 & Hp2 & Hs2 & Hz2 & Hd2 & Ho2 & He2 & Hcm2).
  { rewrite Hp1, Hd1. lia. }
  rewrite Hp1 in *. rewrite Hd1 in *.
  exists s1, s2. split; [exact Hrun1|]. split; [exact Hrun2|].
  split; [exact Hd1|].
  split; [unfold current_configuration; rewrite Hp1; fold p; rewrite Hd1;
          fold st; apply Htop1; lia|].
  split; [lia|].
  split; [unfold current_configuration; rewrite Hp2; fold p; rewrite Hd2, Hs2;
          fold st; replace (cur_depth st + Z.of_nat n - Z.of_nat n) with (cur_depth st)
            by lia; apply Hlow1; lia|].
  split; [intros i Hi; rewrite Hs2; apply Hlow1; exact Hi|].
  split; [congruence|]. split; [congruence|].
  intros Hn. rewrite Hcm2 by exact Hn. f_equal. lia.
Qed.

(** X28. The scissor flag is marked dirty by comparison with the old value,
    not kept: setting the flag to the same value twice in a row leaves it
    clean, whether or not the first change has been applied. *)
Theorem scissor_dirty_overwritten v s :
  exists s1 s2,
    gl_set_flag GL_SCISSOR_TEST v s = Ok tt s1
    /\ is_scissor_dirty s1 = xorb v (scissor_test s)
    /\ gl_set_flag GL_SCISSOR_TEST v s1 = Ok tt s2
    /\ is_scissor_dirty s2 = false
    /\ scissor_test s2 = v.
Proof.
  unfold gl_set_flag. rewrite Z.eqb_refl. unfold bind, gets, modify.
  eexists _, _. split; [reflexivity|]. cbn.
  split; [destruct v, (scissor_test s); reflexivity|].
  split; [reflexivity|]. split; [destruct v; reflexivity | reflexivity].
Qed.

Lemma label_tests t :
  t ∉ [GL_SCISSOR_TEST; GL_CULL_FACE; GL_DEPTH_TEST; GL_TEXTURE_2D; GL_BLEND] ->
  (t =? GL_SCISSOR_TEST) = false /\ (t =? GL_CULL_FACE) = false
  /\ (t =? GL_DEPTH_TEST) = false /\ (t =? GL_TEXTURE_2D) = false
  /\ (t =? GL_BLEND) = false.
Proof.
  rewrite !not_elem_of_cons. intros (H1 & H2 & H3 & H4 & H5 & _).
  repeat split; apply Z.eqb_neq; assumption.
Qed.

(** X29. With distinct case labels: enabling a logic op or a stipple stops
    the program; disabling a logic op does nothing, while disabling a
    stipple runs on into the default case and reports [GL_INVALID_ENUM], as
    does any target that is not a case label. *)
Theorem gl_unsupported_targets s :
  NoDup gl_set_flag_labels -> GL_INVALID_ENUM <> 0 ->
  (forall t, t ∈ [GL_COLOR_LOGIC_OP; GL_INDEX_LOGIC_OP] ->
     glEnable t s = AssertFail "Logical pixel operation is not supported!" s
     /\ glDisable t s = Ok tt s)
  /\ (forall t, t ∈ [GL_LINE_STIPPLE; GL_POLYGON_STIPPLE] ->
        glEnable t s = AssertFail "Stipple is not supported!" s
        /\ glDisable t s = Ok tt (set_current_error GL_INVALID_ENUM s))
  /\ (forall t v, t ∉ gl_set_flag_labels ->
        gl_set_flag t v s = Ok tt (set_current_error GL_INVALID_ENUM s)).
Proof.
  intros Hnd Herr. unfold gl_set_flag_labels in *.
  assert (Hsplit : forall t,
             t ∈ [GL_COLOR_LOGIC_OP; GL_INDEX_LOGIC_OP; GL_LINE_STIPPLE; GL_POLYGON_STIPPLE] ->
             t ∉ [GL_SCISSOR_TEST; GL_CULL_FACE; GL_DEPTH_TEST; GL_TEXTURE_2D; GL_BLEND]).
  { intros t Ht Hin.
    change [GL_SCISSOR_TEST; GL_CULL_FACE; GL_DEPTH_TEST; GL_TEXTURE_2D; GL_BLEND;
            GL_COLOR_LOGIC_OP; GL_INDEX_LOGIC_OP; GL_LINE_STIPPLE; GL_POLYGON_STIPPLE]
      with ([GL_SCISSOR_TEST; GL_CULL_FACE; GL_DEPTH_TEST; GL_TEXTURE_2D; GL_BLEND]
              ++ [GL_COLOR_LOGIC_OP; GL_INDEX_LOGIC_OP; GL_LINE_STIPPLE; GL_POLYGON_STIPPLE])
      in Hnd.
    apply NoDup_app in Hnd as (_ & Hdis & _). exact (Hdis t Hin Ht). }
  assert (Hlogic : forall t, t ∈ [GL_LINE_STIPPLE; GL_POLYGON_STIPPLE] ->
             (t =? GL_COLOR_LOGIC_OP) = false /\ (t =? GL_INDEX_LOGIC_OP) = false).
  { intros t Ht.
    do 5 (apply NoDup_cons in Hnd as [_ Hnd]).
    apply NoDup_cons in Hnd as [Hc Hnd]. apply NoDup_cons in Hnd as [Hi _].
    rewrite !not_elem_of_cons in Hc. rewrite !not_elem_of_cons in Hi.
    rewrite !elem_of_cons in Ht.
    destruct Hc as (_ & Hc1 & Hc2 & _). destruct Hi as (Hi1 & Hi2 & _).
    destruct Ht as [-> | [-> | Ht]]; [| |apply elem_of_nil in Ht; contradiction];
      split; apply Z.eqb_neq; congruence. }
  split; [|split].
  - intros t Ht.
    destruct (label_tests t) as (E1 & E2 & E3 & E4 & E5).
    { apply Hsplit. rewrite !elem_of_cons in *. tauto. }
    unfold glEnable, glDisable, gl_set_flag. rewrite E1, E2, E3, E4, E5.
    assert (E6 : (t =? GL_COLOR_LOGIC_OP) || (t =? GL_INDEX_LOGIC_OP) = true).
    { rewrite !elem_of_cons in Ht. destruct Ht as [-> | [-> | Ht]].
      - rewrite Z.eqb_refl. reflexivity.
      - rewrite Z.eqb_refl. apply orb_true_r.
      - apply elem_of_nil in Ht. contradiction. }
    rewrite E6. split; reflexivity.
  - intros t Ht.
    destruct (label_tests t) as (E1 & E2 & E3 & E4 & E5).
    { apply Hsplit. rewrite !elem_of_cons in *. tauto. }
    destruct (Hlogic t Ht) as [E6 E7].
    unfold glEnable, glDisable, gl_set_flag. rewrite E1, E2, E3, E4, E5, E6, E7.
    assert (E8 : (t =? GL_LINE_STIPPLE) || (t =? GL_POLYGON_STIPPLE) = true).
    { rewrite !elem_of_cons in Ht. destruct Ht as [-> | [-> | Ht]].
      - rewrite Z.eqb_refl. reflexivity.
      - rewrite Z.eqb_refl. apply orb_true_r.
      - apply elem_of_nil in Ht. contradiction. }
    rewrite E8. cbn [orb]. split; [reflexivity|].
    unfold bind, assertf. cbn [negb]. apply GlFacts.gl_set_error_run. exact Herr.
  - intros t v Ht. rewrite !not_elem_of_cons in Ht.
    destruct Ht as (H1 & H2 & H3 & H4 & H5 & H6 & H7 & H8 & H9 & _).
    unfold gl_set_flag.
    rewrite (proj2 (Z.eqb_neq _ _) H1), (proj2 (Z.eqb_neq _ _) H2),
      (proj2 (Z.eqb_neq _ _) H3), (proj2 (Z.eqb_neq _ _) H4),
      (proj2 (Z.eqb_neq _ _) H5), (proj2 (Z.eqb_neq _ _) H6),
      (proj2 (Z.eqb_neq _ _) H7), (proj2 (Z.eqb_neq _ _) H8),
      (proj2 (Z.eqb_neq _ _) H9).
    cbn [orb]. apply GlFacts.gl_set_error_run. exact Herr.
Qed.

(** X30. The error flag holds one value: of two errors set in a row the
    later one is what [glGetError] returns; the call resets the flag, so a
    second [glGetError] returns [GL_NO_ERROR]. [gl_set_error] of zero stops
    the program. *)
Theorem last_error_wins no_error e1 e2 s :
  e1 <> 0 -> e2 <> 0 ->
  exists s',
    bind (gl_set_error e1)
      (fun _ => bind (gl_set_error e2) (fun _ => glGetError no_error)) s
    = Ok e2 s'
    /\ current_error s' = no_error
    /\ glGetError no_error s' = Ok no_error s'
    /\ aborted (gl_set_error 0 s) = true.
Proof.
  intros H1 H2. unfold bind.
  rewrite (GlFacts.gl_set_error_run e1 s H1).
  rewrite (GlFacts.gl_set_error_run e2 _ H2).
  eexists. split; [reflexivity|]. split; [reflexivity|].
  split; reflexivity.
Qed.

End WithHeaders.

(** *** OpenGL 1.1 enumerants *)

#[local] Existing Instance gl11_headers.

(** A texture 48 texels wide gets a wrap mask of 5 bits. *)
Lemma gl_log2_floor_witness :
  exists k, gl_log2 48 = Some k /\ 2 ^ k <= 48 < 2 ^ (k + 1).
Proof.
  destruct (gl_log2_floor 48) as (k & Hrun & _ & Hk); [lia|].
  exists k. split; [exact Hrun | apply Hk; lia].
Defined.

(** Three pushes and three pops on the fresh model-view stack. *)
Lemma push_pop_balanced_witness :
  exists s1 s2,
    repeat_command 3 glPushMatrix gl_fresh = Ok tt s1
    /\ repeat_command 3 glPopMatrix s1 = Ok tt s2
    /\ cur_depth (modelview_stack s1) = 3
    /\ cur_depth (modelview_stack s2) = 0
    /\ current_configuration s2 = Some (tagged_matrix 1)
    /\ projection_stack s2 = projection_stack gl_fresh.
Proof.
  destruct (push_pop_balanced (H := gl11_headers) 3 gl_fresh)
    as (s1 & s2 & Hrun1 & Hrun2 & Hd1 & _ & Hd2 & Hcfg & _ & Hother & _).
  - vm_compute. reflexivity.
  - vm_compute. reflexivity.
  - vm_compute. discriminate.
  - vm_compute. reflexivity.
  - exists s1, s2. split; [exact Hrun1|]. split; [exact Hrun2|].
    split; [exact Hd1|]. split; [exact Hd2|]. split; [exact Hcfg | exact Hother].
Defined.

Lemma gl_unsupported_targets_witness :
  glEnable 0x0B24 gl_fresh = AssertFail "Stipple is not supported!" gl_fresh
  /\ glDisable 0x0B24 gl_fresh = Ok tt (set_current_error 0x0500 gl_fresh)
  /\ glDisable 0x0BF2 gl_fresh = Ok tt gl_fresh
  /\ glEnable 0x0B50 gl_fresh = Ok tt (set_current_error 0x0500 gl_fresh).
Proof.
  destruct (gl_unsupported_targets (H := gl11_headers) gl_fresh)
    as (Hlogic & Hstipple & Hother).
  - exact GlFacts.gl11_labels_distinct.
  - vm_compute. discriminate.
  - destruct (Hstipple 0x0B24) as [He Hd]; [rewrite elem_of_cons; left; reflexivity|].
    destruct (Hlogic 0x0BF2) as [_ Hl]; [rewrite elem_of_cons; left; reflexivity|].
    split; [exact He|]. split; [exact Hd|]. split; [exact Hl|].
    apply (Hother 0x0B50 true). unfold gl_set_flag_labels. cbn.
    rewrite !not_elem_of_cons. repeat split; try discriminate. apply not_elem_of_nil.
Defined.

(** A stack underflow followed by an invalid enumerant: [glGetError] reports
    the invalid enumerant. *)
Lemma last_error_wins_witness :
  exists s',
    bind (gl_set_error 0x0504)
      (fun _ => bind (gl_set_error 0x0500) (fun _ => glGetError 0)) gl_fresh
    = Ok 0x0500 s'
    /\ current_error s' = 0.
Proof.
  destruct (last_error_wins (H := gl11_headers) 0 0x0504 0x0500 gl_fresh)
    as (s' & Hrun & Herr & _); [discriminate | discriminate |].
  exists s'. split; [exact Hrun | exact Herr].
Defined.

End GlMoreFacts.
